(** * Waycore knowledge base builder: a shallow embedding and its properties

    The Python sources embedded here are
      - [scripts/build_index.py]        (module [BuildIndex]),
      - [scripts/parsers/pdf_parser.py] (module [PDFParser]),
      - [scripts/parsers/json_parser.py] (module [JSONParser]),
      - [scripts/parsers/plant_parser.py] (module [PlantParser]),
      - [scripts/generate_manifest.py]  (module [GenerateManifest]),
      - [scripts/verify_index.py]       (module [VerifyIndex]).

    Python [str] values are lists of Unicode code points, Python [int]s are
    [Z], generators are the list of the values they yield, in order, and a
    raised exception is an explicit [Raise] result.  What the scripts get
    from libraries outside the repository is a parameter: the embedding
    model, the nearest-neighbour search and SHA-256 are [Variable]s of the
    sections that use them, Unicode case mapping, [json.dumps] and the
    like are the fields of [Builtins].  SQLite and hnswlib are modelled
    by the behaviour the scripts rely on: row identifiers, the uniqueness
    of the primary key, the binding of values, labelled items. *)

From Stdlib Require Import String Ascii.
From Stdlib Require Import List ZArith NArith Bool Lia Sorted.
Import Corelib.Init.Datatypes.
Import ListNotations.

Open Scope Z_scope.

(* ================================================================== *)
(** * Part I: definitions *)
(* ================================================================== *)

(** ** Python strings and the [re] patterns the scripts use *)

Module Py.

(** A character is a code point; a [str] is a sequence of them. *)
Definition char := N.
Definition str := list char.

(** An ASCII literal as a [str]. *)
Definition lit (x : String.string) : str :=
  map Ascii.N_of_ascii (String.list_ascii_of_string x).

Arguments lit x%_string.

Definition SP : char := 32%N.
Definition NL : char := 10%N.
Definition CR : char := 13%N.
Definition TAB : char := 9%N.

(** [len(s)] *)
Definition len (s : str) : Z := Z.of_nat (length s).

Definition str_eqb (a b : str) : bool :=
  if list_eq_dec N.eq_dec a b then true else false.

Definition is_empty (s : str) : bool :=
  match s with [] => true | _ :: _ => false end.

(** [str.isspace] on one character, which is also what [\s] matches in a
    [str] pattern and what [str.strip()] removes: CPython's
    [_PyUnicode_IsWhitespace]. *)
Definition isspace (c : char) : bool :=
  ((9 <=? c) && (c <=? 13) || (28 <=? c) && (c <=? 32)
   || (c =? 133) || (c =? 160) || (c =? 5760)
   || (8192 <=? c) && (c <=? 8202)
   || (c =? 8232) || (c =? 8233) || (c =? 8239) || (c =? 8287)
   || (c =? 12288))%N.

(** The class [[ \t]]. *)
Definition isblank (c : char) : bool := ((c =? 32) || (c =? 9))%N.

Definition is_nl (c : char) : bool := (c =? 10)%N.
Definition is_cr (c : char) : bool := (c =? 13)%N.

(** Does the string start with a character of class [p]? *)
Definition head_is (p : char -> bool) (s : str) : bool :=
  match s with c :: _ => p c | [] => false end.

(** [re.sub(r'P+', ' ', s)] for a character class [P]: every maximal run
    of [P]-characters becomes one space.  A [P]-character followed by
    another one is dropped, the last of a run becomes the space. *)
Fixpoint sub_plus (p : char -> bool) (s : str) : str :=
  match s with
  | [] => []
  | c :: r =>
      if p c then (if head_is p r then sub_plus p r else SP :: sub_plus p r)
      else c :: sub_plus p r
  end.

(** Do at least two newlines start the string? *)
Definition starts_nl2 (s : str) : bool :=
  match s with a :: b :: _ => is_nl a && is_nl b | _ => false end.

(** [re.sub(r'\n{3,}', '\n\n', s)]: a newline that two more newlines
    follow is dropped, so every run of three or more ends as two. *)
Fixpoint sub_nl3 (s : str) : str :=
  match s with
  | [] => []
  | c :: r => if is_nl c && starts_nl2 r then sub_nl3 r else c :: sub_nl3 r
  end.

(** [re.sub(r'\r\n?', '\n', s)] *)
Fixpoint sub_crlf (s : str) : str :=
  match s with
  | [] => []
  | c :: r =>
      if is_cr c then
        NL :: match r with
              | c' :: r' => if is_nl c' then sub_crlf r' else sub_crlf r
              | [] => []
              end
      else c :: sub_crlf r
  end.

(** [s.lstrip()], [s.rstrip()] and [s.strip()] *)
Fixpoint lstrip (s : str) : str :=
  match s with
  | [] => []
  | c :: r => if isspace c then lstrip r else s
  end.

Fixpoint rstrip (s : str) : str :=
  match s with
  | [] => []
  | c :: r =>
      match rstrip r with
      | [] => if isspace c then [] else [c]
      | r' => c :: r'
      end
  end.

Definition strip (s : str) : str := rstrip (lstrip s).

(** Put a character in front of the first piece of a split. *)
Definition cons_head (c : char) (ps : list str) : list str :=
  match ps with
  | p :: ps' => (c :: p) :: ps'
  | [] => [[c]]
  end.

(** [re.split(r'\n\n+', s)]: the pieces between the maximal runs of two
    or more newlines (a piece may be empty).  [insep] says that the
    characters just read were a separator, whose further newlines are
    skipped. *)
Fixpoint split_nn_from (insep : bool) (s : str) : list str :=
  match s with
  | [] => [[]]
  | c :: r =>
      if is_nl c then
        if insep then split_nn_from true r
        else
          match r with
          | c' :: r' =>
              if is_nl c' then [] :: split_nn_from true r'
              else cons_head c (split_nn_from false r)
          | [] => cons_head c (split_nn_from false r)
          end
      else cons_head c (split_nn_from false r)
  end.

Definition re_split_nn (s : str) : list str := split_nn_from false s.

(** [s[-n:]] for [n > 0]: the last [n] characters, all of [s] when it is
    shorter. *)
Definition last_chars (n : Z) (s : str) : str :=
  skipn (length s - Z.to_nat n)%nat s.

(** [sep.join(parts)] *)
Fixpoint join (sep : str) (parts : list str) : str :=
  match parts with
  | [] => []
  | [p] => p
  | p :: ps => p ++ sep ++ join sep ps
  end.

(** [needle in s] for strings. *)
Fixpoint starts_with (needle s : str) : bool :=
  match needle, s with
  | [], _ => true
  | _ :: _, [] => false
  | a :: n', b :: s' => (a =? b)%N && starts_with n' s'
  end.

Fixpoint contains (needle s : str) : bool :=
  starts_with needle s ||
  match s with
  | [] => false
  | _ :: s' => contains needle s'
  end.

(** [s.replace('_', ' ')] *)
Definition replace_underscore (s : str) : str :=
  map (fun c => if (c =? 95)%N then SP else c) s.

(** [str.lower] and [str.title] on ASCII text, where they are exact; the
    parsers of this development take the Unicode functions as variables
    and these instantiate them on ASCII keys. *)
Definition is_upper (c : char) : bool := ((65 <=? c) && (c <=? 90))%N.
Definition is_lower (c : char) : bool := ((97 <=? c) && (c <=? 122))%N.
Definition to_lower (c : char) : char := if is_upper c then (c + 32)%N else c.
Definition to_upper (c : char) : char := if is_lower c then (c - 32)%N else c.

Definition ascii_lower (s : str) : str := map to_lower s.

Fixpoint title_from (prev_cased : bool) (s : str) : str :=
  match s with
  | [] => []
  | c :: r =>
      (if prev_cased then to_lower c else to_upper c)
        :: title_from (is_upper c || is_lower c) r
  end.

Definition ascii_title (s : str) : str := title_from false s.

(** [s.find(needle)]: the least index where [needle] starts, [-1] when
    there is none. *)
Fixpoint find_from (i : Z) (needle s : str) : Z :=
  if starts_with needle s then i
  else
    match s with
    | [] => -1
    | _ :: s' => find_from (i + 1) needle s'
    end.

Definition str_find (needle s : str) : Z := find_from 0 needle s.

(** [s.split('\n')] *)
Fixpoint split_lines (s : str) : list str :=
  match s with
  | [] => [[]]
  | c :: r => if is_nl c then [] :: split_lines r else cons_head c (split_lines r)
  end.

(** [s[:k]]: the first [k] characters, all but the last [-k] when [k] is
    negative. *)
Definition slice_to (k : Z) (s : str) : str :=
  if k <? 0 then firstn (Z.to_nat (len s + k)) s else firstn (Z.to_nat k) s.

End Py.

Import Py.

(** ** Exceptions *)

Inductive exn : Type :=
| ValueError
| TypeError
| OverflowError
| UnicodeEncodeError
| IntegrityError
| OperationalError
| DatabaseError
| RuntimeError
| SystemExit (code : Z).

Inductive result (A : Type) : Type :=
| Ok (a : A)
| Raise (e : exn).

Arguments Ok {A} a.
Arguments Raise {A} e.

Definition bind {A B : Type} (r : result A) (k : A -> result B) : result B :=
  match r with
  | Ok a => k a
  | Raise e => Raise e
  end.

(** ** JSON values as [json.load] returns them *)

Module Json.

(** A Python [float]: [FNum m e] is [m * 2^e]. *)
Inductive pyfloat : Type :=
| FNum (m e : Z)
| FInf (negative : bool)
| FNaN.

(** A [dict] keeps its items in insertion order. *)
#[warnings="-register-all"]
Inductive json : Type :=
| JNull
| JBool (b : bool)
| JInt (z : Z)
| JFloat (f : pyfloat)
| JStr (s : str)
| JList (l : list json)
| JDict (d : list (str * json)).

Definition dict := list (str * json).

(** [bool(v)] *)
Definition truthy (v : json) : bool :=
  match v with
  | JNull => false
  | JBool b => b
  | JInt z => negb (z =? 0)
  | JFloat (FNum m _) => negb (m =? 0)
  | JFloat _ => true
  | JStr s => negb (is_empty s)
  | JList l => match l with [] => false | _ => true end
  | JDict d => match d with [] => false | _ => true end
  end.

(** [d[key]] when [key in d] *)
Fixpoint lookup {V : Type} (d : list (str * V)) (key : str) : option V :=
  match d with
  | [] => None
  | (k, v) :: d' => if str_eqb k key then Some v else lookup d' key
  end.

(** [key in d] *)
Definition has_key {V : Type} (d : list (str * V)) (key : str) : bool :=
  match lookup d key with Some _ => true | None => false end.

(** [d.get(key)] *)
Definition get (d : dict) (key : str) : json :=
  match lookup d key with Some v => v | None => JNull end.

(** [d[key] = v] *)
Fixpoint set {V : Type} (d : list (str * V)) (key : str) (v : V)
  : list (str * V) :=
  match d with
  | [] => [(key, v)]
  | (k, w) :: d' =>
      if str_eqb k key then (k, v) :: d' else (k, w) :: set d' key v
  end.

(** [a or b] *)
Definition py_or (a b : json) : json := if truthy a then a else b.

(** [x in xs] for a list of strings. *)
Definition mem (x : str) (xs : list str) : bool := existsb (str_eqb x) xs.

(** The decimal digits of a natural number, most significant first;
    [fuel] bounds their number. *)
Fixpoint digits (fuel : nat) (n : N) (acc : str) : str :=
  match fuel with
  | O => acc
  | S fuel' =>
      let acc' := (48 + n mod 10)%N :: acc in
      if (n <? 10)%N then acc' else digits fuel' (n / 10)%N acc'
  end.

(** [str(z)] for an [int]. *)
Definition str_of_int (z : Z) : str :=
  let n := Z.to_N (Z.abs z) in
  let ds := digits (S (N.to_nat (N.log2 n))) n [] in
  if z <? 0 then 45%N :: ds else ds.

(** What the parsers take from Python's library: Unicode case mapping,
    [json.dumps(v, indent=2)], [str()] of floats, lists and dicts, and
    [int()] of a string ([None] when it raises [ValueError]). *)
Record Builtins : Type := {
  str_lower : str -> str;
  str_title : str -> str;
  json_dumps : json -> str;
  repr : json -> str;
  int_of_str : str -> option Z
}.

(** [str(v)], which is also how an f-string formats [v]. *)
Definition py_str (B : Builtins) (v : json) : str :=
  match v with
  | JNull => lit "None"
  | JBool true => lit "True"
  | JBool false => lit "False"
  | JInt z => str_of_int z
  | JStr s => s
  | JFloat _ | JList _ | JDict _ => repr B v
  end.

(** [int(v)] inside [try: ... except (ValueError, TypeError)]: the
    integer, an exception the handler catches, or one it does not. *)
Inductive int_conv : Type :=
| IntOk (z : Z)
| IntCaught
| IntUncaught (e : exn).

Definition py_int (B : Builtins) (v : json) : int_conv :=
  match v with
  | JInt z => IntOk z
  | JBool b => IntOk (if b then 1 else 0)
  | JFloat (FNum m e) =>
      IntOk (if 0 <=? e then m * 2 ^ e else Z.quot m (2 ^ (- e)))
  | JFloat (FInf _) => IntUncaught OverflowError
  | JFloat FNaN => IntCaught
  | JStr s => match int_of_str B s with Some z => IntOk z | None => IntCaught end
  | JNull | JList _ | JDict _ => IntCaught
  end.

(** The builtins on ASCII text, for the examples: case mapping is exact
    there, [int] reads no string, and the examples neither dump a record
    nor format a float, a list or a dict. *)
Definition ascii_builtins : Builtins := {|
  str_lower := ascii_lower;
  str_title := ascii_title;
  json_dumps := fun _ => [];
  repr := fun _ => [];
  int_of_str := fun _ => None
|}.

End Json.

Import Json.

(** ** [scripts/parsers/pdf_parser.py]: cleaning and chunking *)

Module PDFParser.

(** [PDFParser._clean_text] *)
Definition _clean_text (text : str) : str :=
  let text := sub_plus isblank text in
  let text := sub_crlf text in
  let text := sub_nl3 text in
  strip text.

(** The [for para in paragraphs] loop of [_chunk_text] and the final
    [yield]: the chunks yielded from the paragraphs still to read, with
    [current_chunk] as it stands. *)
Fixpoint chunk_loop (chunk_size chunk_overlap min_chunk_size : Z)
         (paragraphs : list str) (current_chunk : str) : list str :=
  match paragraphs with
  | [] =>
      if negb (is_empty current_chunk) && (len current_chunk >=? min_chunk_size)
      then [current_chunk] else []
  | para :: rest =>
      let para := strip para in
      if is_empty para then
        chunk_loop chunk_size chunk_overlap min_chunk_size rest current_chunk
      else if len current_chunk + len para + 2 >? chunk_size then
        let next :=
          if chunk_overlap >? 0
          then last_chars chunk_overlap current_chunk ++ [SP] ++ para
          else para in
        if len current_chunk >=? min_chunk_size
        then current_chunk
               :: chunk_loop chunk_size chunk_overlap min_chunk_size rest next
        else chunk_loop chunk_size chunk_overlap min_chunk_size rest next
      else
        chunk_loop chunk_size chunk_overlap min_chunk_size rest
          (if negb (is_empty current_chunk)
           then current_chunk ++ [NL; NL] ++ para
           else para)
  end.

(** [PDFParser._chunk_text], for a parser built with the three sizes. *)
Definition _chunk_text (chunk_size chunk_overlap min_chunk_size : Z)
           (text : str) : list str :=
  if len text <? min_chunk_size then []
  else chunk_loop chunk_size chunk_overlap min_chunk_size (re_split_nn text) [].

(** [TextChunk] *)
Record TextChunk : Type := {
  text : str;
  page_number : Z;
  source_file : str
}.

(** [PDFParser.extract_text]; [pages] are the texts [page.get_text()]
    returns, in page order, and [page_num] the index of the first. *)
Fixpoint extract_text_from (page_num : Z) (pages : list str)
         (name : str) : list TextChunk :=
  match pages with
  | [] => []
  | page :: rest =>
      let text := _clean_text page in
      if negb (is_empty text)
      then {| text := text; page_number := page_num + 1; source_file := name |}
             :: extract_text_from (page_num + 1) rest name
      else extract_text_from (page_num + 1) rest name
  end.

Definition extract_text (pages : list str) (name : str) : list TextChunk :=
  extract_text_from 0 pages name.

(** The first loop of [extract_chunks]: [all_text] and [page_positions]
    when it ends. *)
Fixpoint combine_pages (page_num : Z) (pages : list str) (all_text : str)
         (page_positions : list (Z * Z)) : str * list (Z * Z) :=
  match pages with
  | [] => (all_text, page_positions)
  | text :: rest =>
      combine_pages (page_num + 1) rest (all_text ++ [NL; NL] ++ text)
        (page_positions ++ [(len all_text, page_num + 1)])
  end.

(** The loop that looks a chunk's page up: the page of the last position
    at or before [chunk_start], page 1 when there is none. *)
Definition page_of (page_positions : list (Z * Z)) (chunk_start : Z) : Z :=
  fold_left (fun page_number p =>
               if chunk_start >=? fst p then snd p else page_number)
            page_positions 1.

(** [PDFParser.extract_chunks], for a parser built with the three
    sizes. *)
Definition extract_chunks (chunk_size chunk_overlap min_chunk_size : Z)
           (pages : list str) (name : str) : list TextChunk :=
  let '(all_text, page_positions) := combine_pages 0 pages [] [] in
  let all_text := _clean_text all_text in
  map (fun chunk =>
         {| text := chunk;
            page_number := page_of page_positions (str_find (firstn 50 chunk) all_text);
            source_file := name |})
      (_chunk_text chunk_size chunk_overlap min_chunk_size all_text).

End PDFParser.

(** ** [scripts/build_index.py] *)

Module BuildIndex.

Definition CHUNK_SIZE : Z := 512.
Definition CHUNK_OVERLAP : Z := 64.
Definition MIN_CHUNK_SIZE : Z := 100.
Definition EMBEDDING_DIM : Z := 384.

Definition CATEGORY_SAFETY : list (str * str) :=
  [ (lit "survival", lit "caution");
    (lit "navigation", lit "safe");
    (lit "first_aid", lit "warning");
    (lit "plants", lit "danger");
    (lit "knots", lit "safe");
    (lit "weather", lit "safe");
    (lit "comms", lit "safe");
    (lit "equipment", lit "caution") ].

(** [CATEGORY_SAFETY.get(category, "safe")] *)
Definition category_safety (category : str) : str :=
  match lookup CATEGORY_SAFETY category with
  | Some level => level
  | None => lit "safe"
  end.

(** [clean_text] *)
Definition clean_text (text : str) : str :=
  let text := sub_plus isspace text in
  let text := sub_nl3 text in
  strip text.

(** The [for para in paragraphs] loop of [chunk_text] and the final
    [yield]. *)
Fixpoint chunk_loop (chunk_size overlap : Z)
         (paragraphs : list str) (current_chunk : str) : list str :=
  match paragraphs with
  | [] =>
      if negb (is_empty current_chunk) && (len current_chunk >=? MIN_CHUNK_SIZE)
      then [current_chunk] else []
  | para :: rest =>
      let para := strip para in
      if is_empty para then chunk_loop chunk_size overlap rest current_chunk
      else if (len current_chunk + len para + 2 >? chunk_size)
              && (len current_chunk >=? MIN_CHUNK_SIZE)
      then current_chunk
             :: chunk_loop chunk_size overlap rest
                  (if overlap >? 0
                   then last_chars overlap current_chunk ++ [SP] ++ para
                   else para)
      else chunk_loop chunk_size overlap rest
             (if negb (is_empty current_chunk)
              then current_chunk ++ [NL; NL] ++ para
              else para)
  end.

(** [chunk_text(text, chunk_size, overlap)] *)
Definition chunk_text (text : str) (chunk_size overlap : Z) : list str :=
  let text := clean_text text in
  if len text <? MIN_CHUNK_SIZE then []
  else chunk_loop chunk_size overlap (re_split_nn text) [].

(** [Entry]: the constructor draws [id] from [uuid4] and [created_at]
    from the clock; here they are given. *)
Record Entry : Type := {
  id : str;
  title : str;
  content : str;
  category : str;
  subcategory : option str;
  safety_level : str;
  safety_notes : option str;
  source_file : option str;
  source_page : option Z;
  source_url : option str;
  license : option str;
  tags : list str;
  created_at : str
}.

Definition PLANTS_NOTE : str :=
  lit "WARNING: Never consume plants based solely on this information.".

(** The [content_parts] loop of [parse_json_item]. *)
Fixpoint content_parts (B : Builtins) (item : dict) : list str :=
  match item with
  | [] => []
  | (key, value) :: rest =>
      if mem (str_lower B key) [lit "name"; lit "title"; lit "id"]
      then content_parts B rest
      else
        match value with
        | JStr s =>
            if len s >? 10
            then (key ++ lit ": " ++ s) :: content_parts B rest
            else content_parts B rest
        | _ => content_parts B rest
        end
  end.

(** The [content] of [parse_json_item]. *)
Definition item_content (B : Builtins) (item : dict) : str :=
  match content_parts B item with
  | [] => json_dumps B (JDict item)
  | parts => join [NL] parts
  end.

(** [parse_json_item(item, category, source_file)]; [uid] and [now] are
    what [uuid4] and the clock give the [Entry] it builds. *)
Definition parse_json_item (B : Builtins) (uid now : str)
           (item : dict) (category source_file : str) : list Entry :=
  let title :=
    py_or (get item (lit "name"))
      (py_or (get item (lit "title"))
         (py_or (get item (lit "common_name")) (JStr (lit "Unknown")))) in
  let content := item_content B item in
  if len content <? MIN_CHUNK_SIZE then []
  else
    let plants := str_eqb category (lit "plants") in
    [ {| id := uid;
         title := py_str B title;
         content := content;
         category := category;
         subcategory := None;
         safety_level :=
           if plants then lit "danger" else category_safety category;
         safety_notes := if plants then Some PLANTS_NOTE else None;
         source_file := Some source_file;
         source_page := None;
         source_url := None;
         license := Some (lit "public_domain");
         tags := [category];
         created_at := now |} ].

(** *** Titles, PDF files and JSON files *)

Section Titles.

Variable B : Builtins.

(** The characters [\d] matches: the Unicode decimal digits. *)
Variable is_digit : char -> bool.

(** [s] is one or more digits. *)
Definition all_digits (s : str) : bool :=
  negb (is_empty s) && forallb is_digit s.

(** [re.match(r'^(page\s+)?\d+$', s)] for a string without newline:
    digits only, or [page], whitespace and digits. *)
Definition is_page_number (s : str) : bool :=
  all_digits s
  || (starts_with (lit "page") s
      && head_is isspace (skipn 4 s)
      && all_digits (lstrip (skipn 4 s))).

(** The loop of [extract_title_from_text] over the lines. *)
Fixpoint title_of_lines (lines : list str) (max_length : Z) : str :=
  match lines with
  | [] => lit "Untitled Entry"
  | line :: rest =>
      let line := strip line in
      if len line <? 10 then title_of_lines rest max_length
      else if is_page_number (str_lower B line)
      then title_of_lines rest max_length
      else if len line >? max_length
      then slice_to (max_length - 3) line ++ lit "..."
      else line
  end.

(** [extract_title_from_text(text, max_length)] *)
Definition extract_title_from_text (text : str) (max_length : Z) : str :=
  title_of_lines (split_lines (strip text)) max_length.

(** The first loop of [parse_pdf]: [all_text] and [page_breaks] when it
    ends. *)
Fixpoint read_pages (page_num : Z) (pages : list str) (all_text : str)
         (page_breaks : list (Z * Z)) : str * list (Z * Z) :=
  match pages with
  | [] => (all_text, page_breaks)
  | page_text :: rest =>
      read_pages (page_num + 1) rest (all_text ++ [NL; NL] ++ page_text)
        (page_breaks ++ [(len all_text, page_num + 1)])
  end.

(** The loop that finds a chunk's page. *)
Definition source_page_of (page_breaks : list (Z * Z)) (chunk_start : Z) : Z :=
  fold_left (fun source_page p =>
               if chunk_start >=? fst p then snd p else source_page)
            page_breaks 1.

(** [CATEGORY_SAFETY.get(category, "safe")] and the notes of
    [parse_pdf]. *)
Definition pdf_safety_notes (category : str) : option str :=
  if str_eqb category (lit "plants")
  then Some (lit "WARNING: Never consume plants based solely on this information. Always verify with multiple authoritative sources.")
  else if str_eqb category (lit "first_aid")
  then Some (lit "This information is for educational purposes. Seek professional medical help when possible.")
  else None.

(** The entries of the chunks, the [n]th entry built taking its [id] and
    [created_at] from [fresh n]. *)
Fixpoint pdf_entries (fresh : nat -> str * str) (n : nat) (chunks : list str)
         (all_text : str) (page_breaks : list (Z * Z))
         (name stem category : str) : list Entry :=
  match chunks with
  | [] => []
  | chunk :: rest =>
      {| id := fst (fresh n);
         title := extract_title_from_text chunk 100;
         content := chunk;
         category := category;
         subcategory := None;
         safety_level := category_safety category;
         safety_notes := pdf_safety_notes category;
         source_file := Some name;
         source_page :=
           Some (source_page_of page_breaks
                  (str_find (firstn 50 chunk) all_text));
         source_url := None;
         license := Some (lit "public_domain");
         tags := [category; stem];
         created_at := snd (fresh n) |}
        :: pdf_entries fresh (S n) rest all_text page_breaks name stem category
  end.

(** [parse_pdf(pdf_path, category)]: [doc] holds the page texts, [None]
    when the file cannot be opened; [name] and [stem] are those of the
    path. *)
Definition parse_pdf (fresh : nat -> str * str) (n : nat)
           (doc : option (list str)) (name stem category : str) : list Entry :=
  match doc with
  | None => []
  | Some pages =>
      let '(all_text, page_breaks) := read_pages 0 pages [] [] in
      pdf_entries fresh n (chunk_text all_text CHUNK_SIZE CHUNK_OVERLAP)
        all_text page_breaks name stem category
  end.

(** The records of a list, each through [parse_json_item], the [n]th
    entry built taking its [id] and [created_at] from [fresh n]. *)
Fixpoint json_entries (fresh : nat -> str * str) (n : nat) (items : list json)
         (category name : str) : list Entry :=
  match items with
  | [] => []
  | JDict item :: rest =>
      let es := parse_json_item B (fst (fresh n)) (snd (fresh n)) item
                  category name in
      es ++ json_entries fresh (n + length es) rest category name
  | _ :: rest => json_entries fresh n rest category name
  end.

(** The loop of [parse_json] over the items of a top-level object. *)
Fixpoint json_nested (fresh : nat -> str * str) (n : nat) (items : dict)
         (category name : str) : list Entry :=
  match items with
  | [] => []
  | (_, JList l) :: rest =>
      let es := json_entries fresh n l category name in
      es ++ json_nested fresh (n + length es) rest category name
  | _ :: rest => json_nested fresh n rest category name
  end.

(** [parse_json(json_path, category)]: [data] is what [json.load] reads,
    [None] when the file cannot be opened or parsed. *)
Definition parse_json (fresh : nat -> str * str) (n : nat)
           (data : option json) (category name : str) : list Entry :=
  match data with
  | Some (JList l) => json_entries fresh n l category name
  | Some (JDict d) => json_nested fresh n d category name
  | _ => []
  end.

End Titles.

(** *** The relational store

    The table [entries] as SQLite keeps it.  It has no integer primary key
    of its own, so SQLite gives every inserted row a [rowid]: one more
    than the largest in use, 1 in an empty table.  Its text primary key
    [id] must stay unique.  A value is bound to the statement before the
    row is written: a [str] is encoded as UTF-8, which a surrogate code
    point does not have, and an [int] must fit 64 bits. *)

Record Row : Type := {
  rowid : Z;
  entry : Entry
}.

(** The rows in insertion order. *)
Definition Table := list Row.

Definition max_rowid (conn : Table) : Z :=
  fold_right (fun r m => Z.max (rowid r) m) 0 conn.

(** [s.encode('utf-8')] succeeds: no code point of [s] is a surrogate
    (U+D800 to U+DFFF). *)
Definition is_surrogate (c : char) : bool := ((55296 <=? c) && (c <=? 57343))%N.

Definition utf8_encodable (s : str) : bool :=
  forallb (fun c => negb (is_surrogate c)) s.

Definition opt_encodable (s : option str) : bool :=
  match s with
  | Some s => utf8_encodable s
  | None => true
  end.

(** The [int] fits an SQLite [INTEGER]. *)
Definition fits_int64 (z : Z) : bool := (- 2 ^ 63 <=? z) && (z <? 2 ^ 63).

(** Binding the values of [entry.to_dict()], in the order of its keys:
    the exception of the first value that cannot be bound, if any.
    [tags] is bound as [json.dumps(tags)], which is ASCII. *)
Definition bind_values (e : Entry) : option exn :=
  if negb (utf8_encodable (id e) && utf8_encodable (title e)
           && utf8_encodable (content e) && utf8_encodable (category e)
           && opt_encodable (subcategory e)
           && utf8_encodable (safety_level e)
           && opt_encodable (safety_notes e)
           && opt_encodable (source_file e))
  then Some UnicodeEncodeError
  else if negb match source_page e with
               | Some page => fits_int64 page
               | None => true
               end
  then Some OverflowError
  else if negb (opt_encodable (source_url e) && opt_encodable (license e)
                && utf8_encodable (created_at e))
  then Some UnicodeEncodeError
  else None.

(** Every value of the entry can be bound. *)
Definition storable (e : Entry) : bool :=
  match bind_values e with
  | None => true
  | Some _ => false
  end.

(** [insert_entry(conn, entry)]: the table after the [INSERT], and
    [cursor.lastrowid]. *)
Definition insert_entry (conn : Table) (e : Entry) : result (Table * Z) :=
  match bind_values e with
  | Some error => Raise error
  | None =>
      if existsb (fun r => str_eqb (id (entry r)) (id e)) conn
      then Raise IntegrityError
      else
        let lastrowid := max_rowid conn + 1 in
        Ok (conn ++ [{| rowid := lastrowid; entry := e |}], lastrowid)
  end.

(** [ORDER BY rowid] *)
Fixpoint insert_by_rowid (r : Z * str) (sorted : list (Z * str))
  : list (Z * str) :=
  match sorted with
  | [] => [r]
  | x :: rest =>
      if fst r <=? fst x then r :: sorted else x :: insert_by_rowid r rest
  end.

(** [SELECT rowid, content FROM entries ORDER BY rowid] *)
Definition select_rowid_content (conn : Table) : list (Z * str) :=
  fold_right insert_by_rowid [] (map (fun r => (rowid r, content (entry r))) conn).

(** [SELECT COUNT( * ) FROM entries] *)
Definition count_entries (conn : Table) : Z := Z.of_nat (length conn).

(** *** The source tree, as the parsers hand it to the build

    One item for each category directory, in the order [build_index]
    walks them, with the entries each of its files yields (the PDF files
    first, then the JSON files). *)
Definition Sources := list (str * list (list Entry)).

Definition all_entries (sources : Sources) : list Entry :=
  flat_map (fun c => concat (snd c)) sources.

Record Stats : Type := {
  categories : list (str * Z);
  total_entries : Z;
  files_processed : Z
}.

(** The two inner loops over one category: every entry of every file is
    inserted and counted. *)
Fixpoint insert_all (conn : Table) (es : list Entry) : result Table :=
  match es with
  | [] => Ok conn
  | e :: rest =>
      bind (insert_entry conn e) (fun r => insert_all (fst r) rest)
  end.

Fixpoint process_files (conn : Table) (stats : Stats) (cat : str)
         (files : list (list Entry)) : result (Table * Stats) :=
  match files with
  | [] => Ok (conn, stats)
  | es :: rest =>
      bind (insert_all conn es) (fun conn' =>
        let n := Z.of_nat (length es) in
        let count := match lookup (categories stats) cat with
                     | Some k => k | None => 0 end in
        process_files conn'
          {| categories := set (categories stats) cat (count + n);
             total_entries := total_entries stats + n;
             files_processed := files_processed stats + 1 |}
          cat rest)
  end.

(** The loop over the category directories. *)
Fixpoint process_categories (conn : Table) (stats : Stats)
         (sources : Sources) : result (Table * Stats) :=
  match sources with
  | [] => Ok (conn, stats)
  | (cat, files) :: rest =>
      bind (process_files conn
              {| categories := set (categories stats) cat 0;
                 total_entries := total_entries stats;
                 files_processed := files_processed stats |}
              cat files)
           (fun r => process_categories (fst r) (snd r) rest)
  end.

(** *** The vector index *)

Section Vectors.

(** The embedding model: the vectors, their dimension, and
    [model.encode(texts)]. *)
Variable embedding : Type.
Variable vec_dim : embedding -> Z.
Variable encode : list str -> list embedding.

(** An [hnswlib.Index] as what can be read from it: the vector kept
    under each external label ([get_items]) and the number of labels
    ([get_current_count]).  [add_items] inserts in parallel, so the
    order in which the index stores its items is not fixed; it is no part
    of this model. *)
Record Index : Type := {
  dim : Z;
  max_elements : Z;
  element_count : Z;
  get_item : Z -> option embedding
}.

(** [index.init_index(max_elements)] on a new [Index(dim)]. *)
Definition init_index (dim max_elements : Z) : Index :=
  {| dim := dim;
     max_elements := max_elements;
     element_count := 0;
     get_item := fun _ => None |}.

(** One item added: a label already in the index has its vector
    replaced, a new one is counted. *)
Definition put (index : Index) (label : Z) (v : embedding) : Index :=
  {| dim := dim index;
     max_elements := max_elements index;
     element_count :=
       match get_item index label with
       | Some _ => element_count index
       | None => element_count index + 1
       end;
     get_item := fun l => if l =? label then Some v else get_item index l |}.

(** The items of one call, one after the other.  [build_vector_index]
    passes labels that differ; of the vectors given under one label the
    model keeps the last. *)
Fixpoint add_each (index : Index) (data : list (embedding * Z)) : result Index :=
  match data with
  | [] => Ok index
  | (v, label) :: rest =>
      if negb (vec_dim v =? dim index) then Raise RuntimeError
      else
        let index' := put index label v in
        if element_count index' >? max_elements index then Raise RuntimeError
        else add_each index' rest
  end.

(** [index.add_items(data, ids)] *)
Definition add_items (index : Index) (data : list embedding) (ids : list Z)
  : result Index :=
  if negb (length data =? length ids)%nat then Raise RuntimeError
  else add_each index (combine data ids).

(** The batch loop of [build_vector_index]: [all_embeddings] and
    [all_ids] when it ends.  Each turn takes the next [batch_size] rows;
    [turns] is the number of turns left in [range(0, len(rows), 100)]. *)
Fixpoint batch_loop (turns : nat) (batch_size : nat) (rows : list (Z * str))
         (all_embeddings : list embedding) (all_ids : list Z)
  : list embedding * list Z :=
  match turns with
  | O => (all_embeddings, all_ids)
  | S turns' =>
      let batch := firstn batch_size rows in
      let ids := map fst batch in
      let texts := map snd batch in
      let embeddings := encode texts in
      batch_loop turns' batch_size (skipn batch_size rows)
        (all_embeddings ++ embeddings) (all_ids ++ ids)
  end.

(** [len(range(0, n, step))] *)
Definition range_len (n step : nat) : nat := ((n + step - 1) / step)%nat.

(** The output directory: the committed table of [knowledge.db] and the
    index saved as [vectors.idx], where the files exist. *)
Record OutputDir : Type := {
  knowledge_db : option Table;
  vectors_idx : option Index
}.

(** [build_vector_index(conn, index_path, model)], in the directory
    [out]: the directory afterwards and what the call returns. *)
Definition build_vector_index (conn : Table) (out : OutputDir)
  : OutputDir * result Index :=
  let rows := select_rowid_content conn in
  match rows with
  | [] => (out, Raise ValueError)
  | _ :: _ =>
      let '(all_embeddings, all_ids) :=
        batch_loop (range_len (length rows) 100) 100 rows [] [] in
      let index := init_index EMBEDDING_DIM (Z.of_nat (length all_ids)) in
      match add_items index all_embeddings all_ids with
      | Raise e => (out, Raise e)
      | Ok index =>
          ({| knowledge_db := knowledge_db out; vectors_idx := Some index |},
           Ok index)
      end
  end.

(** [build_index], from the removal of the old files on.  The inserts of
    phase 1 are committed together, after the last one. *)
Definition build_index (sources : Sources) (out : OutputDir)
  : OutputDir * result Stats :=
  let created := {| knowledge_db := Some []; vectors_idx := None |} in
  match process_categories []
          {| categories := []; total_entries := 0; files_processed := 0 |}
          sources with
  | Raise e => (created, Raise e)
  | Ok (conn, stats) =>
      let committed := {| knowledge_db := Some conn; vectors_idx := None |} in
      match build_vector_index conn committed with
      | (out', Raise e) => (out', Raise e)
      | (out', Ok _) => (out', Ok stats)
      end
  end.

End Vectors.

End BuildIndex.

(** ** [scripts/parsers/json_parser.py] *)

Module JSONParser.

Record DataEntry : Type := {
  title : str;
  content : str;
  metadata : dict;
  source_file : str
}.

(** The parser object: what [__init__] stores. *)
Record JSONParser : Type := {
  title_fields : list str;
  content_fields : list str;
  min_content_length : Z
}.

Definition DEFAULT_TITLE_FIELDS : list str :=
  [lit "name"; lit "title"; lit "common_name"; lit "label"; lit "heading"].

Definition DEFAULT_CONTENT_FIELDS : list str :=
  [lit "description"; lit "content"; lit "text"; lit "body"; lit "summary";
   lit "notes"].

(** [xs or default] for an optional list argument. *)
Definition or_default (xs : option (list str)) (default : list str) : list str :=
  match xs with
  | Some (x :: r) => x :: r
  | _ => default
  end.

(** [JSONParser.__init__] *)
Definition __init__ (title_fields content_fields : option (list str))
           (min_content_length : Z) : JSONParser :=
  {| title_fields := or_default title_fields DEFAULT_TITLE_FIELDS;
     content_fields := or_default content_fields DEFAULT_CONTENT_FIELDS;
     min_content_length := min_content_length |}.

(** [JSONParser()] *)
Definition default_parser : JSONParser := __init__ None None 50.

Section Parser.

Variable B : Builtins.
Variable self : JSONParser.

(** The title loop of [_parse_item]: the first title field with a truthy
    value, as a string. *)
Fixpoint find_title (fields : list str) (item : dict) : option str :=
  match fields with
  | [] => None
  | field :: rest =>
      match lookup item field with
      | Some v => if truthy v then Some (py_str B v) else find_title rest item
      | None => find_title rest item
      end
  end.

(** [f"**{key.replace('_', ' ').title()}**: {text}"] *)
Definition labelled (key text : str) : str :=
  lit "**" ++ str_title B (replace_underscore key) ++ lit "**: " ++ text.

(** [all(isinstance(x, str) for x in value)], with the strings. *)
Fixpoint all_strings (l : list json) : option (list str) :=
  match l with
  | [] => Some []
  | JStr s :: r =>
      match all_strings r with Some ss => Some (s :: ss) | None => None end
  | _ :: _ => None
  end.

(** The loop over [item.items()] of [_parse_item]: [content_parts] and
    [metadata] when it ends. *)
Fixpoint collect (items : dict) (content_parts : list str) (metadata : dict)
  : list str * dict :=
  match items with
  | [] => (content_parts, metadata)
  | (key, value) :: rest =>
      if mem key (title_fields self) then collect rest content_parts metadata
      else
        match value with
        | JStr s =>
            if len s >? 20
            then collect rest (content_parts ++ [labelled key s]) metadata
            else collect rest content_parts (set metadata key value)
        | JInt _ | JFloat _ | JBool _ =>
            collect rest content_parts (set metadata key value)
        | JList l =>
            match all_strings l with
            | Some ss =>
                collect rest
                  (content_parts ++ [labelled key (join (lit ", ") ss)])
                  metadata
            | None => collect rest content_parts metadata
            end
        | _ => collect rest content_parts metadata
        end
  end.

(** The [content] of [_parse_item]. *)
Definition item_content (item : dict) : str :=
  join [NL; NL] (fst (collect item [] [])).

(** [JSONParser._parse_item] *)
Definition _parse_item (item : dict) (source_file : str) : option DataEntry :=
  let title :=
    match find_title (title_fields self) item with
    | Some t => if is_empty t then lit "Untitled Entry" else t
    | None => lit "Untitled Entry"
    end in
  let '(content_parts, metadata) := collect item [] [] in
  let content := join [NL; NL] content_parts in
  if len content <? min_content_length self then None
  else Some {| title := title;
               content := content;
               metadata := metadata;
               source_file := source_file |}.

(** The entries [_parse_data] yields for a list: one for each [dict] of
    it that [_parse_item] keeps. *)
Definition parse_list (data : list json) (source_file : str) : list DataEntry :=
  flat_map (fun item =>
              match item with
              | JDict d =>
                  match _parse_item d source_file with
                  | Some entry => [entry]
                  | None => []
                  end
              | _ => []
              end) data.

(** [JSONParser._looks_like_entry] *)
Definition _looks_like_entry (item : dict) : bool :=
  let has_title := existsb (has_key item) (title_fields self) in
  let has_content := existsb (has_key item) (content_fields self) in
  let string_fields :=
    length (filter (fun kv => match snd kv with
                              | JStr s => len s >? 20
                              | _ => false
                              end) item) in
  has_title || has_content || (2 <=? string_fields)%nat.

(** [JSONParser._parse_data] *)
Fixpoint _parse_data (data : json) (source_file : str) : list DataEntry :=
  match data with
  | JList l => parse_list l source_file
  | JDict d =>
      if _looks_like_entry d then
        match _parse_item d source_file with
        | Some entry => [entry]
        | None => []
        end
      else
        (fix over_items (items : dict) : list DataEntry :=
           match items with
           | [] => []
           | (_, value) :: rest =>
               match value with
               | JList _ | JDict _ => _parse_data value source_file
               | _ => []
               end ++ over_items rest
           end) d
  | _ => []
  end.

(** [JSONParser.parse_file]; [data] is what [json.load] reads. *)
Definition parse_file (data : json) (name : str) : list DataEntry :=
  _parse_data data name.

End Parser.

End JSONParser.

(** ** [scripts/parsers/plant_parser.py] *)

Module PlantParser.

(** [SAFETY_LEVELS] *)
Definition SAFETY_LEVELS : list (Z * str) :=
  [ (5, lit "caution");
    (4, lit "caution");
    (3, lit "warning");
    (2, lit "danger");
    (1, lit "lethal");
    (0, lit "danger") ].

(** [SAFETY_LEVELS.get(rating, "danger")] *)
Fixpoint levels_get (levels : list (Z * str)) (rating : Z) (default : str)
  : str :=
  match levels with
  | [] => default
  | (k, v) :: rest => if k =? rating then v else levels_get rest rating default
  end.

(** [PLANT_SAFETY_WARNING]; its second line starts with the warning sign
    (U+26A0, U+FE0F). *)
Definition PLANT_SAFETY_WARNING : str :=
  [NL; 9888%N; 65039%N]
    ++ lit " SAFETY WARNING: Never consume any plant based solely on this information."
    ++ [NL]
    ++ lit "Always verify identification with multiple authoritative sources."
    ++ [NL]
    ++ lit "Many plants have toxic look-alikes. When in doubt, do NOT eat it."
    ++ [NL]
    ++ lit "Consult local experts and field guides specific to your region."
    ++ [NL].

Record PlantEntry : Type := {
  common_name : str;
  scientific_name : json;
  family : json;
  description : str;
  edibility : json;
  edibility_rating : option Z;
  medicinal_uses : json;
  habitat : json;
  safety_level : str;
  safety_notes : str;
  source_file : str;
  metadata : dict
}.

(** [PlantParser().min_content_length] *)
Definition min_content_length : Z := 100.

Definition DESCRIPTION_FIELDS : list str :=
  [lit "description"; lit "physical_characteristics"; lit "growth_habit";
   lit "leaves"; lit "flowers"; lit "fruit"].

Definition SKIP_FIELDS : list str :=
  [lit "common_name"; lit "scientific_name"; lit "family"; lit "description";
   lit "edibility"; lit "edibility_rating"; lit "medicinal_uses";
   lit "habitat"].

Section Parser.

Variable B : Builtins.

(** [[f"**Label**: {v}"]] when [v] is truthy, nothing otherwise. *)
Definition part_if (label : str) (v : json) : list str :=
  if truthy v then [lit "**" ++ label ++ lit "**: " ++ py_str B v] else [].

(** The loop over the description fields. *)
Definition field_parts (item : dict) : list str :=
  flat_map (fun field =>
              match lookup item field with
              | Some v =>
                  part_if (str_title B (replace_underscore field)) v
              | None => []
              end) DESCRIPTION_FIELDS.

(** The rating: [None] when the key is missing or [int()] raises what the
    handler catches; an exception it does not catch leaves the function. *)
Definition read_rating (item : dict) : result (option Z) :=
  match lookup item (lit "edibility_rating") with
  | None => Ok None
  | Some v =>
      match py_int B v with
      | IntOk z => Ok (Some z)
      | IntCaught => Ok None
      | IntUncaught e => Raise e
      end
  end.

(** The loop that collects the remaining metadata. *)
Fixpoint rest_metadata (items : dict) (metadata : dict) : dict :=
  match items with
  | [] => metadata
  | (key, value) :: rest =>
      if negb (mem (str_lower B key) SKIP_FIELDS) then
        match value with
        | JStr _ | JInt _ | JFloat _ | JBool _ =>
            rest_metadata rest (set metadata key value)
        | _ => rest_metadata rest metadata
        end
      else rest_metadata rest metadata
  end.

(** [PlantParser._parse_plant] *)
Definition _parse_plant (item : json) (source_file : str)
  : result (option PlantEntry) :=
  match item with
  | JDict item =>
      let common_name :=
        py_or (get item (lit "common_name"))
          (py_or (get item (lit "CommonName"))
             (py_or (get item (lit "name"))
                (py_or (get item (lit "vernacular_name"))
                   (JStr (lit "Unknown Plant"))))) in
      let scientific_name :=
        py_or (get item (lit "scientific_name"))
          (py_or (get item (lit "ScientificName"))
             (py_or (get item (lit "latin_name"))
                (get item (lit "binomial")))) in
      let family :=
        py_or (get item (lit "family"))
          (py_or (get item (lit "Family")) (get item (lit "plant_family"))) in
      let edibility :=
        py_or (get item (lit "edibility"))
          (py_or (get item (lit "edible_parts"))
             (get item (lit "uses_edible"))) in
      bind (read_rating item) (fun edibility_rating =>
      let medicinal_uses :=
        py_or (get item (lit "medicinal_uses"))
          (py_or (get item (lit "medicinal"))
             (get item (lit "uses_medicinal"))) in
      let habitat :=
        py_or (get item (lit "habitat"))
          (py_or (get item (lit "native_range"))
             (get item (lit "distribution"))) in
      let description_parts :=
        part_if (lit "Scientific Name") scientific_name
          ++ part_if (lit "Family") family
          ++ field_parts item
          ++ part_if (lit "Edibility") edibility
          ++ part_if (lit "Medicinal Uses") medicinal_uses
          ++ part_if (lit "Habitat") habitat in
      let safety_level :=
        match edibility_rating with
        | Some rating => levels_get SAFETY_LEVELS rating (lit "danger")
        | None => lit "danger"
        end in
      let description := join [NL; NL] description_parts in
      if len description <? min_content_length then Ok None
      else
        Ok (Some {| common_name := py_str B common_name;
                    scientific_name := scientific_name;
                    family := family;
                    description := description;
                    edibility := edibility;
                    edibility_rating := edibility_rating;
                    medicinal_uses := medicinal_uses;
                    habitat := habitat;
                    safety_level := safety_level;
                    safety_notes := PLANT_SAFETY_WARNING;
                    source_file := source_file;
                    metadata := rest_metadata item [] |}))
  | _ => Ok None
  end.

(** [_parse_plant] over the items of a list, as [list(...)] collects
    what [parse_file] yields: the entries, or the exception that ends the
    generator. *)
Fixpoint parse_items (items : list json) (name : str)
  : result (list PlantEntry) :=
  match items with
  | [] => Ok []
  | item :: rest =>
      bind (_parse_plant item name) (fun entry =>
      bind (parse_items rest name) (fun entries =>
        Ok (match entry with
            | Some e => e :: entries
            | None => entries
            end)))
  end.

(** The loop of [parse_file] over the items of a top-level object. *)
Fixpoint parse_nested (items : dict) (name : str) : result (list PlantEntry) :=
  match items with
  | [] => Ok []
  | (_, JList l) :: rest =>
      bind (parse_items l name) (fun es =>
      bind (parse_nested rest name) (fun es' => Ok (es ++ es')))
  | _ :: rest => parse_nested rest name
  end.

(** [list(PlantParser.parse_file(json_path))]; [data] is what
    [json.load] reads. *)
Definition parse_file (data : json) (name : str) : result (list PlantEntry) :=
  match data with
  | JList l => parse_items l name
  | JDict d => parse_nested d name
  | _ => Ok []
  end.

(** [PlantParser.to_content] *)
Definition to_content (e : PlantEntry) : str :=
  join [NL]
    [ lit "# " ++ common_name e;
      [];
      description e;
      [];
      lit "---";
      [];
      safety_notes e ].

End Parser.

End PlantParser.

(** ** The generated directory, as the manifest and verify scripts read it *)

Module Generated.

Definition bytes := list Byte.byte.

(** What [sqlite3] finds in a database file: the answer of
    [PRAGMA integrity_check], the table [entries] when there is one, and
    whether [sqlite_master] lists [entries_fts]. *)
Record Database : Type := {
  integrity_check : str;
  entries : option BuildIndex.Table;
  entries_fts : bool
}.

(** [sqlite3.connect] on a path with no file creates an empty database. *)
Definition empty_database : Database :=
  {| integrity_check := lit "ok"; entries := None; entries_fts := false |}.

Section Dir.

Variable embedding : Type.

(** [knowledge.db]: its bytes, and the database they hold ([None]: not a
    database, every statement raises).  [vectors.idx]: its bytes, and the
    items [load_index] reads ([None]: it raises).  [manifest.json]: the
    value [json.load] reads ([None]: it raises). *)
Record GeneratedDir : Type := {
  knowledge_db : option (bytes * option Database);
  vectors_idx : option (bytes * option (list (Z * embedding)));
  manifest_json : option (option json)
}.

(** The database a connection to [db_path] works on. *)
Definition connect (d : GeneratedDir) : result Database :=
  match knowledge_db d with
  | None => Ok empty_database
  | Some (_, Some db) => Ok db
  | Some (_, None) => Raise DatabaseError
  end.

(** [SELECT COUNT( * ) FROM entries] on [db_path] *)
Definition select_count (d : GeneratedDir) : result Z :=
  bind (connect d) (fun db =>
    match entries db with
    | Some rows => Ok (BuildIndex.count_entries rows)
    | None => Raise OperationalError
    end).

End Dir.

Arguments knowledge_db {embedding} g.
Arguments vectors_idx {embedding} g.
Arguments manifest_json {embedding} g.
Arguments connect {embedding} d.
Arguments select_count {embedding} d.

End Generated.

Import Generated.

(** ** [scripts/generate_manifest.py] *)

Module GenerateManifest.

Section Manifest.

Variable embedding : Type.

(** [hashlib.sha256(data).hexdigest()] *)
Variable sha256_hexdigest : bytes -> str.

(** The block size of [f.read(8192)]. *)
Definition READ_SIZE : nat := N.to_nat 8192.

(** The read loop of [calculate_file_hash]: [f.read(8192)] until it
    returns nothing, each block fed to the hash, whose state is the data
    it was fed so far.  [None] when [fuel] turns do not reach the end of
    the file. *)
Fixpoint read_loop (fuel : nat) (rest fed : bytes) : option bytes :=
  match fuel with
  | O => None
  | S fuel' =>
      match firstn READ_SIZE rest with
      | [] => Some fed
      | chunk => read_loop fuel' (skipn READ_SIZE rest) (fed ++ chunk)
      end
  end.

(** [calculate_file_hash(file_path)] *)
Definition calculate_file_hash (file : bytes) : option str :=
  match read_loop (S (length file)) file [] with
  | Some fed => Some (sha256_hexdigest fed)
  | None => None
  end.

(** [str] values in code point order, as SQLite sorts text. *)
Fixpoint str_leb (a b : str) : bool :=
  match a, b with
  | [], _ => true
  | _ :: _, [] => false
  | x :: a', y :: b' => (x <? y)%N || ((x =? y)%N && str_leb a' b')
  end.

(** One more row of category [cat] in the sorted counts. *)
Fixpoint count_in (cat : str) (counts : list (str * Z)) : list (str * Z) :=
  match counts with
  | [] => [(cat, 1)]
  | (c, n) :: rest =>
      if str_eqb c cat then (c, n + 1) :: rest
      else if str_leb cat c then (cat, 1) :: counts
      else (c, n) :: count_in cat rest
  end.

(** [SELECT category, COUNT( * ) FROM entries GROUP BY category ORDER BY
    category], as a dict. *)
Definition category_counts (rows : BuildIndex.Table) : list (str * Z) :=
  fold_left (fun counts r =>
               count_in (BuildIndex.category (BuildIndex.entry r)) counts)
            rows [].

(** [get_category_counts(db_path)] *)
Definition get_category_counts (d : GeneratedDir embedding)
  : result (list (str * Z)) :=
  bind (connect d) (fun db =>
    match entries db with
    | Some rows => Ok (category_counts rows)
    | None => Raise OperationalError
    end).

(** [get_total_entries(db_path)] *)
Definition get_total_entries (d : GeneratedDir embedding) : result Z :=
  select_count d.

(** The value of one item of [manifest["files"]]. *)
Definition file_entry (file : bytes) : result json :=
  match calculate_file_hash file with
  | Some h =>
      Ok (JDict [ (lit "size_bytes", JInt (Z.of_nat (length file)));
                  (lit "sha256", JStr h) ])
  | None => Raise RuntimeError
  end.

(** [generate_manifest(output_path, version, source_hash, model,
    generated_dir)] as [main] calls it, with the manifest written into
    the generated directory; [now] is the clock's time stamp.  It returns
    the directory afterwards and the manifest. *)
Definition generate_manifest (version source_hash model now : str)
           (d : GeneratedDir embedding)
  : GeneratedDir embedding * result json :=
  match knowledge_db d, vectors_idx d with
  | None, _ => (d, Raise (SystemExit 1))
  | Some _, None => (d, Raise (SystemExit 1))
  | Some (db_file, _), Some (vectors_file, _) =>
      let manifest :=
        bind (get_total_entries d) (fun total =>
        bind (get_category_counts d) (fun counts =>
        bind (file_entry db_file) (fun db_entry =>
        bind (file_entry vectors_file) (fun vectors_entry =>
        Ok (JDict
              [ (lit "version", JStr version);
                (lit "build_timestamp", JStr now);
                (lit "source_hash", JStr source_hash);
                (lit "embedding_model", JStr model);
                (lit "embedding_dimensions", JInt 384);
                (lit "total_entries", JInt total);
                (lit "categories",
                  JDict (map (fun c => (fst c, JInt (snd c))) counts));
                (lit "files",
                  JDict [ (lit "knowledge.db", db_entry);
                          (lit "vectors.idx", vectors_entry) ]);
                (lit "schema_version", JStr (lit "1.0"));
                (lit "hnswlib_space", JStr (lit "cosine")) ]))))) in
      match manifest with
      | Ok m =>
          ({| knowledge_db := knowledge_db d;
              vectors_idx := vectors_idx d;
              manifest_json := Some (Some m) |}, Ok m)
      | Raise e => (d, Raise e)
      end
  end.

End Manifest.

End GenerateManifest.

(** ** [scripts/verify_index.py] *)

Module VerifyIndex.

(** [TEST_QUERIES] *)
Definition TEST_QUERIES : list (str * str) :=
  [ (lit "how to start a fire without matches", lit "survival");
    (lit "reading a topographic map", lit "navigation");
    (lit "treating a bleeding wound", lit "first_aid");
    (lit "tying a bowline knot", lit "knots");
    (lit "identifying cloud types", lit "weather") ].

(** The messages of the checks, by their templates. *)
Inductive message : Type :=
| IntegrityCheckFailed (answer : str)
| TableNotFound
| FtsTableNotFound
| NoEntries
| DatabaseOK (count : Z)
| DatabaseErrorLine
| VectorIndexEmpty
| VectorIndexOK (count : Z)
| VectorIndexError
| ManifestNotFound
| MissingField (field : str)
| EntryCountMismatch (declared : json) (actual : Z)
| ManifestOK (version : json)
| ManifestError.

(** The lines of [verify_search]: a pass, a warning, the two failures,
    and the line an exception leaves. *)
Inductive search_line : Type :=
| Passed (query actual : str)
| Warned (query actual expected : str)
| NoResults (query : str)
| EntryNotFound (query : str) (label : Z)
| SearchError.

(** [v != n] for a loaded JSON value and an [int]. *)
Definition differs_from_int (v : json) (n : Z) : bool :=
  negb
    match v with
    | JInt z => z =? n
    | JBool b => (if b then 1 else 0) =? n
    | JFloat (FNum m e) =>
        if 0 <=? e then m * 2 ^ e =? n else m =? n * 2 ^ (- e)
    | _ => false
    end.

Section Verify.

Variable embedding : Type.

(** [SentenceTransformer(model_name)] with its [encode] ([None]: loading
    raises), and the labels of [index.knn_query([embedding], k=1)]. *)
Variable model : option (str -> embedding).
Variable knn_query :
  list (Z * embedding) -> embedding -> result (list (list Z)).

(** [verify_database(db_path)] *)
Definition verify_database (d : GeneratedDir embedding) : bool * message :=
  match connect d with
  | Raise _ => (false, DatabaseErrorLine)
  | Ok db =>
      if negb (str_eqb (integrity_check db) (lit "ok"))
      then (false, IntegrityCheckFailed (integrity_check db))
      else
        match entries db with
        | None => (false, TableNotFound)
        | Some rows =>
            if negb (entries_fts db) then (false, FtsTableNotFound)
            else
              let count := BuildIndex.count_entries rows in
              if count =? 0 then (false, NoEntries)
              else (true, DatabaseOK count)
        end
  end.

(** [verify_vector_index(vectors_path)] *)
Definition verify_vector_index (d : GeneratedDir embedding) : bool * message :=
  match vectors_idx d with
  | Some (_, Some its) =>
      let count := Z.of_nat (length its) in
      if count =? 0 then (false, VectorIndexEmpty)
      else (true, VectorIndexOK count)
  | _ => (false, VectorIndexError)
  end.

(** [field in manifest] for the values [in] accepts. *)
Definition field_in (field : str) (manifest : json) : result bool :=
  match manifest with
  | JDict m => Ok (has_key m field)
  | JList l =>
      Ok (existsb (fun v => match v with
                            | JStr s => str_eqb s field
                            | _ => false
                            end) l)
  | JStr s => Ok (contains field s)
  | _ => Raise TypeError
  end.

(** The loop over the required fields: the first one missing, if any. *)
Fixpoint first_missing (required : list str) (manifest : json)
  : result (option str) :=
  match required with
  | [] => Ok None
  | field :: rest =>
      bind (field_in field manifest) (fun present =>
        if present then first_missing rest manifest else Ok (Some field))
  end.

(** [verify_manifest(manifest_path, db_path)] *)
Definition verify_manifest (d : GeneratedDir embedding) : bool * message :=
  match manifest_json d with
  | None => (false, ManifestNotFound)
  | Some None => (false, ManifestError)
  | Some (Some manifest) =>
      match first_missing
              [lit "version"; lit "total_entries"; lit "categories";
               lit "files"] manifest with
      | Raise _ => (false, ManifestError)
      | Ok (Some field) => (false, MissingField field)
      | Ok None =>
          match select_count d, manifest with
          | Ok actual_count, JDict m =>
              let declared := get m (lit "total_entries") in
              if differs_from_int declared actual_count
              then (false, EntryCountMismatch declared actual_count)
              else (true, ManifestOK (get m (lit "version")))
          | _, _ => (false, ManifestError)
          end
      end
  end.

(** [SELECT category FROM entries WHERE rowid = ?] *)
Definition select_category (rows : BuildIndex.Table) (label : Z)
  : option str :=
  match find (fun r => BuildIndex.rowid r =? label) rows with
  | Some r => Some (BuildIndex.category (BuildIndex.entry r))
  | None => None
  end.

(** The loop over the test queries: [all_passed] and [results] when it
    ends, or the exception that leaves it. *)
Fixpoint search_loop (encode : str -> embedding) (db : result Database)
         (its : list (Z * embedding)) (queries : list (str * str))
         (all_passed : bool) (results : list search_line)
  : result (bool * list search_line) :=
  match queries with
  | [] => Ok (all_passed, results)
  | (query, expected_category) :: rest =>
      bind (knn_query its (encode query)) (fun labels =>
        match labels with
        | (label :: _) :: _ =>
            bind db (fun db =>
              match entries db with
              | None => Raise OperationalError
              | Some rows =>
                  match select_category rows label with
                  | None =>
                      search_loop encode (Ok db) its rest false
                        (results ++ [EntryNotFound query label])
                  | Some actual =>
                      if str_eqb actual expected_category
                      then search_loop encode (Ok db) its rest all_passed
                             (results ++ [Passed query actual])
                      else search_loop encode (Ok db) its rest all_passed
                             (results
                                ++ [Warned query actual expected_category])
                  end
              end)
        | _ =>
            search_loop encode db its rest false
              (results ++ [NoResults query])
        end)
  end.

(** [verify_search(db_path, vectors_path)] *)
Definition verify_search (d : GeneratedDir embedding) : bool * list search_line :=
  match vectors_idx d, model with
  | Some (_, Some its), Some encode =>
      match search_loop encode (connect d) its TEST_QUERIES true [] with
      | Ok r => r
      | Raise _ => (false, [SearchError])
      end
  | _, _ => (false, [SearchError])
  end.

(** [verify_index(generated_dir)] *)
Definition verify_index (d : GeneratedDir embedding) : bool :=
  let all_passed := true in
  let all_passed := all_passed && fst (verify_database d) in
  let all_passed := all_passed && fst (verify_vector_index d) in
  let all_passed := all_passed && fst (verify_manifest d) in
  let all_passed := all_passed && fst (verify_search d) in
  all_passed.


End Verify.

End VerifyIndex.

(** ** Predicates of the statements *)

Module Shape.

(** Every [p]-character of the string is a space and no two of them are
    adjacent: the strings [sub_plus p] leaves as they are. *)
Fixpoint collapsed (p : char -> bool) (s : str) : bool :=
  match s with
  | [] => true
  | c :: r =>
      (if p c then (c =? SP)%N && negb (head_is p r) else true)
      && collapsed p r
  end.

(** No three newlines in a row. *)
Fixpoint nl3_free (s : str) : bool :=
  match s with
  | [] => true
  | c :: r => negb (is_nl c && starts_nl2 r) && nl3_free r
  end.

(** No character of class [q]. *)
Definition free_of (q : char -> bool) (s : str) : bool :=
  forallb (fun c => negb (q c)) s.

(** No two [p]-characters are adjacent. *)
Fixpoint no_adjacent (p : char -> bool) (s : str) : bool :=
  match s with
  | [] => true
  | c :: r => negb (p c && head_is p r) && no_adjacent p r
  end.

Definition is_tab (c : char) : bool := (c =? 9)%N.

(** No whitespace at either end. *)
Definition trimmed (s : str) : Prop :=
  head_is isspace s = false /\ head_is isspace (rev s) = false.



(** [start], [start + 1], ..., [n] numbers in all. *)
Fixpoint count_from (start : Z) (n : nat) : list Z :=
  match n with
  | O => []
  | S n' => start :: count_from (start + 1) n'
  end.

(** The rows carry the identifiers 1, 2, ... in insertion order. *)
Definition numbered (conn : BuildIndex.Table) : Prop :=
  map BuildIndex.rowid conn = count_from 1 (length conn).

Definition swap {A B : Type} (p : A * B) : B * A := (snd p, fst p).

(** The manifest [generate_manifest] writes for a directory with both
    artifacts and a readable table of entries. *)
Definition manifest_of (sha256_hexdigest : bytes -> str)
           (version source_hash model now : str)
           (rows : BuildIndex.Table) (db_file vectors_file : bytes) : dict :=
  [ (lit "version", JStr version);
    (lit "build_timestamp", JStr now);
    (lit "source_hash", JStr source_hash);
    (lit "embedding_model", JStr model);
    (lit "embedding_dimensions", JInt 384);
    (lit "total_entries", JInt (BuildIndex.count_entries rows));
    (lit "categories",
      JDict (map (fun c => (fst c, JInt (snd c)))
               (GenerateManifest.category_counts rows)));
    (lit "files",
      JDict [ (lit "knowledge.db",
                JDict [ (lit "size_bytes", JInt (Z.of_nat (length db_file)));
                        (lit "sha256", JStr (sha256_hexdigest db_file)) ]);
              (lit "vectors.idx",
                JDict [ (lit "size_bytes",
                          JInt (Z.of_nat (length vectors_file)));
                        (lit "sha256",
                          JStr (sha256_hexdigest vectors_file)) ]) ]);
    (lit "schema_version", JStr (lit "1.0"));
    (lit "hnswlib_space", JStr (lit "cosine")) ].

(** The alignment as section 8 of the specification words it: as many
    items as rows, and for every [L] in [0, N) the index has an item
    under the label [L] and the table a row whose identifier is [L]. *)
Definition spec_alignment {E : Type} (table : BuildIndex.Table)
           (ix : BuildIndex.Index E) : Prop :=
  BuildIndex.element_count E ix = Z.of_nat (length table)
  /\ forall L, (L < length table)%nat ->
       exists r v, BuildIndex.get_item E ix (Z.of_nat L) = Some v
                   /\ In r table /\ BuildIndex.rowid r = Z.of_nat L.

(** The plant table in the specification's words: 5 and 4 are caution,
    3 warning, 2 danger, 1 lethal, 0 or a missing rating danger. *)
Definition spec_plant_level (rating : option Z) : str :=
  match rating with
  | Some r =>
      if r =? 5 then lit "caution"
      else if r =? 4 then lit "caution"
      else if r =? 3 then lit "warning"
      else if r =? 2 then lit "danger"
      else if r =? 1 then lit "lethal"
      else lit "danger"
  | None => lit "danger"
  end.

(** A record whose only string field is under the minimum content
    length, as the boundary case of section 8 words it. *)
Definition spec_only_string_field_short (min : Z) (item : dict) : Prop :=
  exists key s, item = [(key, JStr s)] /\ len s < min.

(** No field of the record makes a content block for [JSONParser]: apart
    from the title fields, every string has at most 20 characters and no
    list holds strings only. *)
Definition no_content_block (title_fields : list str) (item : dict) : bool :=
  forallb (fun kv =>
             mem (fst kv) title_fields
             || match snd kv with
                | JStr s => negb (len s >? 20)
                | JList l =>
                    match JSONParser.all_strings l with
                    | Some _ => false
                    | None => true
                    end
                | _ => true
                end) item.

(** One test query against an index and a table: does the search answer
    (rather than raise), does its first label name a row, and the line
    [verify_search] reports for it. *)
Section Queries.

Variable E : Type.
Variable knn_query : list (Z * E) -> E -> result (list (list Z)).
Variable encode : str -> E.
Variable its : list (Z * E).
Variable rows : BuildIndex.Table.

Definition answers (q : str * str) : bool :=
  match knn_query its (encode (fst q)) with
  | Ok _ => true
  | Raise _ => false
  end.

Definition resolves (q : str * str) : bool :=
  match knn_query its (encode (fst q)) with
  | Ok ((label :: _) :: _) =>
      match VerifyIndex.select_category rows label with
      | Some _ => true
      | None => false
      end
  | _ => false
  end.

Definition line_of (q : str * str) : VerifyIndex.search_line :=
  match knn_query its (encode (fst q)) with
  | Ok ((label :: _) :: _) =>
      match VerifyIndex.select_category rows label with
      | Some actual =>
          if str_eqb actual (snd q)
          then VerifyIndex.Passed (fst q) actual
          else VerifyIndex.Warned (fst q) actual (snd q)
      | None => VerifyIndex.EntryNotFound (fst q) label
      end
  | _ => VerifyIndex.NoResults (fst q)
  end.

End Queries.

Arguments answers {E} knn_query encode its q.
Arguments resolves {E} knn_query encode its rows q.
Arguments line_of {E} knn_query encode its rows q.

(** The item of [manifest["files"]] for one artifact as section 6 of the
    specification names its fields: [size_bytes] and [content_hash]. *)
Definition spec_files_entry (manifest : dict) (name : str) (size : Z)
           (digest : str) : Prop :=
  exists files e,
    lookup manifest (lit "files") = Some (JDict files)
    /\ lookup files name = Some (JDict e)
    /\ lookup e (lit "size_bytes") = Some (JInt size)
    /\ lookup e (lit "content_hash") = Some (JStr digest).


(** [isinstance(v, (str, int, float, bool))] for a loaded JSON value. *)
Definition is_scalar (v : json) : bool :=
  match v with
  | JStr _ | JInt _ | JFloat _ | JBool _ => true
  | _ => false
  end.

(** A number, a truth value, or a string of at most 20 characters. *)
Definition is_short_scalar (v : json) : bool :=
  match v with
  | JStr s => len s <=? 20
  | JInt _ | JFloat _ | JBool _ => true
  | _ => false
  end.

(** The levels [PlantParser] can give. *)
Definition PLANT_LEVELS : list str :=
  [lit "caution"; lit "warning"; lit "danger"; lit "lethal"].

(** The rating of a record is an infinite float. *)
Definition infinite_rating (item : json) : bool :=
  match item with
  | JDict d =>
      match lookup d (lit "edibility_rating") with
      | Some (JFloat (FInf _)) => true
      | _ => false
      end
  | _ => false
  end.

(** A line of [verify_search] that reports a failure. *)
Definition is_failure (line : VerifyIndex.search_line) : bool :=
  match line with
  | VerifyIndex.Passed _ _ | VerifyIndex.Warned _ _ _ => false
  | _ => true
  end.

(** The number of rows of a category, and the sum of a list of counts. *)
Definition rows_of_category (cat : str) (rows : BuildIndex.Table) : Z :=
  Z.of_nat
    (length
       (filter (fun r => str_eqb (BuildIndex.category (BuildIndex.entry r)) cat)
          rows)).

Definition sum_counts (counts : list (str * Z)) : Z :=
  fold_right Z.add 0 (map snd counts).

(** Strictly ascending code point order. *)
Definition str_ltb (a b : str) : bool :=
  GenerateManifest.str_leb a b && negb (str_eqb a b).

(** The records of a plant file in the order [parse_file] reads them: the
    items of a top-level list, or of every list that is a value of a
    top-level object. *)
Definition plant_records (data : json) : list json :=
  match data with
  | JList l => l
  | JDict d =>
      flat_map (fun kv => match snd kv with
                          | JList l => l
                          | _ => []
                          end) d
  | _ => []
  end.

(** [counts.get(cat, 0)] *)
Definition count_of (counts : list (str * Z)) (cat : str) : Z :=
  match lookup counts cat with
  | Some n => n
  | None => 0
  end.

(** The keys are in strictly ascending order. *)
Definition ascending (counts : list (str * Z)) : Prop :=
  StronglySorted (fun a b => str_ltb a b = true) (map fst counts).

(** The levels the build can give. *)
Definition BUILD_LEVELS : list str :=
  [lit "safe"; lit "caution"; lit "warning"; lit "danger"].

End Shape.

(** ** Sample inputs of the examples *)

Module Samples.

(** A paragraph of 700 letters, a blank line, a paragraph of 100. *)
Definition long_paragraph_text : str :=
  repeat 97%N 700 ++ [NL; NL] ++ repeat 98%N 100.

(** Two paragraphs of 300 letters each. *)
Definition two_paragraphs_text : str :=
  repeat 97%N 300 ++ [NL; NL] ++ repeat 98%N 300.

(** An entry of the category [survival] and a source tree with one file
    that yields it. *)
Definition fire_entry : BuildIndex.Entry :=
  {| BuildIndex.id := lit "0a1b2c3d";
     BuildIndex.title := lit "Fire Starting";
     BuildIndex.content := lit "Learn how to start a fire using flint and steel";
     BuildIndex.category := lit "survival";
     BuildIndex.subcategory := None;
     BuildIndex.safety_level := lit "caution";
     BuildIndex.safety_notes := None;
     BuildIndex.source_file := Some (lit "fire.json");
     BuildIndex.source_page := None;
     BuildIndex.source_url := None;
     BuildIndex.license := Some (lit "public_domain");
     BuildIndex.tags := [lit "survival"];
     BuildIndex.created_at := lit "2024-01-01T00:00:00+00:00" |}.

Definition map_entry : BuildIndex.Entry :=
  {| BuildIndex.id := lit "4e5f6a7b";
     BuildIndex.title := lit "Map Reading";
     BuildIndex.content := lit "How to read topographic maps for navigation";
     BuildIndex.category := lit "navigation";
     BuildIndex.subcategory := None;
     BuildIndex.safety_level := lit "safe";
     BuildIndex.safety_notes := None;
     BuildIndex.source_file := Some (lit "maps.json");
     BuildIndex.source_page := None;
     BuildIndex.source_url := None;
     BuildIndex.license := Some (lit "public_domain");
     BuildIndex.tags := [lit "navigation"];
     BuildIndex.created_at := lit "2024-01-01T00:00:01+00:00" |}.

Definition one_entry_sources : BuildIndex.Sources :=
  [(lit "survival", [[fire_entry]])].

Definition two_entry_sources : BuildIndex.Sources :=
  [(lit "navigation", [[map_entry]]); (lit "survival", [[fire_entry]])].

(** A category directory with one file that yields nothing. *)
Definition empty_sources : BuildIndex.Sources :=
  [(lit "survival", [[]])].

(** A stand-in for the embedding model: one number for each text, as a
    vector of the index's dimension. *)
Definition toy_embed (text : str) : Z := len text.
Definition toy_encode (texts : list str) : list Z := map toy_embed texts.
Definition toy_dim (v : Z) : Z := BuildIndex.EMBEDDING_DIM.

(** The record of [test_toxic_plant_is_lethal]. *)
Definition nightshade : dict :=
  [ (lit "common_name", JStr (lit "Deadly Nightshade"));
    (lit "scientific_name", JStr (lit "Atropa belladonna"));
    (lit "description",
      JStr (lit "An extremely toxic plant. All parts are poisonous."));
    (lit "edibility_rating", JInt 1) ].

(** The record of [test_skip_short_content]. *)
Definition too_short : dict :=
  [ (lit "name", JStr (lit "Short"));
    (lit "description", JStr (lit "Too short.")) ].

(** A record with a title and a note of 18 characters. *)
Definition brief_note : dict :=
  [ (lit "name", JStr (lit "Short"));
    (lit "description", JStr (lit "Too short, really.")) ].

(** A record whose only field is a string of 45 characters. *)
Definition short_description : dict :=
  [ (lit "description",
      JStr (lit "Boil water for one minute before drinking it.")) ].

(** An output directory with no file in it. *)
Definition no_files : BuildIndex.OutputDir Z :=
  {| BuildIndex.knowledge_db := None; BuildIndex.vectors_idx := None |}.

(** A generated directory: a database with the two sample rows, an index
    over them, no manifest yet. *)
Definition sample_database : Database :=
  {| integrity_check := lit "ok";
     entries := Some [ {| BuildIndex.rowid := 1; BuildIndex.entry := map_entry |};
                       {| BuildIndex.rowid := 2; BuildIndex.entry := fire_entry |} ];
     entries_fts := true |}.

Definition sample_db_bytes : bytes :=
  [Byte.x53; Byte.x51; Byte.x4c; Byte.x69; Byte.x74; Byte.x65].

Definition sample_index_bytes : bytes :=
  [Byte.x02; Byte.x00; Byte.x00; Byte.x00].

Definition sample_dir : GeneratedDir Z :=
  {| knowledge_db := Some (sample_db_bytes, Some sample_database);
     vectors_idx := Some (sample_index_bytes, Some [(1, 43); (2, 47)]);
     manifest_json := None |}.

(** The same directory with a manifest whose entry count is right and
    whose hash of [knowledge.db] is not a SHA-256 digest at all. *)
Definition tampered_manifest : dict :=
  [ (lit "version", JStr (lit "1.0.0"));
    (lit "total_entries", JInt 2);
    (lit "categories",
      JDict [(lit "navigation", JInt 1); (lit "survival", JInt 1)]);
    (lit "files",
      JDict [ (lit "knowledge.db",
                JDict [ (lit "size_bytes", JInt 6);
                        (lit "sha256", JStr (lit "tampered")) ]);
              (lit "vectors.idx",
                JDict [ (lit "size_bytes", JInt 4);
                        (lit "sha256", JStr (lit "tampered")) ]) ]) ].

Definition tampered_dir : GeneratedDir Z :=
  {| knowledge_db := Some (sample_db_bytes, Some sample_database);
     vectors_idx := Some (sample_index_bytes, Some [(1, 43); (2, 47)]);
     manifest_json := Some (Some (JDict tampered_manifest)) |}.

(** A stand-in for SHA-256 in the examples, which never compare two
    digests: the length of the data, in decimal. *)
Definition toy_digest (data : bytes) : str :=
  str_of_int (Z.of_nat (length data)).

(** A stand-in for the nearest-neighbour search: the label of the first
    item of the index. *)
Definition toy_knn (its : list (Z * Z)) (v : Z) : result (list (list Z)) :=
  match its with
  | (label, _) :: _ => Ok [[label]]
  | [] => Raise RuntimeError
  end.

(** A plant record whose rating is the JSON number [Infinity]. *)
Definition infinite_plant : dict :=
  [ (lit "common_name", JStr (lit "Yarrow"));
    (lit "edibility_rating", JFloat (FInf false)) ].

(** A record with a long description and two short fields. *)
Definition knot_record : dict :=
  [ (lit "name", JStr (lit "Bowline"));
    (lit "description",
      JStr (lit "A knot that forms a fixed loop at the end of a rope and does not slip."));
    (lit "difficulty", JStr (lit "easy"));
    (lit "strands", JInt 1) ].

(** A plant record with a rating given as [true], a field in another
    case, a number and a list. *)
Definition foxglove : dict :=
  [ (lit "common_name", JStr (lit "Foxglove"));
    (lit "scientific_name", JStr (lit "Digitalis purpurea"));
    (lit "Family", JStr (lit "Plantaginaceae"));
    (lit "description",
      JStr (lit "A tall biennial with purple bell-shaped flowers. All parts are poisonous."));
    (lit "edibility_rating", JBool true);
    (lit "height_cm", JInt 120);
    (lit "regions", JList [JStr (lit "Europe")]) ].

(** Two files of a category that yield an entry with the same [id]. *)
Definition duplicate_sources : BuildIndex.Sources :=
  [(lit "survival", [[fire_entry]; [fire_entry]])].

(** A first paragraph of 500 letters, longer than [S - O - 1] and shorter
    than [S] at the default sizes, and one of 100. *)
Definition long_then_short_text : str :=
  repeat 97%N 500 ++ [NL; NL] ++ repeat 98%N 100.

(** An entry whose title holds the lone surrogate U+D800. *)
Definition surrogate_entry : BuildIndex.Entry :=
  {| BuildIndex.id := lit "9c8d7e6f";
     BuildIndex.title := [55296%N];
     BuildIndex.content := lit "Learn how to purify water";
     BuildIndex.category := lit "survival";
     BuildIndex.subcategory := None;
     BuildIndex.safety_level := lit "caution";
     BuildIndex.safety_notes := None;
     BuildIndex.source_file := Some (lit "water.json");
     BuildIndex.source_page := None;
     BuildIndex.source_url := None;
     BuildIndex.license := Some (lit "public_domain");
     BuildIndex.tags := [lit "survival"];
     BuildIndex.created_at := lit "2024-01-01T00:00:00+00:00" |}.

End Samples.

(* ================================================================== *)
(** * Part II: properties *)
(* ================================================================== *)

Import Shape.

(** ** Character classes *)

Lemma isspace_SP : isspace SP = true.
Proof. reflexivity. Qed.

Lemma isblank_SP : isblank SP = true.
Proof. reflexivity. Qed.

Lemma is_nl_eq (c : char) : is_nl c = true -> c = NL.
Proof. unfold is_nl. intros H. apply N.eqb_eq in H. exact H. Qed.

Lemma is_cr_eq (c : char) : is_cr c = true -> c = CR.
Proof. unfold is_cr. intros H. apply N.eqb_eq in H. exact H. Qed.

Lemma nl_not_blank (c : char) : is_nl c = true -> isblank c = false.
Proof. intros H. apply is_nl_eq in H. subst c. reflexivity. Qed.

Lemma cr_not_blank (c : char) : is_cr c = true -> isblank c = false.
Proof. intros H. apply is_cr_eq in H. subst c. reflexivity. Qed.

Lemma nl_is_space (c : char) : is_nl c = true -> isspace c = true.
Proof. intros H. apply is_nl_eq in H. subst c. reflexivity. Qed.

(** Induction over a list two elements at a time, for the patterns that
    look one character ahead. *)
Lemma list_ind2 (A : Type) (P : list A -> Prop) :
  P [] ->
  (forall a, P [a]) ->
  (forall a b l, P l -> P (b :: l) -> P (a :: b :: l)) ->
  forall l, P l.
Proof.
  intros H0 H1 H2 l.
  assert (H : P l /\ forall a, P (a :: l)).
  { induction l as [|b l [IHl IHc]].
    - split; [exact H0 | exact H1].
    - split; [apply IHc | intros a; apply H2; [exact IHl | apply IHc]]. }
  exact (proj1 H).
Qed.

(** ** [sub_plus]: collapsing the runs of a character class *)

Section SubPlus.

Variable p : char -> bool.
Hypothesis p_SP : p SP = true.

Lemma head_is_sub_plus (s : str) : head_is p (sub_plus p s) = head_is p s.
Proof using p_SP.
  induction s as [|c r IH]; simpl; [reflexivity|].
  destruct (p c) eqn:Hc.
  - destruct (head_is p r) eqn:Hr.
    + exact IH.
    + simpl. exact p_SP.
  - simpl. exact Hc.
Qed.

Lemma sub_plus_collapsed (s : str) : collapsed p (sub_plus p s) = true.
Proof using p_SP.
  induction s as [|c r IH]; simpl; [reflexivity|].
  destruct (p c) eqn:Hc.
  - destruct (head_is p r) eqn:Hr; [exact IH|].
    simpl. rewrite p_SP, head_is_sub_plus, Hr, IH. reflexivity.
  - simpl. rewrite Hc, IH. reflexivity.
Qed.

Lemma collapsed_sub_plus (s : str) : collapsed p s = true -> sub_plus p s = s.
Proof.
  induction s as [|c r IH]; simpl; [reflexivity|].
  intros H. apply andb_true_iff in H. destruct H as [Hl Hr].
  rewrite (IH Hr).
  destruct (p c); [|reflexivity].
  apply andb_true_iff in Hl. destruct Hl as [Hc Hh].
  apply N.eqb_eq in Hc. apply negb_true_iff in Hh.
  rewrite Hh, Hc. reflexivity.
Qed.

Lemma collapsed_prefix (a b : str) :
  collapsed p (a ++ b) = true -> collapsed p a = true.
Proof.
  induction a as [|c a IH]; simpl; [reflexivity|].
  intros H. apply andb_true_iff in H. destruct H as [Hl Hr].
  rewrite (IH Hr), andb_true_r.
  destruct (p c); [|reflexivity].
  apply andb_true_iff in Hl. destruct Hl as [Hc Hh].
  rewrite Hc. simpl.
  destruct a as [|d a]; [reflexivity|exact Hh].
Qed.

Lemma collapsed_suffix (a b : str) :
  collapsed p (a ++ b) = true -> collapsed p b = true.
Proof.
  induction a as [|c a IH]; simpl; [tauto|].
  intros H. apply andb_true_iff in H. apply IH, H.
Qed.

End SubPlus.

(** ** [sub_nl3]: at most two newlines in a row *)

Lemma starts_nl2_head (s : str) : starts_nl2 s = true -> head_is is_nl s = true.
Proof.
  destruct s as [|a [|b s]]; simpl; try discriminate.
  intros H. apply andb_true_iff in H. apply H.
Qed.

Lemma starts_nl2_cons (a : char) (s : str) :
  starts_nl2 (a :: s) = is_nl a && head_is is_nl s.
Proof. destruct s; simpl; [rewrite andb_false_r|]; reflexivity. Qed.

Lemma head_nl_sub_nl3 (s : str) :
  head_is is_nl (sub_nl3 s) = head_is is_nl s.
Proof.
  induction s as [|c r IH]; simpl; [reflexivity|].
  destruct (is_nl c && starts_nl2 r) eqn:H; [|reflexivity].
  apply andb_true_iff in H. destruct H as [Hc Hr].
  rewrite IH, Hc. apply starts_nl2_head, Hr.
Qed.

Lemma starts_nl2_sub_nl3 (s : str) : starts_nl2 (sub_nl3 s) = starts_nl2 s.
Proof.
  induction s as [|c r IH]; simpl sub_nl3; [reflexivity|].
  destruct (is_nl c && starts_nl2 r) eqn:H.
  - apply andb_true_iff in H. destruct H as [Hc Hr].
    rewrite IH, Hr, starts_nl2_cons, Hc. symmetry.
    apply starts_nl2_head, Hr.
  - rewrite !starts_nl2_cons, head_nl_sub_nl3. reflexivity.
Qed.

Lemma sub_nl3_free (s : str) : nl3_free (sub_nl3 s) = true.
Proof.
  induction s as [|c r IH]; simpl; [reflexivity|].
  destruct (is_nl c && starts_nl2 r) eqn:H; [exact IH|].
  simpl. rewrite starts_nl2_sub_nl3, H, IH. reflexivity.
Qed.

Lemma nl3_free_sub_nl3 (s : str) : nl3_free s = true -> sub_nl3 s = s.
Proof.
  induction s as [|c r IH]; simpl; [reflexivity|].
  intros H. apply andb_true_iff in H. destruct H as [Hl Hr].
  apply negb_true_iff in Hl. rewrite Hl, (IH Hr). reflexivity.
Qed.

Lemma free_of_nl_nl3_free (s : str) :
  free_of is_nl s = true -> nl3_free s = true.
Proof.
  induction s as [|c r IH]; simpl; [reflexivity|].
  intros H. apply andb_true_iff in H. destruct H as [Hc Hr].
  apply negb_true_iff in Hc. rewrite Hc, (IH Hr). reflexivity.
Qed.

Lemma starts_nl2_app (a b : str) :
  starts_nl2 a = true -> starts_nl2 (a ++ b) = true.
Proof. destruct a as [|x [|y a]]; simpl; try discriminate. tauto. Qed.

Lemma nl3_free_prefix (a b : str) :
  nl3_free (a ++ b) = true -> nl3_free a = true.
Proof.
  induction a as [|c a IH]; simpl; [reflexivity|].
  intros H. apply andb_true_iff in H. destruct H as [Hl Hr].
  rewrite (IH Hr), andb_true_r.
  apply negb_true_iff in Hl. apply negb_true_iff.
  destruct (is_nl c); [|reflexivity]. simpl in *.
  destruct (starts_nl2 a) eqn:Ha; [|reflexivity].
  rewrite (starts_nl2_app a b Ha) in Hl. discriminate.
Qed.

Lemma nl3_free_suffix (a b : str) :
  nl3_free (a ++ b) = true -> nl3_free b = true.
Proof.
  induction a as [|c a IH]; simpl; [tauto|].
  intros H. apply andb_true_iff in H. apply IH, H.
Qed.

Lemma free_of_prefix (q : char -> bool) (a b : str) :
  free_of q (a ++ b) = true -> free_of q a = true.
Proof.
  unfold free_of. rewrite forallb_app. intros H.
  apply andb_true_iff in H. apply H.
Qed.

Lemma free_of_suffix (q : char -> bool) (a b : str) :
  free_of q (a ++ b) = true -> free_of q b = true.
Proof.
  unfold free_of. rewrite forallb_app. intros H.
  apply andb_true_iff in H. apply H.
Qed.

Lemma head_blank_sub_nl3 (s : str) :
  head_is isblank (sub_nl3 s) = head_is isblank s.
Proof.
  induction s as [|c r IH]; simpl; [reflexivity|].
  destruct (is_nl c && starts_nl2 r) eqn:H; [|reflexivity].
  apply andb_true_iff in H. destruct H as [Hc Hr].
  rewrite IH, (nl_not_blank c Hc).
  apply starts_nl2_head in Hr.
  destruct r as [|d r]; [reflexivity|]. simpl in *.
  apply nl_not_blank, Hr.
Qed.

Lemma sub_nl3_keeps_collapsed (s : str) :
  collapsed isblank s = true -> collapsed isblank (sub_nl3 s) = true.
Proof.
  induction s as [|c r IH]; simpl; [reflexivity|].
  intros H. apply andb_true_iff in H. destruct H as [Hl Hr].
  destruct (is_nl c && starts_nl2 r); [exact (IH Hr)|].
  simpl. rewrite head_blank_sub_nl3, Hl, (IH Hr). reflexivity.
Qed.

Lemma sub_nl3_keeps_free (q : char -> bool) (s : str) :
  free_of q s = true -> free_of q (sub_nl3 s) = true.
Proof.
  induction s as [|c r IH]; simpl; [reflexivity|].
  intros H. apply andb_true_iff in H. destruct H as [Hl Hr].
  destruct (is_nl c && starts_nl2 r); [exact (IH Hr)|].
  simpl. rewrite Hl. exact (IH Hr).
Qed.

(** ** [sub_crlf]: line endings *)

Lemma sub_crlf_free (s : str) : free_of is_cr (sub_crlf s) = true.
Proof.
  induction s as [| a | a b l IHl IHb] using list_ind2.
  - reflexivity.
  - simpl. destruct (is_cr a) eqn:Ha; simpl; [reflexivity|].
    rewrite Ha. reflexivity.
  - change (sub_crlf (a :: b :: l)) with
      (if is_cr a
       then NL :: (if is_nl b then sub_crlf l else sub_crlf (b :: l))
       else a :: sub_crlf (b :: l)).
    destruct (is_cr a) eqn:Ha.
    + destruct (is_nl b); simpl; [exact IHl | exact IHb].
    + simpl. rewrite Ha. exact IHb.
Qed.

Lemma head_blank_sub_crlf (s : str) :
  head_is isblank (sub_crlf s) = head_is isblank s.
Proof.
  destruct s as [|c r]; [reflexivity|]. simpl.
  destruct (is_cr c) eqn:Hc; [|reflexivity].
  simpl. symmetry. apply cr_not_blank, Hc.
Qed.

Lemma sub_crlf_keeps_collapsed (s : str) :
  collapsed isblank s = true -> collapsed isblank (sub_crlf s) = true.
Proof.
  induction s as [| a | a b l IHl IHb] using list_ind2.
  - reflexivity.
  - simpl. destruct (is_cr a) eqn:Ha; simpl; [reflexivity|tauto].
  - intros H.
    assert (Hb : collapsed isblank (b :: l) = true).
    { simpl in H. apply andb_true_iff in H. apply H. }
    assert (Hl : collapsed isblank l = true).
    { simpl in Hb. apply andb_true_iff in Hb. apply Hb. }
    change (sub_crlf (a :: b :: l)) with
      (if is_cr a
       then NL :: (if is_nl b then sub_crlf l else sub_crlf (b :: l))
       else a :: sub_crlf (b :: l)).
    destruct (is_cr a) eqn:Ha.
    + destruct (is_nl b); simpl; [exact (IHl Hl) | exact (IHb Hb)].
    + change (collapsed isblank (a :: sub_crlf (b :: l))) with
        ((if isblank a
          then (a =? SP)%N && negb (head_is isblank (sub_crlf (b :: l)))
          else true) && collapsed isblank (sub_crlf (b :: l))).
      rewrite head_blank_sub_crlf, (IHb Hb), andb_true_r.
      simpl in H. apply andb_true_iff in H. apply H.
Qed.

Lemma free_of_cr_sub_crlf (s : str) : free_of is_cr s = true -> sub_crlf s = s.
Proof.
  induction s as [|c r IH]; simpl; [reflexivity|].
  intros H. apply andb_true_iff in H. destruct H as [Hc Hr].
  apply negb_true_iff in Hc. rewrite Hc, (IH Hr). reflexivity.
Qed.

(** ** [strip] *)

Lemma lstrip_suffix (s : str) : exists t, s = t ++ lstrip s.
Proof.
  induction s as [|c r [t Ht]]; [exists []; reflexivity|].
  simpl. destruct (isspace c).
  - exists (c :: t). simpl. rewrite <- Ht. reflexivity.
  - exists []. reflexivity.
Qed.

Lemma rstrip_cons (c : char) (r : str) :
  (rstrip (c :: r) = [] /\ isspace c = true /\ rstrip r = [])
  \/ (rstrip (c :: r) = c :: rstrip r).
Proof.
  simpl. destruct (rstrip r) as [|d r'] eqn:Hr.
  - destruct (isspace c); [left; auto | right; reflexivity].
  - right. reflexivity.
Qed.

Lemma rstrip_prefix (s : str) : exists t, s = rstrip s ++ t.
Proof.
  induction s as [|c r [t Ht]]; [exists []; reflexivity|].
  destruct (rstrip_cons c r) as [[H _] | H]; rewrite H.
  - exists (c :: r). reflexivity.
  - exists t. simpl. rewrite <- Ht. reflexivity.
Qed.

Lemma head_space_lstrip (s : str) : head_is isspace (lstrip s) = false.
Proof.
  induction s as [|c r IH]; simpl; [reflexivity|].
  destruct (isspace c) eqn:Hc; [exact IH | simpl; exact Hc].
Qed.

Lemma lstrip_fixed (s : str) : head_is isspace s = false -> lstrip s = s.
Proof. destruct s as [|c r]; simpl; [reflexivity|]. intros H. rewrite H. reflexivity. Qed.

Lemma head_space_rstrip (s : str) :
  head_is isspace s = false -> head_is isspace (rstrip s) = false.
Proof.
  destruct s as [|c r]; [reflexivity|]. intros H.
  destruct (rstrip_cons c r) as [[H1 _] | H1]; rewrite H1; [reflexivity|exact H].
Qed.

Lemma rstrip_idem (s : str) : rstrip (rstrip s) = rstrip s.
Proof.
  induction s as [|c r IH]; [reflexivity|].
  simpl. destruct (rstrip r) as [|d r'] eqn:Hr.
  - destruct (isspace c) eqn:Hc; [reflexivity|]. simpl. rewrite Hc. reflexivity.
  - change (rstrip (c :: d :: r')) with
      (match rstrip (d :: r') with
       | [] => if isspace c then [] else [c]
       | x :: r'' => c :: x :: r''
       end).
    rewrite IH. reflexivity.
Qed.

Lemma strip_idem (s : str) : strip (strip s) = strip s.
Proof.
  unfold strip.
  rewrite (lstrip_fixed (rstrip (lstrip s))).
  - apply rstrip_idem.
  - apply head_space_rstrip, head_space_lstrip.
Qed.

(** A property of strings that every prefix and every suffix inherits
    survives [strip]. *)
Lemma strip_keeps (P : str -> bool) :
  (forall a b, P (a ++ b) = true -> P a = true) ->
  (forall a b, P (a ++ b) = true -> P b = true) ->
  forall s, P s = true -> P (strip s) = true.
Proof.
  intros Hpre Hsuf s Hs. unfold strip.
  destruct (lstrip_suffix s) as [t Ht].
  destruct (rstrip_prefix (lstrip s)) as [u Hu].
  apply (Hpre _ u). rewrite <- Hu.
  apply (Hsuf t). rewrite <- Ht. exact Hs.
Qed.

Lemma strip_keeps_collapsed (p : char -> bool) (s : str) :
  collapsed p s = true -> collapsed p (strip s) = true.
Proof.
  apply (strip_keeps (collapsed p)).
  - apply collapsed_prefix.
  - apply collapsed_suffix.
Qed.

Lemma strip_keeps_nl3_free (s : str) :
  nl3_free s = true -> nl3_free (strip s) = true.
Proof.
  apply (strip_keeps nl3_free).
  - apply nl3_free_prefix.
  - apply nl3_free_suffix.
Qed.

Lemma strip_keeps_free (q : char -> bool) (s : str) :
  free_of q s = true -> free_of q (strip s) = true.
Proof.
  apply (strip_keeps (free_of q)).
  - apply free_of_prefix.
  - apply free_of_suffix.
Qed.

(** ** Cleaned text *)

(** Where whitespace runs are collapsed, the only whitespace is the space:
    no newline is left. *)
Lemma collapsed_space_free_of_nl (s : str) :
  collapsed isspace s = true -> free_of is_nl s = true.
Proof.
  induction s as [|c r IH]; simpl; [reflexivity|].
  intros H. apply andb_true_iff in H. destruct H as [Hl Hr].
  rewrite (IH Hr), andb_true_r.
  destruct (is_nl c) eqn:Hc; [|reflexivity].
  rewrite (nl_is_space c Hc) in Hl.
  apply andb_true_iff in Hl. destruct Hl as [Hsp _].
  apply N.eqb_eq in Hsp. apply is_nl_eq in Hc. subst c. discriminate.
Qed.

(** What [clean_text] returns: whitespace collapsed to single spaces, no
    newline, nothing to strip. *)
Lemma clean_text_shape (x : str) :
  let t := BuildIndex.clean_text x in
  collapsed isspace t = true /\ free_of is_nl t = true /\ strip t = t.
Proof.
  unfold BuildIndex.clean_text.
  pose proof (sub_plus_collapsed isspace isspace_SP x) as Hc.
  pose proof (collapsed_space_free_of_nl _ Hc) as Hn.
  rewrite (nl3_free_sub_nl3 _ (free_of_nl_nl3_free _ Hn)).
  cbv zeta. split; [|split].
  - apply strip_keeps_collapsed, Hc.
  - apply strip_keeps_free, Hn.
  - apply strip_idem.
Qed.

Lemma clean_text_idempotent (x : str) :
  BuildIndex.clean_text (BuildIndex.clean_text x) = BuildIndex.clean_text x.
Proof.
  destruct (clean_text_shape x) as [Hc [Hn Hs]].
  set (t := BuildIndex.clean_text x) in *.
  unfold BuildIndex.clean_text at 1.
  rewrite (collapsed_sub_plus isspace t Hc).
  rewrite (nl3_free_sub_nl3 t (free_of_nl_nl3_free t Hn)).
  exact Hs.
Qed.

(** What [_clean_text] returns. *)
Lemma _clean_text_shape (x : str) :
  let t := PDFParser._clean_text x in
  collapsed isblank t = true /\ free_of is_cr t = true
  /\ nl3_free t = true /\ strip t = t.
Proof.
  unfold PDFParser._clean_text. cbv zeta.
  pose proof (sub_plus_collapsed isblank isblank_SP x) as H1.
  apply sub_crlf_keeps_collapsed, sub_nl3_keeps_collapsed in H1.
  pose proof (sub_crlf_free (sub_plus isblank x)) as H2.
  apply (sub_nl3_keeps_free is_cr) in H2.
  pose proof (sub_nl3_free (sub_crlf (sub_plus isblank x))) as H3.
  repeat split.
  - apply strip_keeps_collapsed, H1.
  - apply strip_keeps_free, H2.
  - apply strip_keeps_nl3_free, H3.
  - apply strip_idem.
Qed.

Lemma _clean_text_idempotent (x : str) :
  PDFParser._clean_text (PDFParser._clean_text x) = PDFParser._clean_text x.
Proof.
  destruct (_clean_text_shape x) as [Hc [Hr [Hn Hs]]].
  set (t := PDFParser._clean_text x) in *.
  unfold PDFParser._clean_text at 1.
  rewrite (collapsed_sub_plus isblank t Hc).
  rewrite (free_of_cr_sub_crlf t Hr).
  rewrite (nl3_free_sub_nl3 t Hn).
  exact Hs.
Qed.

(** C5. Text cleaning is idempotent, for [clean_text] of the build script
    and for [_clean_text] of the PDF parser: cleaning cleaned text returns
    it unchanged, whatever the text. *)
Theorem C5_cleaning_idempotent (x : str) :
  BuildIndex.clean_text (BuildIndex.clean_text x) = BuildIndex.clean_text x
  /\ PDFParser._clean_text (PDFParser._clean_text x) = PDFParser._clean_text x.
Proof.
  split; [apply clean_text_idempotent | apply _clean_text_idempotent].
Qed.

(** ** Paragraphs and chunks *)

Lemma len_nonneg (s : str) : 0 <= len s.
Proof. unfold len. lia. Qed.

Lemma len_app (a b : str) : len (a ++ b) = len a + len b.
Proof. unfold len. rewrite length_app. lia. Qed.

Lemma len_cons (c : char) (s : str) : len (c :: s) = 1 + len s.
Proof. unfold len. simpl length. lia. Qed.

Lemma is_empty_len (s : str) : is_empty s = true <-> len s = 0.
Proof.
  destruct s; simpl; split; intros H; try reflexivity.
  - discriminate.
  - rewrite len_cons in H. pose proof (len_nonneg s). lia.
Qed.


(** A text without a newline is one paragraph. *)
Lemma split_nn_one_paragraph (s : str) (insep : bool) :
  free_of is_nl s = true -> split_nn_from insep s = [s].
Proof.
  revert insep. induction s as [|c r IH]; intros insep; simpl; [reflexivity|].
  intros H. apply andb_true_iff in H. destruct H as [Hc Hr].
  apply negb_true_iff in Hc. rewrite Hc, (IH false Hr). reflexivity.
Qed.

(** The build chunker reads one paragraph and yields it whole. *)
Lemma chunk_text_single (text : str) (chunk_size overlap : Z) :
  re_split_nn (BuildIndex.clean_text text) = [BuildIndex.clean_text text]
  /\ BuildIndex.chunk_text text chunk_size overlap =
     if len (BuildIndex.clean_text text) <? BuildIndex.MIN_CHUNK_SIZE
     then []
     else [BuildIndex.clean_text text].
Proof.
  destruct (clean_text_shape text) as [_ [Hn Hs]].
  unfold BuildIndex.chunk_text, re_split_nn.
  set (t := BuildIndex.clean_text text) in *.
  rewrite (split_nn_one_paragraph t false Hn).
  split; [reflexivity|].
  destruct (len t <? BuildIndex.MIN_CHUNK_SIZE) eqn:Hlen; [reflexivity|].
  apply Z.ltb_ge in Hlen.
  unfold BuildIndex.chunk_loop. rewrite Hs.
  assert (He : is_empty t = false).
  { destruct (is_empty t) eqn:He; [|reflexivity].
    apply is_empty_len in He. unfold BuildIndex.MIN_CHUNK_SIZE in Hlen. lia. }
  rewrite He.
  assert (H0 : (len [] >=? BuildIndex.MIN_CHUNK_SIZE) = false) by reflexivity.
  rewrite H0, andb_false_r. simpl negb. cbv iota.
  assert (H1 : (len t >=? BuildIndex.MIN_CHUNK_SIZE) = true).
  { apply Z.geb_le. exact Hlen. }
  rewrite H1, He. reflexivity.
Qed.

(** C3. [chunk_text] of the build script yields nothing when the cleaned
    text is shorter than [MIN_CHUNK_SIZE] and otherwise exactly one chunk,
    the cleaned text itself, whatever [chunk_size] and [overlap]:
    [clean_text] leaves no newline, so the split on blank lines returns
    the cleaned text as its single paragraph. *)
Theorem C3_build_chunker_single_chunk (text : str) (chunk_size overlap : Z) :
  re_split_nn (BuildIndex.clean_text text) = [BuildIndex.clean_text text]
  /\ BuildIndex.chunk_text text chunk_size overlap =
     if len (BuildIndex.clean_text text) <? BuildIndex.MIN_CHUNK_SIZE
     then []
     else [BuildIndex.clean_text text].
Proof. apply chunk_text_single. Qed.

(** Every chunk the PDF chunker yields has at least the minimum size. *)
Lemma pdf_chunk_loop_min (S O M : Z) (paras : list str) (cur : str) :
  Forall (fun c => M <= len c) (PDFParser.chunk_loop S O M paras cur).
Proof.
  revert cur. induction paras as [|para rest IH]; intros cur; simpl.
  - destruct (negb (is_empty cur) && (len cur >=? M)) eqn:H; [|constructor].
    apply andb_true_iff in H. destruct H as [_ H]. apply Z.geb_le in H.
    constructor; [exact H | constructor].
  - destruct (is_empty (strip para)); [apply IH|].
    destruct (len cur + len (strip para) + 2 >? S).
    + destruct (len cur >=? M) eqn:H; [|apply IH].
      apply Z.geb_le in H. constructor; [exact H | apply IH].
    + apply IH.
Qed.








(** The chunks of that text and of the sample of two paragraphs, and the
    paragraphs behind them. *)
Example long_then_short_chunks :
  map len (PDFParser._chunk_text 512 64 100 Samples.long_then_short_text)
  = [500; 165]
  /\ map len (re_split_nn Samples.long_then_short_text) = [500; 100].
Proof. split; vm_compute; reflexivity. Qed.

Example two_paragraphs_chunks :
  map len (PDFParser._chunk_text 512 64 100 Samples.two_paragraphs_text)
  = [300; 365]
  /\ map len (re_split_nn Samples.two_paragraphs_text) = [300; 300].
Proof. split; vm_compute; reflexivity. Qed.


Example long_paragraph_chunks :
  map len (PDFParser._chunk_text 512 64 100 Samples.long_paragraph_text)
  = [701; 165]
  /\ PDFParser._clean_text Samples.long_paragraph_text
     = Samples.long_paragraph_text.
Proof. split; vm_compute; reflexivity. Qed.

(** ** Phase 1: the rows and their identifiers *)

Import BuildIndex.

Lemma count_from_app (k : Z) (n m : nat) :
  count_from k (n + m) = count_from k n ++ count_from (k + Z.of_nat n) m.
Proof.
  revert k. induction n as [|n IH]; intros k.
  - simpl. rewrite Z.add_0_r. reflexivity.
  - cbn [Nat.add count_from app]. rewrite IH. do 3 f_equal. lia.
Qed.

Lemma count_from_bounds (k : Z) (n : nat) (x : Z) :
  In x (count_from k n) -> k <= x < k + Z.of_nat n.
Proof.
  revert k. induction n as [|n IH]; intros k; simpl; [tauto|].
  intros [H | H]; [lia|]. apply IH in H. lia.
Qed.

Lemma count_from_NoDup (k : Z) (n : nat) : NoDup (count_from k n).
Proof.
  revert k. induction n as [|n IH]; intros k; simpl; constructor.
  - intros H. apply count_from_bounds in H. lia.
  - apply IH.
Qed.

Lemma count_from_nth (k : Z) (n i : nat) :
  (i < n)%nat -> nth_error (count_from k n) i = Some (k + Z.of_nat i).
Proof.
  revert k i. induction n as [|n IH]; intros k i Hi; [lia|].
  destruct i as [|i]; simpl.
  - f_equal. lia.
  - rewrite IH by lia. f_equal. lia.
Qed.

Lemma max_count_from (k : Z) (n : nat) :
  0 <= k ->
  fold_right Z.max 0 (count_from k n)
  = match n with O => 0 | S _ => k + Z.of_nat n - 1 end.
Proof.
  revert k. induction n as [|n IH]; intros k Hk; simpl fold_right; [reflexivity|].
  rewrite IH by lia. destruct n; lia.
Qed.

Lemma max_rowid_map (conn : Table) :
  max_rowid conn = fold_right Z.max 0 (map rowid conn).
Proof.
  unfold max_rowid. induction conn as [|r conn IH]; simpl; [|rewrite IH]; reflexivity.
Qed.

Lemma numbered_max (conn : Table) :
  numbered conn -> max_rowid conn = Z.of_nat (length conn).
Proof.
  intros H. rewrite max_rowid_map, H, max_count_from by lia.
  destruct (length conn); lia.
Qed.

Lemma insert_entry_ok (conn : Table) (e : Entry) (conn' : Table) (rid : Z) :
  numbered conn ->
  insert_entry conn e = Ok (conn', rid) ->
  rid = Z.of_nat (length conn) + 1
  /\ conn' = conn ++ [{| rowid := rid; entry := e |}]
  /\ numbered conn'.
Proof.
  intros Hn. unfold insert_entry.
  destruct (bind_values e); [discriminate|].
  destruct (existsb _ conn); [discriminate|].
  intros H. injection H as H1 H2. rewrite numbered_max in * by exact Hn.
  subst rid conn'. repeat split.
  unfold numbered. rewrite map_app, length_app, count_from_app, <- Hn.
  cbn [map rowid length count_from]. f_equal. f_equal. lia.
Qed.

Lemma insert_all_ok (es : list Entry) (conn conn' : Table) :
  numbered conn ->
  insert_all conn es = Ok conn' ->
  numbered conn' /\ map entry conn' = map entry conn ++ es.
Proof.
  revert conn. induction es as [|e es IH]; intros conn Hn; simpl.
  - intros H. injection H as <-. rewrite app_nil_r. auto.
  - destruct (insert_entry conn e) as [[c1 rid]|] eqn:H1; simpl; [|discriminate].
    destruct (insert_entry_ok _ _ _ _ Hn H1) as [_ [Hc Hn1]].
    intros H. destruct (IH _ Hn1 H) as [Hn' He].
    split; [exact Hn'|]. rewrite He, Hc, map_app. simpl.
    rewrite <- app_assoc. reflexivity.
Qed.

Lemma process_files_ok (cat : str) (files : list (list Entry))
      (conn conn' : Table) (stats stats' : Stats) :
  numbered conn ->
  process_files conn stats cat files = Ok (conn', stats') ->
  numbered conn' /\ map entry conn' = map entry conn ++ concat files.
Proof.
  revert conn stats. induction files as [|es files IH]; intros conn stats Hn; simpl.
  - intros H. injection H as <- _. rewrite app_nil_r. auto.
  - destruct (insert_all conn es) as [c1|] eqn:H1; simpl; [|discriminate].
    destruct (insert_all_ok _ _ _ Hn H1) as [Hn1 He1].
    intros H. destruct (IH _ _ Hn1 H) as [Hn' He].
    split; [exact Hn'|]. rewrite He, He1, <- app_assoc. reflexivity.
Qed.

Lemma process_categories_ok (sources : Sources)
      (conn conn' : Table) (stats stats' : Stats) :
  numbered conn ->
  process_categories conn stats sources = Ok (conn', stats') ->
  numbered conn' /\ map entry conn' = map entry conn ++ all_entries sources.
Proof.
  revert conn stats. induction sources as [|[cat files] rest IH];
    intros conn stats Hn; simpl.
  - intros H. injection H as <- _. rewrite app_nil_r. auto.
  - destruct (process_files conn _ cat files) as [[c1 s1]|] eqn:H1; simpl;
      [|discriminate].
    destruct (process_files_ok _ _ _ _ _ _ Hn H1) as [Hn1 He1].
    intros H. destruct (IH _ _ Hn1 H) as [Hn' He].
    split; [exact Hn'|]. rewrite He, He1, <- app_assoc. reflexivity.
Qed.

Lemma str_eqb_eq (a b : str) : str_eqb a b = true <-> a = b.
Proof.
  unfold str_eqb. destruct (list_eq_dec N.eq_dec a b); split; intros H;
    congruence.
Qed.

Lemma id_is_new (conn : Table) (e : Entry) :
  ~ In (id e) (map id (map entry conn)) ->
  existsb (fun r => str_eqb (id (entry r)) (id e)) conn = false.
Proof.
  intros H. destruct (existsb _ conn) eqn:Hex; [|reflexivity].
  exfalso. apply H. apply existsb_exists in Hex. destruct Hex as [r [Hr He]].
  apply str_eqb_eq in He. rewrite <- He.
  apply in_map, in_map, Hr.
Qed.

Lemma storable_binds (e : Entry) : storable e = true -> bind_values e = None.
Proof.
  unfold storable. destruct (bind_values e); [discriminate | reflexivity].
Qed.

(** With values that can be bound and identifiers that differ, every
    insert goes through. *)
Lemma insert_all_succeeds (es : list Entry) (conn : Table) :
  numbered conn ->
  forallb storable es = true ->
  NoDup (map id (map entry conn ++ es)) ->
  exists conn', insert_all conn es = Ok conn'.
Proof.
  revert conn. induction es as [|e es IH]; intros conn Hn Hs Hd; simpl.
  - eexists. reflexivity.
  - simpl in Hs. apply andb_true_iff in Hs. destruct Hs as [He Hs].
    assert (Hnew : ~ In (id e) (map id (map entry conn))).
    { rewrite map_app in Hd. simpl in Hd.
      apply NoDup_remove_2 in Hd. intros Hin. apply Hd.
      apply in_or_app. left. exact Hin. }
    destruct (insert_entry conn e) as [[c1 rid]|] eqn:H1.
    + simpl. destruct (insert_entry_ok _ _ _ _ Hn H1) as [_ [Hc Hn1]].
      apply IH; [exact Hn1 | exact Hs |].
      rewrite Hc, (map_app entry). simpl. rewrite <- app_assoc. exact Hd.
    + unfold insert_entry in H1.
      rewrite (storable_binds e He), (id_is_new _ _ Hnew) in H1.
      discriminate.
Qed.

Lemma process_files_succeeds (cat : str) (files : list (list Entry))
      (conn : Table) (stats : Stats) :
  numbered conn ->
  forallb storable (concat files) = true ->
  NoDup (map id (map entry conn ++ concat files)) ->
  exists r, process_files conn stats cat files = Ok r.
Proof.
  revert conn stats. induction files as [|es files IH];
    intros conn stats Hn Hs Hd; simpl.
  - eexists. reflexivity.
  - simpl in Hd. rewrite app_assoc in Hd.
    simpl in Hs. rewrite forallb_app in Hs.
    apply andb_true_iff in Hs. destruct Hs as [Hs1 Hs2].
    assert (Hd1 : NoDup (map id (map entry conn ++ es))).
    { rewrite map_app in Hd. apply NoDup_app_remove_r in Hd. exact Hd. }
    destruct (insert_all_succeeds es conn Hn Hs1 Hd1) as [c1 H1].
    rewrite H1. simpl.
    destruct (insert_all_ok _ _ _ Hn H1) as [Hn1 He1].
    apply IH; [exact Hn1 | exact Hs2 |]. rewrite He1. exact Hd.
Qed.

Lemma process_categories_succeeds (sources : Sources)
      (conn : Table) (stats : Stats) :
  numbered conn ->
  forallb storable (all_entries sources) = true ->
  NoDup (map id (map entry conn ++ all_entries sources)) ->
  exists r, process_categories conn stats sources = Ok r.
Proof.
  revert conn stats. induction sources as [|[cat files] rest IH];
    intros conn stats Hn Hs Hd; simpl.
  - eexists. reflexivity.
  - simpl in Hd. rewrite app_assoc in Hd.
    unfold all_entries in Hs. simpl in Hs. rewrite forallb_app in Hs.
    apply andb_true_iff in Hs. destruct Hs as [Hs1 Hs2].
    assert (Hd1 : NoDup (map id (map entry conn ++ concat files))).
    { rewrite map_app in Hd. apply NoDup_app_remove_r in Hd. exact Hd. }
    destruct (process_files_succeeds cat files conn
                {| categories := set (categories stats) cat 0;
                   total_entries := total_entries stats;
                   files_processed := files_processed stats |} Hn Hs1 Hd1)
      as [[c1 s1] H1].
    rewrite H1. simpl.
    destruct (process_files_ok _ _ _ _ _ _ Hn H1) as [Hn1 He1].
    apply IH; [exact Hn1 | exact Hs2 |]. rewrite He1. exact Hd.
Qed.

(** ** Phase 2: reading the rows back *)

Lemma sorted_rows_stay (l : list (Z * str)) (k : Z) (n : nat) :
  map fst l = count_from k n ->
  fold_right insert_by_rowid [] l = l.
Proof.
  revert k n. induction l as [|x l IH]; intros k n H; [reflexivity|].
  destruct n as [|n]; [discriminate|].
  simpl in H. injection H as Hx Hl.
  simpl. rewrite (IH _ _ Hl).
  destruct l as [|y l]; [reflexivity|].
  destruct n as [|n]; [discriminate|].
  simpl in Hl. injection Hl as Hy _.
  simpl. destruct (Z.leb_spec (fst x) (fst y)); [reflexivity|lia].
Qed.

Lemma select_numbered (conn : Table) :
  numbered conn ->
  select_rowid_content conn
  = map (fun r => (rowid r, content (entry r))) conn.
Proof.
  intros Hn. unfold select_rowid_content.
  apply (sorted_rows_stay _ 1 (length conn)).
  rewrite map_map. exact Hn.
Qed.

Lemma range_len_enough (n : nat) : (n <= range_len n 100 * 100)%nat.
Proof.
  unfold range_len.
  pose proof (Nat.div_mod_eq (n + 100 - 1) 100) as H.
  pose proof (Nat.mod_upper_bound (n + 100 - 1) 100) as H'.
  lia.
Qed.

Section VectorFacts.

Variable embedding : Type.
Variable vec_dim : embedding -> Z.
Variable encode : list str -> list embedding.

(** The batch loop hands every row identifier on, in order, whatever the
    model returns. *)
Lemma batch_loop_ids (turns : nat) (rows : list (Z * str))
      (embs : list embedding) (ids : list Z) :
  (length rows <= turns * 100)%nat ->
  snd (batch_loop embedding encode turns 100 rows embs ids)
  = ids ++ map fst rows.
Proof.
  revert rows embs ids. induction turns as [|turns IH]; intros rows embs ids H.
  - destruct rows; [|simpl in H; lia]. simpl. rewrite app_nil_r. reflexivity.
  - cbn [batch_loop]. rewrite IH.
    + rewrite <- app_assoc, <- map_app, firstn_skipn. reflexivity.
    + rewrite length_skipn. lia.
Qed.

(** A model that embeds every text by itself gives the rows' embeddings,
    in order, whatever the batches. *)
Lemma batch_loop_embeddings (embed : str -> embedding) (turns : nat)
      (rows : list (Z * str)) (embs : list embedding) (ids : list Z) :
  (forall texts, encode texts = map embed texts) ->
  (length rows <= turns * 100)%nat ->
  fst (batch_loop embedding encode turns 100 rows embs ids)
  = embs ++ map (fun r => embed (snd r)) rows.
Proof.
  intros Henc. revert rows embs ids.
  induction turns as [|turns IH]; intros rows embs ids H.
  - destruct rows; [|simpl in H; lia]. simpl. rewrite app_nil_r. reflexivity.
  - cbn [batch_loop]. rewrite IH.
    + rewrite Henc, map_map, <- app_assoc, <- map_app, firstn_skipn.
      reflexivity.
    + rewrite length_skipn. lia.
Qed.

(** Items added under new labels that differ from each other: each is
    kept under its label, the others stay as they were, and the count
    grows by their number. *)
Lemma add_each_spec (data : list (embedding * Z)) (ix ix' : Index embedding) :
  add_each embedding vec_dim ix data = Ok ix' ->
  NoDup (map snd data) ->
  (forall l, In l (map snd data) -> get_item embedding ix l = None) ->
  element_count embedding ix'
  = element_count embedding ix + Z.of_nat (length data)
  /\ (forall v l, In (v, l) data -> get_item embedding ix' l = Some v)
  /\ (forall l, ~ In l (map snd data) ->
        get_item embedding ix' l = get_item embedding ix l).
Proof using Type.
  revert ix. induction data as [|[v label] data IH]; intros ix H Hd Hfresh.
  - simpl in H. injection H as <-. simpl. split; [lia|].
    split; [intros v l [] | reflexivity].
  - cbn [add_each] in H.
    destruct (negb (vec_dim v =? dim embedding ix)); [discriminate|].
    destruct (element_count embedding (put embedding ix label v)
              >? max_elements embedding ix); [discriminate|].
    cbn [map snd] in Hd. inversion Hd as [|? ? Hnotin Hd']; subst.
    assert (Hlabel : get_item embedding ix label = None)
      by (apply Hfresh; left; reflexivity).
    apply IH in H; [|exact Hd'|].
    + destruct H as [Hcount [Hin Hout]].
      cbn [put element_count get_item] in Hcount, Hout.
      rewrite Hlabel in Hcount.
      split; [cbn [length]; lia|]. split.
      * intros v' l [E | Hl].
        -- injection E as <- <-. rewrite (Hout label Hnotin).
           rewrite Z.eqb_refl. reflexivity.
        -- apply Hin. exact Hl.
      * intros l Hl. cbn [map snd In] in Hl.
        rewrite Hout by (intros Hc; apply Hl; right; exact Hc).
        destruct (Z.eqb_spec l label) as [->|_]; [|reflexivity].
        exfalso. apply Hl. left. reflexivity.
    + intros l Hl. cbn [put get_item].
      destruct (Z.eqb_spec l label) as [->|_]; [contradiction|].
      apply Hfresh. right. exact Hl.
Qed.

End VectorFacts.

Lemma map_snd_combine (A B : Type) (a : list A) (b : list B) :
  length a = length b -> map snd (combine a b) = b.
Proof.
  revert b. induction a as [|x a IH]; intros [|y b] H; simpl in *;
    try discriminate; [reflexivity|].
  rewrite IH by lia. reflexivity.
Qed.

Section VectorBuild.

Variable embedding : Type.
Variable vec_dim : embedding -> Z.
Variable encode : list str -> list embedding.

Lemma add_each_succeeds (data : list (embedding * Z)) (ix : Index embedding) :
  Forall (fun p => vec_dim (fst p) = dim embedding ix) data ->
  NoDup (map snd data) ->
  (forall l, In l (map snd data) -> get_item embedding ix l = None) ->
  element_count embedding ix + Z.of_nat (length data)
    <= max_elements embedding ix ->
  exists ix', add_each embedding vec_dim ix data = Ok ix'.
Proof using Type.
  revert ix.
  induction data as [|[v label] data IH]; intros ix Hdim Hd Hfresh Hmax.
  - eexists. reflexivity.
  - cbn [add_each]. inversion Hdim as [|? ? Hv Hrest]; subst. simpl in Hv.
    rewrite Hv, Z.eqb_refl. simpl negb. cbv iota.
    cbn [map snd] in Hd. inversion Hd as [|? ? Hnotin Hd']; subst.
    assert (Hlabel : get_item embedding ix label = None)
      by (apply Hfresh; left; reflexivity).
    assert (Hcount : element_count embedding (put embedding ix label v)
                     = element_count embedding ix + 1).
    { cbn [put element_count]. rewrite Hlabel. reflexivity. }
    cbn [length] in Hmax.
    destruct (Z.gtb_spec (element_count embedding (put embedding ix label v))
                (max_elements embedding ix)) as [Hover|_]; [lia|].
    apply IH.
    + exact Hrest.
    + exact Hd'.
    + intros l Hl. cbn [put get_item].
      destruct (Z.eqb_spec l label) as [->|_]; [contradiction|].
      apply Hfresh. right. exact Hl.
    + rewrite Hcount. cbn [put max_elements]. lia.
Qed.

Lemma in_combine_label (A B : Type) (a : list A) (b : list B) (y : B) :
  length a = length b -> In y b -> exists x, In (x, y) (combine a b).
Proof using Type.
  revert b. induction a as [|x a IH]; intros [|y0 b] Hlen Hin;
    simpl in *; try discriminate; [destruct Hin|].
  destruct Hin as [-> | Hin].
  - exists x. left. reflexivity.
  - destruct (IH b) as [x' Hx']; [lia | exact Hin|].
    exists x'. right. exact Hx'.
Qed.

(** What the vector phase returns when it returns: the index it saved
    has one item for each row, under the row's identifier, and no other;
    the database is left as it was. *)
Lemma build_vector_index_labels (conn : Table)
      (out out' : OutputDir embedding) (ix : Index embedding) :
  numbered conn ->
  build_vector_index embedding vec_dim encode conn out = (out', Ok ix) ->
  out' = {| knowledge_db := knowledge_db embedding out;
            vectors_idx := Some ix |}
  /\ element_count embedding ix = Z.of_nat (length conn)
  /\ (forall l, get_item embedding ix l <> None <-> In l (map rowid conn))
  /\ conn <> [].
Proof using Type.
  intros Hn H.
  assert (Hne : conn <> []).
  { intros ->. unfold build_vector_index in H. simpl in H. discriminate. }
  revert H. unfold build_vector_index.
  rewrite (select_numbered conn Hn).
  remember (map (fun r => (rowid r, content (entry r))) conn) as rows
    eqn:Erows.
  destruct rows as [|row0 rows0];
    [destruct conn; [contradiction | discriminate]|].
  remember (row0 :: rows0) as rows eqn:Er in *. clear Er row0 rows0.
  pose proof (batch_loop_ids embedding encode
                (range_len (length rows) 100) rows [] []
                (range_len_enough (length rows))) as Hids.
  destruct (batch_loop embedding encode _ 100 rows [] []) as [embs ids].
  simpl in Hids. subst ids.
  unfold add_items.
  destruct (negb (length embs =? length (map fst rows))%nat) eqn:Hlen;
    cbv beta iota zeta; [discriminate|].
  apply negb_false_iff, Nat.eqb_eq in Hlen.
  destruct (add_each _ _ _ _) as [ix1|] eqn:Hadd; [|discriminate].
  intros H. injection H as H1 H2. subst ix1 out'.
  assert (Hlab : map fst rows = map rowid conn).
  { rewrite Erows, map_map. reflexivity. }
  apply add_each_spec in Hadd.
  - rewrite map_snd_combine in Hadd by exact Hlen.
    destruct Hadd as [Hcount [Hin Hout]].
    cbn [init_index element_count get_item] in Hcount, Hout.
    split; [reflexivity|]. split; [|split; [|exact Hne]].
    + rewrite Hcount, length_combine, <- Hlen, Nat.min_id, Hlen, Hlab,
        length_map. lia.
    + intros l. rewrite <- Hlab. split.
      * intros Hl.
        destruct (in_dec Z.eq_dec l (map fst rows)) as [Hyes|Hno];
          [exact Hyes|].
        exfalso. apply Hl. apply Hout. exact Hno.
      * intros Hl. destruct (in_combine_label _ _ embs _ l Hlen Hl) as [v Hv].
        rewrite (Hin v l Hv). discriminate.
  - rewrite map_snd_combine by exact Hlen.
    rewrite Hlab, Hn. apply count_from_NoDup.
  - reflexivity.
Qed.

(** With a model that embeds every text by itself, in the index's
    dimension, the vector phase over a numbered, non-empty table goes
    through, and its index keeps under every row identifier the embedding
    of that row's content, and nothing under any other label. *)
Lemma build_vector_index_aligned (embed : str -> embedding) (conn : Table)
      (out : OutputDir embedding) :
  (forall texts, encode texts = map embed texts) ->
  (forall text, vec_dim (embed text) = EMBEDDING_DIM) ->
  numbered conn -> conn <> [] ->
  exists ix,
    build_vector_index embedding vec_dim encode conn out
    = ({| knowledge_db := knowledge_db embedding out;
          vectors_idx := Some ix |}, Ok ix)
    /\ element_count embedding ix = Z.of_nat (length conn)
    /\ (forall r, In r conn ->
          get_item embedding ix (rowid r) = Some (embed (content (entry r))))
    /\ (forall l, ~ In l (map rowid conn) -> get_item embedding ix l = None).
Proof using Type.
  intros Henc Hdim Hn Hne.
  assert (Hfresh : NoDup (map rowid conn)).
  { rewrite Hn. apply count_from_NoDup. }
  assert (Hlen : length (map (fun r => embed (content (entry r))) conn)
                 = length (map rowid conn)).
  { rewrite !length_map. reflexivity. }
  assert (Hadd : exists ix,
             add_items embedding vec_dim
               (init_index embedding EMBEDDING_DIM
                  (Z.of_nat (length (map rowid conn))))
               (map (fun r => embed (content (entry r))) conn)
               (map rowid conn) = Ok ix).
  { unfold add_items. rewrite !length_map, Nat.eqb_refl. simpl negb. cbv iota.
    apply add_each_succeeds.
    - apply Forall_forall. intros [v l] Hin. simpl.
      apply in_combine_l in Hin. apply in_map_iff in Hin.
      destruct Hin as [r [<- _]]. apply Hdim.
    - rewrite map_snd_combine by exact Hlen. exact Hfresh.
    - reflexivity.
    - cbn [init_index element_count max_elements].
      rewrite length_combine, !length_map. lia. }
  destruct Hadd as [ix Hadd]. exists ix.
  assert (Hspec : element_count embedding ix = Z.of_nat (length conn)
                  /\ (forall r, In r conn ->
                        get_item embedding ix (rowid r)
                        = Some (embed (content (entry r))))
                  /\ (forall l, ~ In l (map rowid conn) ->
                        get_item embedding ix l = None)).
  { unfold add_items in Hadd. rewrite !length_map, Nat.eqb_refl in Hadd.
    simpl negb in Hadd. cbv iota in Hadd.
    apply add_each_spec in Hadd.
    - rewrite map_snd_combine in Hadd by exact Hlen.
      destruct Hadd as [Hcount [Hin Hout]].
      cbn [init_index element_count get_item] in Hcount, Hout.
      split; [|split].
      + rewrite Hcount, length_combine, !length_map. lia.
      + intros r Hr. apply Hin. clear -Hr.
        induction conn as [|r0 conn IH]; [destruct Hr|].
        simpl. destruct Hr as [-> | Hr]; [left; reflexivity | right; auto].
      + exact Hout.
    - rewrite map_snd_combine by exact Hlen. exact Hfresh.
    - reflexivity. }
  split; [|exact Hspec].
  unfold build_vector_index. rewrite (select_numbered conn Hn).
  remember (map (fun r => (rowid r, content (entry r))) conn) as rows
    eqn:Erows.
  destruct rows as [|row0 rows0];
    [destruct conn; [contradiction | discriminate]|].
  remember (row0 :: rows0) as rows eqn:Er in *. clear Er row0 rows0.
  pose proof (batch_loop_ids embedding encode
                (range_len (length rows) 100) rows [] []
                (range_len_enough (length rows))) as Hids.
  pose proof (batch_loop_embeddings embedding encode embed
                (range_len (length rows) 100) rows [] [] Henc
                (range_len_enough (length rows))) as Hembs.
  destruct (batch_loop embedding encode _ 100 rows [] []) as [embs ids].
  simpl in Hids, Hembs. subst ids embs.
  rewrite Erows, !map_map. simpl.
  change (fun x : Row => rowid x) with rowid.
  rewrite Hadd. reflexivity.
Qed.

End VectorBuild.

(** ** The build: both phases *)

Lemma numbered_nil : numbered [].
Proof. reflexivity. Qed.

Section BuildFacts.

Variable embedding : Type.
Variable vec_dim : embedding -> Z.
Variable encode : list str -> list embedding.

(** A build that returns leaves the table of phase 1, numbered from 1,
    and an index with one item under each row identifier and no other. *)
Lemma build_index_returns (sources : Sources)
      (out out' : OutputDir embedding) (stats : Stats) :
  build_index embedding vec_dim encode sources out = (out', Ok stats) ->
  exists table ix,
    out' = {| knowledge_db := Some table; vectors_idx := Some ix |}
    /\ map entry table = all_entries sources
    /\ numbered table
    /\ element_count embedding ix = Z.of_nat (length table)
    /\ (forall l, get_item embedding ix l <> None <-> In l (map rowid table)).
Proof using Type.
  unfold build_index.
  destruct (process_categories [] _ sources) as [[conn st]|] eqn:H1;
    [|discriminate].
  destruct (process_categories_ok _ _ _ _ _ numbered_nil H1) as [Hn He].
  destruct (build_vector_index _ _ _ conn _) as [o [ix|]] eqn:H2;
    [|discriminate].
  intros H. injection H as H3 H4. subst o st.
  destruct (build_vector_index_labels _ _ _ _ _ _ _ Hn H2)
    as [Ho [Hc [Hl _]]].
  exists conn, ix. simpl in Ho. auto.
Qed.

End BuildFacts.

(** C10. Phase 1 gives the rows the identifiers 1, 2, 3, ... in insertion
    order (the first insert into the new table returns 1 for every entry
    whose values can be bound), the vector phase reads these identifiers
    back in ascending order, and a build that returns has saved an index
    whose labels are exactly these row identifiers: one item for each,
    none under any other label, and so none under the label 0.  The order
    in which the index stores its items is not fixed and is not stated. *)
Theorem C10_rowids_and_labels (embedding : Type) (vec_dim : embedding -> Z)
        (encode : list str -> list embedding) (sources : Sources)
        (out : OutputDir embedding) :
  (forall e, storable e = true ->
             insert_entry [] e = Ok ([{| rowid := 1; entry := e |}], 1))
  /\ (forall conn stats,
        process_categories []
          {| categories := []; total_entries := 0; files_processed := 0 |}
          sources = Ok (conn, stats) ->
        map entry conn = all_entries sources
        /\ map rowid conn = count_from 1 (length (all_entries sources))
        /\ map fst (select_rowid_content conn) = map rowid conn)
  /\ (forall out' stats,
        build_index embedding vec_dim encode sources out = (out', Ok stats) ->
        exists table ix,
          out' = {| knowledge_db := Some table; vectors_idx := Some ix |}
          /\ map entry table = all_entries sources
          /\ map rowid table = count_from 1 (length (all_entries sources))
          /\ element_count embedding ix = Z.of_nat (length table)
          /\ (forall l, get_item embedding ix l <> None
                        <-> In l (map rowid table))
          /\ get_item embedding ix 0 = None).
Proof.
  split; [|split].
  - intros e He. unfold insert_entry.
    rewrite (storable_binds e He). reflexivity.
  - intros conn stats H.
    destruct (process_categories_ok _ _ _ _ _ numbered_nil H) as [Hn He].
    simpl in He. split; [exact He|]. split.
    + rewrite <- He, length_map. exact Hn.
    + rewrite (select_numbered conn Hn), map_map. reflexivity.
  - intros out' stats H.
    destruct (build_index_returns _ _ _ _ _ _ _ H)
      as [table [ix [Ho [He [Hn [Hc Hl]]]]]].
    exists table, ix.
    split; [exact Ho|]. split; [exact He|].
    split; [rewrite <- He, length_map; exact Hn|].
    split; [exact Hc|]. split; [exact Hl|].
    destruct (get_item embedding ix 0) as [v|] eqn:H0; [|reflexivity].
    exfalso.
    assert (Hin : In 0 (map rowid table)).
    { apply Hl. rewrite H0. discriminate. }
    rewrite Hn in Hin. apply count_from_bounds in Hin. lia.
Qed.

(** The theorem at the sample build of two entries, which returns. *)
Lemma C10_rowids_and_labels_witness :
  exists table ix,
    fst (build_index Z Samples.toy_dim Samples.toy_encode
           Samples.two_entry_sources Samples.no_files)
    = {| knowledge_db := Some table; vectors_idx := Some ix |}
    /\ map entry table = all_entries Samples.two_entry_sources
    /\ map rowid table
       = count_from 1 (length (all_entries Samples.two_entry_sources))
    /\ element_count Z ix = Z.of_nat (length table)
    /\ (forall l, get_item Z ix l <> None <-> In l (map rowid table))
    /\ get_item Z ix 0 = None.
Proof.
  apply (proj2 (proj2 (C10_rowids_and_labels Z Samples.toy_dim
                         Samples.toy_encode Samples.two_entry_sources
                         Samples.no_files))
           (fst (build_index Z Samples.toy_dim Samples.toy_encode
                   Samples.two_entry_sources Samples.no_files))
           {| categories := [(lit "navigation", 1); (lit "survival", 1)];
              total_entries := 2;
              files_processed := 2 |}).
  vm_compute. reflexivity.
Defined.

(** The sample build: two rows, an item under each of the labels 1 and 2
    and none under 0 or 3. *)
Example two_entry_build :
  exists table ix stats,
    build_index Z Samples.toy_dim Samples.toy_encode
      Samples.two_entry_sources Samples.no_files
    = ({| knowledge_db := Some table; vectors_idx := Some ix |}, Ok stats)
    /\ map rowid table = [1; 2]
    /\ element_count Z ix = 2
    /\ map (get_item Z ix) [0; 1; 2; 3] = [None; Some 43; Some 47; None].
Proof. do 3 eexists. vm_compute. repeat split. Qed.

(** C1 (as amended). For a build whose phase 1 inserts N >= 1 entries
    with values that can be bound and identifiers that differ, and a model
    that embeds every text by itself in the index's dimension, the build
    returns with as many items in the index as rows in the table, and the
    identifier [k + 1] is the key of the [k]th entry (counted from 0) in
    both: the row with this identifier holds the entry, and the index
    keeps under this label the embedding of its content.  The index has
    no item under any other label: the identifiers run over [1, N], not
    [0, N). *)
Theorem C1_identifier_alignment (embedding : Type) (vec_dim : embedding -> Z)
        (encode : list str -> list embedding) (embed : str -> embedding)
        (sources : Sources) (out : OutputDir embedding) :
  (forall texts, encode texts = map embed texts) ->
  (forall text, vec_dim (embed text) = EMBEDDING_DIM) ->
  forallb storable (all_entries sources) = true ->
  NoDup (map id (all_entries sources)) ->
  all_entries sources <> [] ->
  exists table ix stats,
    build_index embedding vec_dim encode sources out
    = ({| knowledge_db := Some table; vectors_idx := Some ix |}, Ok stats)
    /\ element_count embedding ix = Z.of_nat (length table)
    /\ length table = length (all_entries sources)
    /\ (forall k e,
          nth_error (all_entries sources) k = Some e ->
          nth_error table k = Some {| rowid := Z.of_nat k + 1; entry := e |}
          /\ get_item embedding ix (Z.of_nat k + 1)
             = Some (embed (content e)))
    /\ (forall l, get_item embedding ix l <> None ->
          1 <= l <= Z.of_nat (length table)).
Proof.
  intros Henc Hdim Hs Hd Hne. unfold build_index.
  destruct (process_categories_succeeds sources []
              {| categories := []; total_entries := 0; files_processed := 0 |}
              numbered_nil Hs Hd) as [[conn st] H1].
  rewrite H1.
  destruct (process_categories_ok _ _ _ _ _ numbered_nil H1) as [Hn He].
  simpl in He.
  assert (Hconn : conn <> []).
  { intros ->. apply Hne. rewrite <- He. reflexivity. }
  destruct (build_vector_index_aligned embedding vec_dim encode embed conn
              {| knowledge_db := Some conn; vectors_idx := None |}
              Henc Hdim Hn Hconn) as [ix [H2 [Hcount [Hin Hout]]]].
  rewrite H2. exists conn, ix, st. simpl.
  split; [reflexivity|]. split; [exact Hcount|].
  split; [rewrite <- He, length_map; reflexivity|].
  split.
  - intros k e Hk.
    assert (Hlt : (k < length conn)%nat).
    { rewrite <- (length_map entry), He. apply nth_error_Some. congruence. }
    assert (Hrow : nth_error conn k
                   = Some {| rowid := Z.of_nat k + 1; entry := e |}).
    { destruct (nth_error conn k) as [r|] eqn:Hr;
        [|apply nth_error_None in Hr; lia].
      pose proof (map_nth_error entry _ _ Hr) as E1. rewrite He, Hk in E1.
      pose proof (map_nth_error rowid _ _ Hr) as E2.
      rewrite Hn, count_from_nth in E2 by exact Hlt.
      assert (E1' : entry r = e) by congruence.
      assert (E2' : rowid r = Z.of_nat k + 1)
        by (rewrite Z.add_comm; congruence).
      destruct r as [rid re]. cbn [rowid entry] in E1', E2'. subst rid re.
      reflexivity. }
    split; [exact Hrow|].
    apply (Hin _ (nth_error_In _ _ Hrow)).
  - intros l Hl.
    destruct (in_dec Z.eq_dec l (map rowid conn)) as [Hyes|Hno].
    + rewrite Hn in Hyes. apply count_from_bounds in Hyes. lia.
    + exfalso. apply Hl. apply Hout. exact Hno.
Qed.

(** The theorem at the sample build of two entries, under the stand-in
    model. *)
Lemma C1_identifier_alignment_witness :
  exists table ix stats,
    build_index Z Samples.toy_dim Samples.toy_encode
      Samples.two_entry_sources Samples.no_files
    = ({| knowledge_db := Some table; vectors_idx := Some ix |}, Ok stats)
    /\ element_count Z ix = Z.of_nat (length table)
    /\ length table = length (all_entries Samples.two_entry_sources)
    /\ (forall k e,
          nth_error (all_entries Samples.two_entry_sources) k = Some e ->
          nth_error table k = Some {| rowid := Z.of_nat k + 1; entry := e |}
          /\ get_item Z ix (Z.of_nat k + 1)
             = Some (Samples.toy_embed (content e)))
    /\ (forall l, get_item Z ix l <> None ->
          1 <= l <= Z.of_nat (length table)).
Proof.
  apply (C1_identifier_alignment Z Samples.toy_dim Samples.toy_encode
           Samples.toy_embed Samples.two_entry_sources Samples.no_files).
  - reflexivity.
  - reflexivity.
  - reflexivity.
  - repeat constructor; simpl; intuition discriminate.
  - discriminate.
Defined.

(** C1, counterexample.  A build of one entry: the only row has the
    identifier 1 and the only item the label 1, so at [L = 0], the one
    value in [0, N), there is neither an item under the label 0 nor a
    row 0. *)
Lemma C1_counterexample :
  exists table ix stats,
    build_index Z Samples.toy_dim Samples.toy_encode
      Samples.one_entry_sources Samples.no_files
    = ({| knowledge_db := Some table; vectors_idx := Some ix |}, Ok stats)
    /\ get_item Z ix 0 = None
    /\ ~ (exists r, In r table /\ rowid r = 0)
    /\ ~ spec_alignment table ix.
Proof.
  do 3 eexists. split; [vm_compute; reflexivity|].
  split; [reflexivity|]. split.
  - intros [r [[<- | []] Hr]]. discriminate.
  - intros [_ H]. destruct (H 0%nat) as [r [v [Hitem _]]]; [simpl; lia|].
    vm_compute in Hitem. discriminate.
Qed.

(** ** An empty corpus *)

Section EmptyCorpus.

Variable embedding : Type.
Variable vec_dim : embedding -> Z.
Variable encode : list str -> list embedding.

(** Sources that yield no entry leave the table of phase 1 empty. *)
Lemma process_categories_empty (sources : Sources) (stats : Stats) :
  all_entries sources = [] ->
  exists stats', process_categories [] stats sources = Ok ([], stats').
Proof using Type.
  intros He.
  destruct (process_categories_succeeds sources [] stats numbered_nil)
    as [[conn st] H].
  { rewrite He. reflexivity. }
  { rewrite He. constructor. }
  destruct (process_categories_ok _ _ _ _ _ numbered_nil H) as [_ Hm].
  rewrite He in Hm. destruct conn; [|discriminate].
  exists st. exact H.
Qed.

End EmptyCorpus.

(** C7. With no row in the table when the vector phase starts,
    [build_vector_index] raises [ValueError] and leaves the directory as
    it is: nothing is built and nothing saved.  A build whose sources
    yield no entry so ends with the exception, the committed, empty
    database of phase 1 in place and no vector index file. *)
Theorem C7_empty_corpus_aborts (embedding : Type) (vec_dim : embedding -> Z)
        (encode : list str -> list embedding)
        (out : OutputDir embedding) (sources : Sources) :
  build_vector_index embedding vec_dim encode [] out = (out, Raise ValueError)
  /\ (all_entries sources = [] ->
      build_index embedding vec_dim encode sources out
      = ({| knowledge_db := Some []; vectors_idx := None |},
         Raise ValueError)).
Proof.
  split; [reflexivity|].
  intros He. unfold build_index.
  destruct (process_categories_empty sources
              {| categories := []; total_entries := 0; files_processed := 0 |}
              He) as [st H].
  rewrite H. reflexivity.
Qed.

(** The theorem at a source tree whose only file yields no entry. *)
Lemma C7_empty_corpus_aborts_witness :
  build_vector_index Z Samples.toy_dim Samples.toy_encode [] Samples.no_files
  = (Samples.no_files, Raise ValueError)
  /\ build_index Z Samples.toy_dim Samples.toy_encode Samples.empty_sources
       Samples.no_files
     = ({| knowledge_db := Some []; vectors_idx := None |}, Raise ValueError).
Proof.
  destruct (C7_empty_corpus_aborts Z Samples.toy_dim Samples.toy_encode
              Samples.no_files Samples.empty_sources) as [H1 H2].
  split; [exact H1 | apply H2; reflexivity].
Defined.


(** ** Plant records *)

Lemma levels_get_spec (r : Z) :
  PlantParser.levels_get PlantParser.SAFETY_LEVELS r (lit "danger")
  = spec_plant_level (Some r).
Proof.
  unfold PlantParser.SAFETY_LEVELS, PlantParser.levels_get, spec_plant_level.
  rewrite !(Z.eqb_sym _ r).
  destruct (r =? 5), (r =? 4), (r =? 3), (r =? 2), (r =? 1), (r =? 0);
    reflexivity.
Qed.

(** What [_parse_plant] returns when it returns an entry. *)
Lemma _parse_plant_entry (B : Builtins) (item : dict) (source_file : str)
      (e : PlantParser.PlantEntry) :
  PlantParser._parse_plant B (JDict item) source_file = Ok (Some e) ->
  exists rating,
    PlantParser.read_rating B item = Ok rating
    /\ PlantParser.edibility_rating e = rating
    /\ PlantParser.safety_level e = spec_plant_level rating
    /\ PlantParser.safety_notes e = PlantParser.PLANT_SAFETY_WARNING
    /\ PlantParser.min_content_length <= len (PlantParser.description e).
Proof.
  unfold PlantParser._parse_plant.
  destruct (PlantParser.read_rating B item) as [rating|] eqn:Hr;
    [|discriminate].
  cbv beta iota zeta delta [bind].
  match goal with
  | |- (if len ?d <? _ then _ else _) = _ -> _ =>
      destruct (Z.ltb_spec (len d) PlantParser.min_content_length) as [Hl|Hl]
  end; [discriminate|].
  intros H. injection H as <-. exists rating. cbn.
  repeat split; try assumption.
  destruct rating as [r|]; [apply levels_get_spec | reflexivity].
Qed.

(** The build's own path: every entry of the category [plants] is
    [danger], with the build's warning, whatever the record says. *)
Lemma parse_json_item_plants (B : Builtins) (uid now : str) (item : dict)
      (src : str) (e : Entry) :
  In e (parse_json_item B uid now item (lit "plants") src) ->
  safety_level e = lit "danger" /\ safety_notes e = Some PLANTS_NOTE.
Proof.
  unfold parse_json_item.
  destruct (len (item_content B item) <? MIN_CHUNK_SIZE); [intros []|].
  intros [<- | []]. split; reflexivity.
Qed.

(** C4 (as amended). For every plant record that [PlantParser] turns into
    an entry, an integer edibility rating gives the safety level of the
    table (5 and 4 caution, 3 warning, 2 danger, 1 lethal, 0 and any other
    integer danger), a missing rating gives danger, and the safety notes
    are the fixed, non-empty disclaimer with the phrase SAFETY WARNING.
    The build itself does not read the rating: [parse_json_item] gives
    every entry of the category [plants] the level danger and its own
    fixed warning. *)
Theorem C4_plant_safety_levels (B : Builtins) (item : dict)
        (source_file : str) (e : PlantParser.PlantEntry) :
  PlantParser._parse_plant B (JDict item) source_file = Ok (Some e) ->
  (forall r, lookup item (lit "edibility_rating") = Some (JInt r) ->
             PlantParser.edibility_rating e = Some r
             /\ PlantParser.safety_level e = spec_plant_level (Some r))
  /\ (lookup item (lit "edibility_rating") = None ->
      PlantParser.safety_level e = lit "danger")
  /\ PlantParser.safety_notes e = PlantParser.PLANT_SAFETY_WARNING
  /\ is_empty (PlantParser.safety_notes e) = false
  /\ contains (lit "SAFETY WARNING") (PlantParser.safety_notes e) = true
  /\ (forall uid now src entry,
        In entry (parse_json_item B uid now item (lit "plants") src) ->
        safety_level entry = lit "danger"
        /\ safety_notes entry = Some PLANTS_NOTE).
Proof.
  intros H.
  destruct (_parse_plant_entry B item source_file e H)
    as [rating [Hr [He [Hl [Hn _]]]]].
  split; [|split; [|split; [|split; [|split]]]].
  - intros r Hk. unfold PlantParser.read_rating in Hr. rewrite Hk in Hr.
    simpl in Hr. injection Hr as <-. rewrite He, Hl. auto.
  - intros Hk. unfold PlantParser.read_rating in Hr. rewrite Hk in Hr.
    injection Hr as <-. rewrite Hl. reflexivity.
  - exact Hn.
  - rewrite Hn. reflexivity.
  - rewrite Hn. vm_compute. reflexivity.
  - intros uid now src entry. apply parse_json_item_plants.
Qed.

(** The theorem at the record of [test_toxic_plant_is_lethal], which
    [PlantParser] keeps: rating 1, level lethal. *)
Lemma C4_plant_safety_levels_witness :
  exists e,
    PlantParser._parse_plant ascii_builtins (JDict Samples.nightshade)
      (lit "plants.json") = Ok (Some e)
    /\ PlantParser.safety_level e = lit "lethal"
    /\ (forall r,
          lookup Samples.nightshade (lit "edibility_rating") = Some (JInt r) ->
          PlantParser.edibility_rating e = Some r
          /\ PlantParser.safety_level e = spec_plant_level (Some r))
    /\ (lookup Samples.nightshade (lit "edibility_rating") = None ->
        PlantParser.safety_level e = lit "danger")
    /\ PlantParser.safety_notes e = PlantParser.PLANT_SAFETY_WARNING
    /\ is_empty (PlantParser.safety_notes e) = false
    /\ contains (lit "SAFETY WARNING") (PlantParser.safety_notes e) = true
    /\ (forall uid now src entry,
          In entry (parse_json_item ascii_builtins uid now Samples.nightshade
                      (lit "plants") src) ->
          safety_level entry = lit "danger"
          /\ safety_notes entry = Some PLANTS_NOTE).
Proof.
  eexists. split; [vm_compute; reflexivity|]. split; [reflexivity|].
  apply (C4_plant_safety_levels ascii_builtins Samples.nightshade
           (lit "plants.json")).
  vm_compute. reflexivity.
Defined.

(** C4, counterexample.  The build turns the record with
    [edibility_rating] 1 into an entry of the category [plants] whose
    safety level is danger, not lethal. *)
Lemma C4_counterexample :
  exists entry,
    lookup Samples.nightshade (lit "edibility_rating") = Some (JInt 1)
    /\ parse_json_item ascii_builtins (lit "0a1b2c3d")
         (lit "2024-01-01T00:00:00+00:00") Samples.nightshade
         (lit "plants") (lit "plants.json") = [entry]
    /\ safety_level entry = lit "danger"
    /\ safety_level entry <> lit "lethal".
Proof.
  eexists. split; [reflexivity|]. split; [vm_compute; reflexivity|].
  split; [reflexivity | discriminate].
Qed.

(** ** Records below the minimum content length *)

Section ShortContent.

Variable B : Builtins.
Variable self : JSONParser.JSONParser.

Lemma parse_json_item_short (uid now : str) (item : dict)
      (category src : str) :
  len (item_content B item) < MIN_CHUNK_SIZE ->
  parse_json_item B uid now item category src = [].
Proof using Type.
  intros H. unfold parse_json_item.
  destruct (Z.ltb_spec (len (item_content B item)) MIN_CHUNK_SIZE);
    [reflexivity | lia].
Qed.

Lemma _parse_item_short (item : dict) (src : str) :
  len (JSONParser.item_content B self item)
    < JSONParser.min_content_length self ->
  JSONParser._parse_item B self item src = None.
Proof.
  unfold JSONParser.item_content, JSONParser._parse_item.
  destruct (JSONParser.collect B self item [] []) as [parts meta].
  cbn [fst]. intros H.
  destruct (Z.ltb_spec (len (join [NL; NL] parts))
              (JSONParser.min_content_length self)); [reflexivity | lia].
Qed.

Lemma _parse_item_kept (item : dict) (src : str) (e : JSONParser.DataEntry) :
  JSONParser._parse_item B self item src = Some e ->
  JSONParser.content e = JSONParser.item_content B self item
  /\ JSONParser.min_content_length self <= len (JSONParser.content e).
Proof.
  unfold JSONParser.item_content, JSONParser._parse_item.
  destruct (JSONParser.collect B self item [] []) as [parts meta].
  cbn [fst].
  destruct (Z.ltb_spec (len (join [NL; NL] parts))
              (JSONParser.min_content_length self)) as [Hlt|Hge];
    [discriminate|].
  intros H. injection H as <-. cbn. auto.
Qed.

(** Fields that make no content block leave the content parts as they
    are. *)
Lemma collect_no_block (item : dict) (parts : list str) (meta : dict) :
  no_content_block (JSONParser.title_fields self) item = true ->
  fst (JSONParser.collect B self item parts meta) = parts.
Proof.
  revert meta. induction item as [|[key value] rest IH]; intros meta;
    [reflexivity|].
  intros H. simpl in H. apply andb_true_iff in H. destruct H as [Hkv Hrest].
  cbn [JSONParser.collect].
  destruct (mem key (JSONParser.title_fields self)); [apply IH, Hrest|].
  simpl in Hkv.
  destruct value as [| b | z | f | s | l | d]; try (apply IH, Hrest).
  - apply negb_true_iff in Hkv. rewrite Hkv. apply IH, Hrest.
  - destruct (JSONParser.all_strings l); [discriminate | apply IH, Hrest].
Qed.

End ShortContent.

(** C6 (as amended). A record whose assembled content, with its field
    labels, is below the minimum content length yields no entry, in the
    build's [parse_json_item] and in [JSONParser] alike.  In particular a
    record none of whose fields makes a content block (its strings have at
    most 20 characters, no list holds strings only) yields no entry from
    a [JSONParser] with a positive minimum.  And an entry that is kept has
    content of at least the minimum length. *)
Theorem C6_short_content_dropped (B : Builtins) (self : JSONParser.JSONParser)
        (item : dict) (src : str) :
  (forall uid now category,
     len (item_content B item) < MIN_CHUNK_SIZE ->
     parse_json_item B uid now item category src = [])
  /\ (len (JSONParser.item_content B self item)
        < JSONParser.min_content_length self ->
      JSONParser._parse_item B self item src = None
      /\ JSONParser.parse_list B self [JDict item] src = [])
  /\ (0 < JSONParser.min_content_length self ->
      no_content_block (JSONParser.title_fields self) item = true ->
      JSONParser.parse_list B self [JDict item] src = [])
  /\ (forall e, JSONParser._parse_item B self item src = Some e ->
                JSONParser.min_content_length self
                  <= len (JSONParser.content e)).
Proof.
  split; [|split; [|split]].
  - intros uid now category H. apply parse_json_item_short, H.
  - intros H. pose proof (_parse_item_short B self item src H) as E.
    split; [exact E|]. unfold JSONParser.parse_list. simpl. rewrite E.
    reflexivity.
  - intros Hmin Hno.
    assert (E : JSONParser._parse_item B self item src = None).
    { apply _parse_item_short. unfold JSONParser.item_content.
      rewrite (collect_no_block B self item [] [] Hno). simpl.
      change (len []) with 0. exact Hmin. }
    unfold JSONParser.parse_list. simpl. rewrite E. reflexivity.
  - intros e H. apply (_parse_item_kept B self item src e H).
Qed.

(** The theorem at a record whose content, one labelled note, is under
    both minimum lengths. *)
Lemma C6_short_content_dropped_witness :
  (forall uid now category,
     parse_json_item ascii_builtins uid now Samples.brief_note category
       (lit "items.json") = [])
  /\ JSONParser._parse_item ascii_builtins JSONParser.default_parser
       Samples.brief_note (lit "items.json") = None
  /\ JSONParser.parse_list ascii_builtins JSONParser.default_parser
       [JDict Samples.brief_note] (lit "items.json") = [].
Proof.
  destruct (C6_short_content_dropped ascii_builtins JSONParser.default_parser
              Samples.brief_note (lit "items.json")) as [H1 [H2 _]].
  split.
  - intros uid now category. apply H1. vm_compute. reflexivity.
  - apply H2. vm_compute. reflexivity.
Defined.

(** The record of the test is dropped: its only string other than the
    title has ten characters. *)
Example too_short_dropped :
  no_content_block (JSONParser.title_fields JSONParser.default_parser)
    Samples.too_short = true
  /\ JSONParser.parse_list ascii_builtins JSONParser.default_parser
       [JDict Samples.too_short] (lit "items.json") = [].
Proof. split; vm_compute; reflexivity. Qed.

(** C6, counterexample.  The only field of the record is a string of 45
    characters, under the minimum content length 50 of the default
    parser; with its label the content has 62 characters and the record
    is kept. *)
Lemma C6_counterexample :
  spec_only_string_field_short
    (JSONParser.min_content_length JSONParser.default_parser)
    Samples.short_description
  /\ exists e,
       JSONParser.parse_list ascii_builtins JSONParser.default_parser
         [JDict Samples.short_description] (lit "items.json") = [e]
       /\ len (JSONParser.content e) = 62.
Proof.
  split.
  - exists (lit "description"),
      (lit "Boil water for one minute before drinking it.").
    split; [reflexivity | vm_compute; reflexivity].
  - eexists. split; vm_compute; reflexivity.
Qed.

(** ** The manifest *)

Import Generated.

Lemma READ_SIZE_positive : (0 < GenerateManifest.READ_SIZE)%nat.
Proof. unfold GenerateManifest.READ_SIZE. lia. Qed.

Lemma firstn_nil_inv (A : Type) (n : nat) (l : list A) :
  (0 < n)%nat -> firstn n l = [] -> l = [].
Proof. destruct n; [lia|]. destruct l; [reflexivity | discriminate]. Qed.

(** The read loop reaches the end of every file and has then fed the hash
    the whole file, in order. *)
Lemma read_loop_whole (fuel : nat) (rest fed : bytes) :
  (length rest < fuel)%nat ->
  GenerateManifest.read_loop fuel rest fed = Some (fed ++ rest).
Proof.
  revert rest fed. induction fuel as [|fuel IH]; intros rest fed H; [lia|].
  cbn [GenerateManifest.read_loop].
  destruct (firstn GenerateManifest.READ_SIZE rest) as [|b chunk] eqn:Hc.
  - apply (firstn_nil_inv _ _ _ READ_SIZE_positive) in Hc. subst rest.
    rewrite app_nil_r. reflexivity.
  - rewrite IH.
    + rewrite <- app_assoc, <- Hc, firstn_skipn. reflexivity.
    + rewrite length_skipn. pose proof READ_SIZE_positive.
      destruct rest; [rewrite firstn_nil in Hc; discriminate|].
      simpl length in *. lia.
Qed.

Section ManifestFacts.

Variable embedding : Type.
Variable sha256_hexdigest : bytes -> str.

(** [calculate_file_hash] returns the digest of the whole file. *)
Lemma calculate_file_hash_whole (file : bytes) :
  GenerateManifest.calculate_file_hash sha256_hexdigest file
  = Some (sha256_hexdigest file).
Proof.
  unfold GenerateManifest.calculate_file_hash.
  rewrite read_loop_whole by lia. reflexivity.
Qed.

Lemma generate_manifest_ok (version source_hash model now : str)
      (d : GeneratedDir embedding) (db_file vectors_file : bytes)
      (db : Database) (rows : BuildIndex.Table)
      (vectors : option (list (Z * embedding))) :
  knowledge_db d = Some (db_file, Some db) ->
  entries db = Some rows ->
  vectors_idx d = Some (vectors_file, vectors) ->
  GenerateManifest.generate_manifest embedding sha256_hexdigest
    version source_hash model now d
  = ({| knowledge_db := knowledge_db d;
        vectors_idx := vectors_idx d;
        manifest_json :=
          Some (Some (JDict (manifest_of sha256_hexdigest version source_hash model now rows
                               db_file vectors_file))) |},
     Ok (JDict (manifest_of sha256_hexdigest version source_hash model now rows
                  db_file vectors_file))).
Proof.
  intros Hdb Hrows Hvec.
  unfold GenerateManifest.generate_manifest,
    GenerateManifest.get_total_entries, GenerateManifest.get_category_counts,
    GenerateManifest.file_entry, select_count, connect.
  rewrite Hdb, Hvec. cbn [bind]. rewrite Hrows.
  rewrite !calculate_file_hash_whole. reflexivity.
Qed.

End ManifestFacts.

(** C8 (as amended). For a generated directory with both artifacts and a
    readable table of entries, [generate_manifest] writes a manifest whose
    [total_entries] is the count a fresh [SELECT COUNT] returns (so
    [verify_manifest] passes), and whose [files] item for each artifact
    records the file's byte size and SHA-256 digest under the fields
    [size_bytes] and [sha256]; computing the hash of the artifact again
    gives the recorded value.  The artifacts are left as they were. *)
Theorem C8_manifest_roundtrip (embedding : Type)
        (sha256_hexdigest : bytes -> str)
        (version source_hash model now : str)
        (d : GeneratedDir embedding) (db_file vectors_file : bytes)
        (db : Database) (rows : BuildIndex.Table)
        (vectors : option (list (Z * embedding))) :
  knowledge_db d = Some (db_file, Some db) ->
  entries db = Some rows ->
  vectors_idx d = Some (vectors_file, vectors) ->
  exists d' m files,
    GenerateManifest.generate_manifest embedding sha256_hexdigest
      version source_hash model now d = (d', Ok (JDict m))
    /\ knowledge_db d' = knowledge_db d
    /\ vectors_idx d' = vectors_idx d
    /\ manifest_json d' = Some (Some (JDict m))
    /\ lookup m (lit "total_entries") = Some (JInt (count_entries rows))
    /\ select_count d' = Ok (count_entries rows)
    /\ fst (VerifyIndex.verify_manifest embedding d') = true
    /\ lookup m (lit "files") = Some (JDict files)
    /\ lookup files (lit "knowledge.db")
       = Some (JDict [ (lit "size_bytes", JInt (Z.of_nat (length db_file)));
                       (lit "sha256", JStr (sha256_hexdigest db_file)) ])
    /\ lookup files (lit "vectors.idx")
       = Some (JDict [ (lit "size_bytes",
                         JInt (Z.of_nat (length vectors_file)));
                       (lit "sha256",
                         JStr (sha256_hexdigest vectors_file)) ])
    /\ GenerateManifest.calculate_file_hash sha256_hexdigest db_file
       = Some (sha256_hexdigest db_file)
    /\ GenerateManifest.calculate_file_hash sha256_hexdigest vectors_file
       = Some (sha256_hexdigest vectors_file).
Proof.
  intros Hdb Hrows Hvec.
  do 3 eexists. split.
  { apply (generate_manifest_ok embedding sha256_hexdigest version
             source_hash model now d db_file vectors_file db rows vectors);
      assumption. }
  assert (Hcount : select_count
                     {| knowledge_db := knowledge_db d;
                        vectors_idx := vectors_idx d;
                        manifest_json :=
                          Some (Some (JDict (manifest_of sha256_hexdigest
                                               version source_hash model now
                                               rows db_file vectors_file))) |}
                   = Ok (count_entries rows)).
  { unfold select_count, connect. cbn [knowledge_db]. rewrite Hdb.
    cbn [bind]. rewrite Hrows. reflexivity. }
  split; [reflexivity|]. split; [reflexivity|]. split; [reflexivity|].
  split; [reflexivity|]. split; [exact Hcount|]. split.
  { unfold VerifyIndex.verify_manifest. cbn [manifest_json].
    change (VerifyIndex.first_missing _ _)
      with (@Ok (option str) None).
    cbv beta iota. rewrite Hcount.
    change (get (manifest_of sha256_hexdigest version source_hash model now
                   rows db_file vectors_file) (lit "total_entries"))
      with (JInt (count_entries rows)).
    unfold VerifyIndex.differs_from_int. rewrite Z.eqb_refl. reflexivity. }
  split; [reflexivity|]. split; [reflexivity|]. split; [reflexivity|].
  split; apply calculate_file_hash_whole.
Qed.

(** The theorem at the sample directory. *)
Lemma C8_manifest_roundtrip_witness :
  exists d' m files,
    GenerateManifest.generate_manifest Z Samples.toy_digest
      (lit "1.0.0") (lit "unknown") (lit "all-MiniLM-L6-v2")
      (lit "2024-01-01T00:00:00+00:00") Samples.sample_dir
    = (d', Ok (JDict m))
    /\ knowledge_db d' = knowledge_db Samples.sample_dir
    /\ vectors_idx d' = vectors_idx Samples.sample_dir
    /\ manifest_json d' = Some (Some (JDict m))
    /\ lookup m (lit "total_entries") = Some (JInt 2)
    /\ select_count d' = Ok 2
    /\ fst (VerifyIndex.verify_manifest Z d') = true
    /\ lookup m (lit "files") = Some (JDict files)
    /\ lookup files (lit "knowledge.db")
       = Some (JDict [ (lit "size_bytes", JInt 6);
                       (lit "sha256",
                         JStr (Samples.toy_digest Samples.sample_db_bytes)) ])
    /\ lookup files (lit "vectors.idx")
       = Some (JDict [ (lit "size_bytes", JInt 4);
                       (lit "sha256",
                         JStr (Samples.toy_digest Samples.sample_index_bytes)) ])
    /\ GenerateManifest.calculate_file_hash Samples.toy_digest
         Samples.sample_db_bytes
       = Some (Samples.toy_digest Samples.sample_db_bytes)
    /\ GenerateManifest.calculate_file_hash Samples.toy_digest
         Samples.sample_index_bytes
       = Some (Samples.toy_digest Samples.sample_index_bytes).
Proof.
  apply (C8_manifest_roundtrip Z Samples.toy_digest
           (lit "1.0.0") (lit "unknown") (lit "all-MiniLM-L6-v2")
           (lit "2024-01-01T00:00:00+00:00") Samples.sample_dir
           Samples.sample_db_bytes Samples.sample_index_bytes
           Samples.sample_database
           [ {| rowid := 1; entry := Samples.map_entry |};
             {| rowid := 2; entry := Samples.fire_entry |} ]
           (Some [(1, 43); (2, 47)])); reflexivity.
Defined.

(** C8, counterexample.  Whatever the hash function, the manifest of the
    sample directory has no field [content_hash] for [knowledge.db]: the
    digest is recorded under [sha256]. *)
Lemma C8_counterexample :
  ~ exists (sha256_hexdigest : bytes -> str) (m : dict),
      snd (GenerateManifest.generate_manifest Z sha256_hexdigest
             (lit "1.0.0") (lit "unknown") (lit "all-MiniLM-L6-v2")
             (lit "2024-01-01T00:00:00+00:00") Samples.sample_dir)
      = Ok (JDict m)
      /\ spec_files_entry m (lit "knowledge.db")
           (Z.of_nat (length Samples.sample_db_bytes))
           (sha256_hexdigest Samples.sample_db_bytes).
Proof.
  intros [sha [m [Hm [files [e [Hf [He [_ Hh]]]]]]]].
  rewrite (generate_manifest_ok Z sha _ _ _ _ Samples.sample_dir
             Samples.sample_db_bytes Samples.sample_index_bytes
             Samples.sample_database
             [ {| rowid := 1; entry := Samples.map_entry |};
               {| rowid := 2; entry := Samples.fire_entry |} ]
             (Some [(1, 43); (2, 47)]) eq_refl eq_refl eq_refl) in Hm.
  cbn [snd] in Hm. injection Hm as <-.
  change (lookup (manifest_of _ _ _ _ _ _ _ _) (lit "files"))
    with (Some (JDict
                  [ (lit "knowledge.db",
                      JDict [ (lit "size_bytes",
                                JInt (Z.of_nat (length Samples.sample_db_bytes)));
                              (lit "sha256",
                                JStr (sha Samples.sample_db_bytes)) ]);
                    (lit "vectors.idx",
                      JDict [ (lit "size_bytes",
                                JInt (Z.of_nat
                                        (length Samples.sample_index_bytes)));
                              (lit "sha256",
                                JStr (sha Samples.sample_index_bytes)) ]) ]))
    in Hf.
  injection Hf as <-.
  change (lookup _ (lit "knowledge.db"))
    with (Some (JDict
                  [ (lit "size_bytes",
                      JInt (Z.of_nat (length Samples.sample_db_bytes)));
                    (lit "sha256", JStr (sha Samples.sample_db_bytes)) ]))
    in He.
  injection He as <-.
  change (lookup _ (lit "content_hash")) with (@None json) in Hh.
  discriminate.
Qed.

(** ** Verification *)

(** One turn of the loop is done: the rest of the loop runs with
    [all_passed] as it now stands and one more [line] reported. *)
Ltac next_query IH passed line :=
  match goal with
  | |- context [VerifyIndex.search_loop _ _ _ _ _ _ _ (?results ++ _)] =>
      specialize (IH passed (results ++ [line]));
      destruct (VerifyIndex.search_loop _ _ _ _ _ _ _ _) as [r|e];
      [ destruct IH as [Ha ->]; split; [exact Ha|];
        rewrite ?andb_false_r, <- app_assoc; reflexivity
      | exact IH ]
  end.

Section VerifyFacts.

Variable embedding : Type.
Variable model : option (str -> embedding).
Variable knn_query :
  list (Z * embedding) -> embedding -> result (list (list Z)).

(** The loop over the test queries: it raises when a search raises, and
    otherwise reports one line for each query and fails exactly for the
    queries whose label names no row.  The category of the row is in the
    line only. *)
Lemma search_loop_spec (encode : str -> embedding) (db : Database)
      (rows : BuildIndex.Table) (its : list (Z * embedding))
      (queries : list (str * str)) (passed : bool)
      (results : list VerifyIndex.search_line) :
  entries db = Some rows ->
  match VerifyIndex.search_loop embedding knn_query encode (Ok db) its
          queries passed results with
  | Ok r =>
      forallb (answers knn_query encode its) queries = true
      /\ r = (passed && forallb (resolves knn_query encode its rows) queries,
              results ++ map (line_of knn_query encode its rows) queries)
  | Raise _ => forallb (answers knn_query encode its) queries = false
  end.
Proof using Type.
  intros Hrows. revert passed results.
  induction queries as [|[query expected] rest IH]; intros passed results.
  - simpl. rewrite andb_true_r, app_nil_r. auto.
  - cbn [VerifyIndex.search_loop forallb map].
    unfold answers at 1 3, resolves at 1, line_of at 1. cbn [fst snd].
    destruct (knn_query its (encode query)) as [labels|e]; cbn [bind];
      [|reflexivity].
    destruct labels as [|[|label more] others].
    + next_query IH false (VerifyIndex.NoResults query).
    + next_query IH false (VerifyIndex.NoResults query).
    + rewrite Hrows.
      destruct (VerifyIndex.select_category rows label) as [actual|].
      * destruct (str_eqb actual expected).
        -- next_query IH passed (VerifyIndex.Passed query actual).
        -- next_query IH passed (VerifyIndex.Warned query actual expected).
      * next_query IH false (VerifyIndex.EntryNotFound query label).
Qed.

Section LoadedDir.

Variable d : GeneratedDir embedding.
Variable encode : str -> embedding.
Variable file : bytes.
Variable its : list (Z * embedding).
Variable db : Database.
Variable rows : BuildIndex.Table.

Hypothesis model_loads : model = Some encode.
Hypothesis index_loads : vectors_idx d = Some (file, Some its).
Hypothesis db_opens : connect d = Ok db.
Hypothesis table_there : entries db = Some rows.



End LoadedDir.




End VerifyFacts.


(** The tampered directory under the stand-in model and search: every
    query lands on row 1, of the category [navigation], so four of the
    five lines are warnings, and the verification passes. *)
Example tampered_dir_search :
  VerifyIndex.verify_search Z (Some Samples.toy_embed) Samples.toy_knn
    Samples.tampered_dir
  = (true,
     [ VerifyIndex.Warned (lit "how to start a fire without matches")
         (lit "navigation") (lit "survival");
       VerifyIndex.Passed (lit "reading a topographic map")
         (lit "navigation");
       VerifyIndex.Warned (lit "treating a bleeding wound")
         (lit "navigation") (lit "first_aid");
       VerifyIndex.Warned (lit "tying a bowline knot")
         (lit "navigation") (lit "knots");
       VerifyIndex.Warned (lit "identifying cloud types")
         (lit "navigation") (lit "weather") ]).
Proof. vm_compute. reflexivity. Qed.



(* ================================================================== *)
(** * Part III: further properties of the scripts *)
(* ================================================================== *)

(** ** The shape of cleaned text *)

Lemma collapsed_no_adjacent (p : char -> bool) (s : str) :
  collapsed p s = true -> no_adjacent p s = true.
Proof.
  induction s as [|c r IH]; simpl; [reflexivity|].
  intros H. apply andb_true_iff in H. destruct H as [Hl Hr].
  rewrite (IH Hr), andb_true_r.
  destruct (p c); [|reflexivity].
  apply andb_true_iff in Hl. destruct Hl as [_ Hh]. exact Hh.
Qed.

Lemma collapsed_only_space (p : char -> bool) (s : str) (c : char) :
  collapsed p s = true -> In c s -> p c = true -> c = SP.
Proof.
  induction s as [|d r IH]; simpl; [tauto|].
  intros H Hin Hc. apply andb_true_iff in H. destruct H as [Hl Hr].
  destruct Hin as [-> | Hin]; [|exact (IH Hr Hin Hc)].
  rewrite Hc in Hl. apply andb_true_iff in Hl. destruct Hl as [Hsp _].
  apply N.eqb_eq in Hsp. exact Hsp.
Qed.

Lemma collapsed_blank_no_tab (s : str) :
  collapsed isblank s = true -> free_of is_tab s = true.
Proof.
  intros H. unfold free_of. apply forallb_forall. intros c Hin.
  destruct (is_tab c) eqn:Ht; [|reflexivity].
  unfold is_tab in Ht. apply N.eqb_eq in Ht. subst c.
  pose proof (collapsed_only_space isblank s 9%N H Hin eq_refl) as E.
  discriminate.
Qed.

Lemma rstrip_last_not_space (s : str) :
  head_is isspace (rev (rstrip s)) = false.
Proof.
  induction s as [|c r IH]; [reflexivity|].
  simpl rstrip. destruct (rstrip r) as [|d r'] eqn:Hr.
  - destruct (isspace c) eqn:Hc; [reflexivity | simpl; exact Hc].
  - change (rev (c :: d :: r')) with (rev (d :: r') ++ [c]).
    destruct (rev (d :: r')) as [|x y] eqn:Hrev.
    + apply (f_equal (@length char)) in Hrev. rewrite length_rev in Hrev.
      discriminate.
    + simpl. simpl in IH. exact IH.
Qed.

Lemma strip_trimmed (s : str) : trimmed (strip s).
Proof.
  unfold trimmed, strip. split.
  - apply head_space_rstrip, head_space_lstrip.
  - apply rstrip_last_not_space.
Qed.

(** X1. What the cleaners return.  [PDFParser._clean_text] returns text
    with no carriage return and no tab, no two adjacent blanks, no three
    newlines in a row and no whitespace at either end.  [clean_text] of
    the build script returns text whose only whitespace character is the
    space, never two in a row and none at either end. *)
Theorem cleaned_text_normal_form (x : str) :
  (free_of is_cr (PDFParser._clean_text x) = true
   /\ free_of is_tab (PDFParser._clean_text x) = true
   /\ no_adjacent isblank (PDFParser._clean_text x) = true
   /\ nl3_free (PDFParser._clean_text x) = true
   /\ trimmed (PDFParser._clean_text x))
  /\ ((forall c, In c (BuildIndex.clean_text x) -> isspace c = true -> c = SP)
      /\ no_adjacent isspace (BuildIndex.clean_text x) = true
      /\ trimmed (BuildIndex.clean_text x)).
Proof.
  split.
  - destruct (_clean_text_shape x) as [Hc [Hr [Hn Hs]]].
    repeat split; try assumption.
    + apply collapsed_blank_no_tab, Hc.
    + apply collapsed_no_adjacent, Hc.
    + unfold PDFParser._clean_text. apply strip_trimmed.
    + unfold PDFParser._clean_text. apply strip_trimmed.
  - destruct (clean_text_shape x) as [Hc [Hn Hs]].
    repeat split.
    + intros c. apply collapsed_only_space, Hc.
    + apply collapsed_no_adjacent, Hc.
    + unfold BuildIndex.clean_text. apply strip_trimmed.
    + unfold BuildIndex.clean_text. apply strip_trimmed.
Qed.

(** ** Pages and chunks of a PDF file *)

Lemma extract_text_from_spec (k : Z) (pages : list str) (name : str) :
  Forall (fun c => is_empty (PDFParser.text c) = false
                   /\ PDFParser._clean_text (PDFParser.text c) = PDFParser.text c
                   /\ k < PDFParser.page_number c <= k + Z.of_nat (length pages)
                   /\ PDFParser.source_file c = name)
         (PDFParser.extract_text_from k pages name)
  /\ StronglySorted Z.lt
       (map PDFParser.page_number (PDFParser.extract_text_from k pages name))
  /\ (length (PDFParser.extract_text_from k pages name) <= length pages)%nat.
Proof.
  revert k. induction pages as [|page rest IH]; intros k.
  - simpl. repeat split; constructor.
  - destruct (IH (k + 1)) as [Hall [Hsorted Hlen]].
    assert (Hshift : Forall
                       (fun c => is_empty (PDFParser.text c) = false
                                 /\ PDFParser._clean_text (PDFParser.text c)
                                    = PDFParser.text c
                                 /\ k < PDFParser.page_number c
                                      <= k + Z.of_nat (length (page :: rest))
                                 /\ PDFParser.source_file c = name)
                       (PDFParser.extract_text_from (k + 1) rest name)).
    { eapply Forall_impl; [|exact Hall]. cbv beta.
      intros c [H1 [H2 [H3 H4]]]. simpl length. repeat split; auto; lia. }
    cbn [PDFParser.extract_text_from].
    destruct (is_empty (PDFParser._clean_text page)) eqn:He; cbn [negb].
    + repeat split; [exact Hshift | exact Hsorted | simpl; lia].
    + repeat split.
      * constructor; [|exact Hshift]. cbn.
        simpl length.
        repeat split; auto; try lia. apply _clean_text_idempotent.
      * cbn [map PDFParser.page_number]. constructor; [exact Hsorted|].
        apply Forall_forall. intros p Hp. apply in_map_iff in Hp.
        destruct Hp as [c [<- Hc]].
        pose proof (proj1 (Forall_forall _ _) Hall c Hc) as [_ [_ [Hlt _]]].
        lia.
      * simpl. lia.
Qed.

(** The chunks are those of the pages whose cleaned text is not empty:
    the cleaned text of the page, under its number. *)
Lemma extract_text_from_pages (k : Z) (pages : list str) (name : str)
      (c : PDFParser.TextChunk) :
  In c (PDFParser.extract_text_from k pages name)
  <-> exists i page,
        nth_error pages i = Some page
        /\ is_empty (PDFParser._clean_text page) = false
        /\ c = {| PDFParser.text := PDFParser._clean_text page;
                  PDFParser.page_number := k + Z.of_nat i + 1;
                  PDFParser.source_file := name |}.
Proof.
  revert k. induction pages as [|page rest IH]; intros k.
  - simpl. split; [intros [] | intros [[|i] [p [H _]]]; discriminate].
  - assert (Hrest : In c (PDFParser.extract_text_from (k + 1) rest name)
                    <-> exists i p,
                          nth_error (page :: rest) (S i) = Some p
                          /\ is_empty (PDFParser._clean_text p) = false
                          /\ c = {| PDFParser.text := PDFParser._clean_text p;
                                    PDFParser.page_number
                                      := k + Z.of_nat (S i) + 1;
                                    PDFParser.source_file := name |}).
    { rewrite (IH (k + 1)). split; intros [i [p [Hn [He Hc]]]];
        exists i, p; (split; [exact Hn|]); (split; [exact He|]);
        rewrite Hc; f_equal; lia. }
    cbn [PDFParser.extract_text_from].
    destruct (is_empty (PDFParser._clean_text page)) eqn:He; cbn [negb].
    + rewrite Hrest. split.
      * intros [i [p H]]. exists (S i), p. exact H.
      * intros [[|i] [p [Hn [Hp Hc]]]].
        -- simpl in Hn. injection Hn as <-. congruence.
        -- exists i, p. auto.
    + cbn [In]. rewrite Hrest. split.
      * intros [<- | [i [p H]]].
        -- exists 0%nat, page. split; [reflexivity|]. split; [exact He|].
           f_equal. simpl. lia.
        -- exists (S i), p. exact H.
      * intros [[|i] [p [Hn [Hp Hc]]]].
        -- left. simpl in Hn. injection Hn as <-. rewrite Hc.
           f_equal. simpl. lia.
        -- right. exists i, p. auto.
Qed.

(** X2. [PDFParser.extract_text] yields one chunk for every page whose
    cleaned text is not empty and none for the others: a chunk is
    yielded exactly when it is the cleaned text of such a page, under the
    number of the page (counted from 1) and the file name, and the chunks
    come in the order of their pages, each page once.  So the text of
    each chunk is clean and not empty and the page numbers lie between 1
    and the number of pages. *)
Theorem extract_text_pages (pages : list str) (name : str) :
  (forall c,
     In c (PDFParser.extract_text pages name)
     <-> exists i page,
           nth_error pages i = Some page
           /\ is_empty (PDFParser._clean_text page) = false
           /\ c = {| PDFParser.text := PDFParser._clean_text page;
                     PDFParser.page_number := Z.of_nat i + 1;
                     PDFParser.source_file := name |})
  /\ StronglySorted Z.lt
       (map PDFParser.page_number (PDFParser.extract_text pages name))
  /\ Forall (fun c => is_empty (PDFParser.text c) = false
                      /\ PDFParser._clean_text (PDFParser.text c)
                         = PDFParser.text c
                      /\ 1 <= PDFParser.page_number c
                           <= Z.of_nat (length pages)
                      /\ PDFParser.source_file c = name)
       (PDFParser.extract_text pages name)
  /\ (length (PDFParser.extract_text pages name) <= length pages)%nat.
Proof.
  destruct (extract_text_from_spec 0 pages name) as [Hall [Hs Hl]].
  unfold PDFParser.extract_text.
  split; [|split; [exact Hs | split; [|exact Hl]]].
  - intros c. apply (extract_text_from_pages 0 pages name c).
  - eapply Forall_impl; [|exact Hall]. cbv beta.
    intros c [H1 [H2 [H3 H4]]]. repeat split; auto; lia.
Qed.

(** A document of three pages, the second without text. *)
Example extract_text_skips_blank_page :
  PDFParser.extract_text [lit "First  page"; [SP; NL]; lit "Third"]
    (lit "guide.pdf")
  = [ {| PDFParser.text := lit "First page";
         PDFParser.page_number := 1;
         PDFParser.source_file := lit "guide.pdf" |};
      {| PDFParser.text := lit "Third";
         PDFParser.page_number := 3;
         PDFParser.source_file := lit "guide.pdf" |} ].
Proof. vm_compute. reflexivity. Qed.

(** The page a chunk is given is page 1 or one of the pages of the
    positions. *)
Lemma fold_page_choice (start : Z) (positions : list (Z * Z)) (init : Z) :
  let page := fold_left (fun page_number p =>
                           if start >=? fst p then snd p else page_number)
                        positions init in
  page = init \/ In page (map snd positions).
Proof.
  revert init. induction positions as [|p rest IH]; intros init; simpl.
  - left. reflexivity.
  - destruct (IH (if start >=? fst p then snd p else init)) as [H | H].
    + rewrite H. destruct (start >=? fst p); [right; left|left]; reflexivity.
    + right. right. exact H.
Qed.

Lemma combine_pages_numbers (k : Z) (pages : list str) (all_text : str)
      (positions : list (Z * Z)) :
  Forall (fun p => 1 <= p <= k) (map snd positions) -> 0 <= k ->
  Forall (fun p => 1 <= p <= k + Z.of_nat (length pages))
    (map snd (snd (PDFParser.combine_pages k pages all_text positions))).
Proof.
  revert k all_text positions.
  induction pages as [|text rest IH]; intros k all_text positions H Hk.
  - simpl. eapply Forall_impl; [|exact H]. cbv beta. intros p Hp. lia.
  - cbn [PDFParser.combine_pages].
    assert (H' : Forall (fun p => 1 <= p <= k + 1)
                   (map snd (positions ++ [(len all_text, k + 1)]))).
    { rewrite map_app. apply Forall_app. split.
      - eapply Forall_impl; [|exact H]. cbv beta. intros p Hp. lia.
      - repeat constructor; simpl; lia. }
    specialize (IH (k + 1) (all_text ++ [NL; NL] ++ text) _ H').
    eapply Forall_impl; [|apply IH; lia]. cbv beta. intros p Hp.
    simpl length. lia.
Qed.

(** X3. [PDFParser.extract_chunks]: every chunk has at least
    [min_chunk_size] characters, carries the file name, and is given a
    page number between 1 and the number of pages (1 when the document
    has no page); a document without pages yields no chunk. *)
Theorem extract_chunks_pages (chunk_size chunk_overlap min_chunk_size : Z)
        (pages : list str) (name : str) :
  Forall (fun c => min_chunk_size <= len (PDFParser.text c)
                   /\ 1 <= PDFParser.page_number c <= Z.max 1 (Z.of_nat (length pages))
                   /\ PDFParser.source_file c = name)
         (PDFParser.extract_chunks chunk_size chunk_overlap min_chunk_size
            pages name)
  /\ PDFParser.extract_chunks chunk_size chunk_overlap min_chunk_size [] name
     = [].
Proof.
  split.
  - unfold PDFParser.extract_chunks.
    pose proof (combine_pages_numbers 0 pages [] []) as Hnum.
    destruct (PDFParser.combine_pages 0 pages [] []) as [all_text positions].
    cbn [snd] in Hnum.
    assert (Hmin : Forall (fun c => min_chunk_size <= len c)
                     (PDFParser._chunk_text chunk_size chunk_overlap
                        min_chunk_size (PDFParser._clean_text all_text))).
    { unfold PDFParser._chunk_text.
      destruct (len _ <? min_chunk_size);
        [constructor | apply pdf_chunk_loop_min]. }
    apply Forall_map. eapply Forall_impl; [|exact Hmin]. cbv beta.
    intros chunk Hc.
    cbn [PDFParser.text PDFParser.page_number PDFParser.source_file].
    split; [exact Hc|]. split; [|reflexivity].
    pose proof (fold_page_choice
                  (str_find (firstn 50 chunk) (PDFParser._clean_text all_text))
                  positions 1) as Hp.
    cbv zeta in Hp. unfold PDFParser.page_of.
    destruct Hp as [E | Hin]; [rewrite E; lia|].
    pose proof (proj1 (Forall_forall _ _)
                  (Hnum (Forall_nil _) (Z.le_refl 0)) _ Hin) as Hb.
    cbv beta in Hb. lia.
  - unfold PDFParser.extract_chunks.
    cbn [PDFParser.combine_pages].
    assert (E : PDFParser._chunk_text chunk_size chunk_overlap min_chunk_size
                  (PDFParser._clean_text []) = []).
    { unfold PDFParser._chunk_text.
      destruct (len (PDFParser._clean_text []) <? min_chunk_size);
        reflexivity. }
    rewrite E. reflexivity.
Qed.

(** ** Titles *)

Lemma split_lines_no_newline (s : str) :
  Forall (fun line => free_of is_nl line = true) (split_lines s).
Proof.
  induction s as [|c r IH]; simpl.
  - repeat constructor.
  - destruct (is_nl c) eqn:Hc.
    + constructor; [reflexivity | exact IH].
    + destruct (split_lines r) as [|line rest]; simpl.
      * repeat constructor. simpl. rewrite Hc. reflexivity.
      * inversion IH; subst. constructor; [|assumption].
        simpl. rewrite Hc. assumption.
Qed.

Lemma free_of_firstn (q : char -> bool) (n : nat) (s : str) :
  free_of q s = true -> free_of q (firstn n s) = true.
Proof.
  intros H. apply (free_of_prefix q (firstn n s) (skipn n s)).
  rewrite firstn_skipn. exact H.
Qed.

Section TitleFacts.

Variable B : Builtins.
Variable is_digit : char -> bool.

Lemma title_of_lines_bounds (lines : list str) (max_length : Z) :
  14 <= max_length ->
  Forall (fun line => free_of is_nl line = true) lines ->
  10 <= len (title_of_lines B is_digit lines max_length) <= max_length
  /\ free_of is_nl (title_of_lines B is_digit lines max_length) = true.
Proof using Type.
  intros Hmax. induction lines as [|line rest IH]; intros Hfree.
  - simpl. change (len (lit "Untitled Entry")) with 14. split; [lia|reflexivity].
  - inversion Hfree as [|? ? Hline Hrest]; subst.
    cbn [title_of_lines].
    destruct (Z.ltb_spec (len (strip line)) 10) as [Hshort|Hlong];
      [exact (IH Hrest)|].
    destruct (is_page_number is_digit (str_lower B (strip line)));
      [exact (IH Hrest)|].
    pose proof (strip_keeps_free is_nl line Hline) as Hstrip.
    destruct (Z.gtb_spec (len (strip line)) max_length) as [Hover|Hfits].
    + unfold slice_to.
      destruct (Z.ltb_spec (max_length - 3) 0) as [Hneg|_]; [lia|].
      split.
      * rewrite len_app. change (len (lit "...")) with 3.
        unfold len in *. rewrite length_firstn. lia.
      * unfold free_of. rewrite forallb_app.
        fold (free_of is_nl (firstn (Z.to_nat (max_length - 3)) (strip line))).
        rewrite free_of_firstn by exact Hstrip. reflexivity.
    + split; [lia | exact Hstrip].
Qed.

Lemma extract_title_bounds (text : str) (max_length : Z) :
  14 <= max_length ->
  10 <= len (extract_title_from_text B is_digit text max_length) <= max_length
  /\ free_of is_nl (extract_title_from_text B is_digit text max_length) = true.
Proof using Type.
  intros Hmax. unfold extract_title_from_text.
  apply title_of_lines_bounds; [exact Hmax | apply split_lines_no_newline].
Qed.

End TitleFacts.

(** X4. For a maximum length of at least 14, the title
    [extract_title_from_text] returns has between 10 and [max_length]
    characters and no newline, whatever the text: it is a stripped line
    of at least 10 characters, such a line cut to [max_length] with three
    dots at its end, or the placeholder of 14 characters. *)
Theorem extract_title_length (B : Builtins) (is_digit : char -> bool)
        (text : str) (max_length : Z) :
  14 <= max_length ->
  10 <= len (extract_title_from_text B is_digit text max_length) <= max_length
  /\ free_of is_nl (extract_title_from_text B is_digit text max_length) = true.
Proof. apply extract_title_bounds. Qed.

(** A text with a page-number line, a short line and a long line. *)
Example title_skips_page_numbers :
  extract_title_from_text ascii_builtins
    (fun c => ((48 <=? c) && (c <=? 57))%N)
    (lit "Page   123" ++ [NL] ++ lit "Intro" ++ [NL]
       ++ lit "  How to build a shelter  " ++ [NL] ++ lit "More text here")
    100
  = lit "How to build a shelter".
Proof. vm_compute. reflexivity. Qed.

(** The theorem at the default maximum of 100 and a text of one long
    line. *)
Lemma extract_title_length_witness :
  10 <= len (extract_title_from_text ascii_builtins (fun _ => false)
               (repeat 97%N 300) 100) <= 100
  /\ free_of is_nl (extract_title_from_text ascii_builtins (fun _ => false)
                      (repeat 97%N 300) 100) = true.
Proof.
  apply (extract_title_length ascii_builtins (fun _ => false)
           (repeat 97%N 300) 100).
  lia.
Defined.

(** ** PDF files in the build *)

Lemma read_pages_spec (k : Z) (pages : list str) (all_text : str)
      (breaks : list (Z * Z)) :
  fst (read_pages k pages all_text breaks)
  = all_text ++ flat_map (fun p => NL :: NL :: p) pages
  /\ (Forall (fun p => 1 <= p <= k) (map snd breaks) -> 0 <= k ->
      Forall (fun p => 1 <= p <= k + Z.of_nat (length pages))
        (map snd (snd (read_pages k pages all_text breaks)))).
Proof.
  revert k all_text breaks.
  induction pages as [|text rest IH]; intros k all_text breaks.
  - simpl. rewrite app_nil_r. split; [reflexivity|].
    intros H Hk. eapply Forall_impl; [|exact H]. cbv beta. intros p Hp. lia.
  - cbn [read_pages].
    destruct (IH (k + 1) (all_text ++ [NL; NL] ++ text)
                (breaks ++ [(len all_text, k + 1)])) as [Ht Hn].
    split.
    + rewrite Ht. simpl. rewrite <- app_assoc. reflexivity.
    + intros H Hk.
      assert (H' : Forall (fun p => 1 <= p <= k + 1)
                     (map snd (breaks ++ [(len all_text, k + 1)]))).
      { rewrite map_app. apply Forall_app. split.
        - eapply Forall_impl; [|exact H]. cbv beta. intros p Hp. lia.
        - repeat constructor; simpl; lia. }
      eapply Forall_impl; [|apply Hn; [exact H' | lia]]. cbv beta.
      intros p Hp. simpl length. lia.
Qed.

(** X5. [parse_pdf] yields at most one entry for a PDF file: none when
    the file cannot be opened or the cleaned text of the whole document
    has fewer than [MIN_CHUNK_SIZE] characters, and otherwise exactly one,
    whose content is that cleaned text.  The entry has the category of
    the directory and its default safety level, a title of 10 to 100
    characters and a source page between 1 and the number of pages. *)
Theorem parse_pdf_single_entry (B : Builtins) (is_digit : char -> bool)
        (fresh : nat -> str * str) (n : nat) (pages : list str)
        (name stem cat : str) :
  parse_pdf B is_digit fresh n None name stem cat = []
  /\ map (fun e => (id e, content e))
       (parse_pdf B is_digit fresh n (Some pages) name stem cat)
     = (if len (clean_text (flat_map (fun p => NL :: NL :: p) pages))
             <? MIN_CHUNK_SIZE
        then []
        else [(fst (fresh n),
               clean_text (flat_map (fun p => NL :: NL :: p) pages))])
  /\ Forall (fun e =>
               category e = cat
               /\ safety_level e = category_safety cat
               /\ source_file e = Some name
               /\ 10 <= len (title e) <= 100
               /\ exists page,
                    source_page e = Some page
                    /\ 1 <= page <= Z.max 1 (Z.of_nat (length pages)))
       (parse_pdf B is_digit fresh n (Some pages) name stem cat).
Proof.
  split; [reflexivity|].
  unfold parse_pdf.
  destruct (read_pages_spec 0 pages [] []) as [Ht Hn].
  destruct (read_pages 0 pages [] []) as [all_text breaks].
  cbn [fst snd] in Ht, Hn. simpl in Ht. subst all_text.
  set (all_text := flat_map (fun p => NL :: NL :: p) pages) in *.
  destruct (chunk_text_single all_text CHUNK_SIZE CHUNK_OVERLAP) as [_ Hc].
  rewrite Hc.
  destruct (len (clean_text all_text) <? MIN_CHUNK_SIZE);
    [split; [reflexivity | constructor]|].
  split; [reflexivity|].
  cbn [pdf_entries]. constructor; [|constructor].
  cbn [category safety_level source_file title source_page].
  split; [reflexivity|]. split; [reflexivity|]. split; [reflexivity|].
  split.
  - apply (extract_title_bounds B is_digit (clean_text all_text) 100). lia.
  - eexists. split; [reflexivity|].
    pose proof (fold_page_choice
                  (str_find (firstn 50 (clean_text all_text)) all_text)
                  breaks 1) as Hp.
    cbv zeta in Hp. unfold source_page_of.
    destruct Hp as [E | Hin]; [rewrite E; lia|].
    pose proof (proj1 (Forall_forall _ _)
                  (Hn (Forall_nil _) (Z.le_refl 0)) _ Hin) as Hb.
    cbv beta in Hb. lia.
Qed.

(** ** The generic JSON parser *)

Lemma set_Forall (V : Type) (Q : str * V -> Prop) (d : list (str * V))
      (key : str) (v : V) :
  Forall Q d -> Q (key, v) -> Forall Q (set d key v).
Proof.
  intros Hd Hq. induction d as [|[k w] rest IH]; simpl.
  - constructor; [exact Hq | constructor].
  - inversion Hd as [|? ? Hk Hrest]; subst.
    destruct (str_eqb k key) eqn:E.
    + apply str_eqb_eq in E. subst k. constructor; assumption.
    + constructor; [assumption | apply IH; assumption].
Qed.

(** Induction on a JSON value, with the property for the items of a
    list and for the values of an object. *)
Lemma json_nested_ind (P : json -> Prop) :
  P JNull ->
  (forall b, P (JBool b)) ->
  (forall z, P (JInt z)) ->
  (forall f, P (JFloat f)) ->
  (forall s, P (JStr s)) ->
  (forall l, Forall P l -> P (JList l)) ->
  (forall d, Forall (fun kv => P (snd kv)) d -> P (JDict d)) ->
  forall v, P v.
Proof.
  intros HN HB HI HF HS HL HD. fix IH 1.
  intros [| b | z | f | s | l | d].
  - exact HN.
  - apply HB.
  - apply HI.
  - apply HF.
  - apply HS.
  - apply HL. revert l. fix IHl 1.
    intros [|x r]; constructor; [apply IH | apply IHl].
  - apply HD. revert d. fix IHd 1.
    intros [|[k x] r]; constructor; [apply IH | apply IHd].
Qed.

Section JSONParserFacts.

Variable B : Builtins.
Variable self : JSONParser.JSONParser.

Lemma _parse_item_entry (item : dict) (src : str) (e : JSONParser.DataEntry) :
  JSONParser._parse_item B self item src = Some e ->
  JSONParser.min_content_length self <= len (JSONParser.content e)
  /\ is_empty (JSONParser.title e) = false
  /\ JSONParser.source_file e = src.
Proof using Type.
  unfold JSONParser._parse_item.
  destruct (JSONParser.collect B self item [] []) as [parts meta].
  destruct (Z.ltb_spec (len (join [NL; NL] parts))
              (JSONParser.min_content_length self)) as [Hlt|Hge];
    [discriminate|].
  intros H. injection H as <-. cbn.
  split; [exact Hge|]. split; [|reflexivity].
  destruct (JSONParser.find_title B (JSONParser.title_fields self) item)
    as [t|]; [|reflexivity].
  destruct (is_empty t) eqn:E; [reflexivity | exact E].
Qed.

Lemma parse_list_entries (l : list json) (src : str) :
  Forall (fun e =>
            JSONParser.min_content_length self <= len (JSONParser.content e)
            /\ is_empty (JSONParser.title e) = false
            /\ JSONParser.source_file e = src)
    (JSONParser.parse_list B self l src).
Proof using Type.
  unfold JSONParser.parse_list.
  induction l as [|item rest IH]; simpl; [constructor|].
  apply Forall_app. split; [|exact IH].
  destruct item as [| b | z | f | s | l | d]; try constructor.
  destruct (JSONParser._parse_item B self d src) as [e|] eqn:He;
    constructor; [|constructor].
  exact (_parse_item_entry d src e He).
Qed.

Lemma _parse_data_entries (src : str) (data : json) :
  Forall (fun e =>
            JSONParser.min_content_length self <= len (JSONParser.content e)
            /\ is_empty (JSONParser.title e) = false
            /\ JSONParser.source_file e = src)
    (JSONParser._parse_data B self data src).
Proof using Type.
  induction data as [| b | z | f | s | l _ | d IHd] using json_nested_ind;
    try (simpl; constructor).
  - apply parse_list_entries.
  - cbn [JSONParser._parse_data].
    destruct (JSONParser._looks_like_entry self d).
    + destruct (JSONParser._parse_item B self d src) as [e|] eqn:He;
        constructor; [|constructor].
      exact (_parse_item_entry d src e He).
    + induction d as [|[key value] rest IHrest]; [constructor|].
      inversion IHd as [|? ? Hvalue Hrest]; subst.
      apply Forall_app. split; [|apply IHrest; exact Hrest].
      cbn [snd] in Hvalue.
      destruct value as [| b | z | f | s | l | d]; try constructor;
        exact Hvalue.
Qed.

Lemma collect_metadata (item items : dict) (parts : list str) (meta : dict) :
  (forall kv, In kv items -> In kv item) ->
  Forall (fun kv =>
            In kv item
            /\ mem (fst kv) (JSONParser.title_fields self) = false
            /\ is_short_scalar (snd kv) = true) meta ->
  Forall (fun kv =>
            In kv item
            /\ mem (fst kv) (JSONParser.title_fields self) = false
            /\ is_short_scalar (snd kv) = true)
    (snd (JSONParser.collect B self items parts meta)).
Proof using Type.
  revert parts meta.
  induction items as [|[key value] rest IH]; intros parts meta Hsub Hmeta;
    [exact Hmeta|].
  assert (Hrest : forall kv, In kv rest -> In kv item).
  { intros kv Hkv. apply Hsub. right. exact Hkv. }
  assert (Hin : In (key, value) item) by (apply Hsub; left; reflexivity).
  cbn [JSONParser.collect].
  destruct (mem key (JSONParser.title_fields self)) eqn:Hkey;
    [apply IH; assumption|].
  destruct value as [| b | z | f | s | l | d];
    try (apply IH; assumption);
    try (apply IH; [assumption|]; apply set_Forall; [assumption|];
         cbn [fst snd]; repeat split; assumption).
  - destruct (Z.gtb_spec (len s) 20) as [Hlong|Hshort];
      [apply IH; assumption|].
    apply IH; [assumption|]. apply set_Forall; [assumption|].
    cbn [fst snd is_short_scalar]. repeat split; try assumption.
    apply Z.leb_le. exact Hshort.
  - destruct (JSONParser.all_strings l); apply IH; assumption.
Qed.

End JSONParserFacts.

(** X6. Every entry [JSONParser.parse_file] yields, for a list, a single
    record or a nesting of containers of any depth, has a content of at
    least [min_content_length] characters, a title that is not empty and
    the name of the file as its source. *)
Theorem json_parser_entries (B : Builtins) (self : JSONParser.JSONParser)
        (data : json) (name : str) :
  Forall (fun e =>
            JSONParser.min_content_length self <= len (JSONParser.content e)
            /\ is_empty (JSONParser.title e) = false
            /\ JSONParser.source_file e = name)
    (JSONParser.parse_file B self data name).
Proof. apply _parse_data_entries. Qed.

(** X7. The metadata of an entry of [JSONParser._parse_item] holds fields
    of the record only: each item is a field of the record whose key is
    not a title field and whose value is a number, a truth value or a
    string of at most 20 characters. *)
Theorem json_parser_metadata (B : Builtins) (self : JSONParser.JSONParser)
        (item : dict) (src : str) (e : JSONParser.DataEntry) :
  JSONParser._parse_item B self item src = Some e ->
  Forall (fun kv =>
            In kv item
            /\ mem (fst kv) (JSONParser.title_fields self) = false
            /\ is_short_scalar (snd kv) = true)
    (JSONParser.metadata e).
Proof.
  unfold JSONParser._parse_item.
  pose proof (collect_metadata B self item item [] []
                (fun kv H => H) (Forall_nil _)) as Hm.
  destruct (JSONParser.collect B self item [] []) as [parts meta].
  destruct (len (join [NL; NL] parts) <? JSONParser.min_content_length self);
    [discriminate|].
  intros H. injection H as <-. exact Hm.
Qed.

(** The theorem at a record with two short fields, which both become
    metadata. *)
Lemma json_parser_metadata_witness :
  exists e,
    JSONParser._parse_item ascii_builtins JSONParser.default_parser
      Samples.knot_record (lit "knots.json") = Some e
    /\ JSONParser.metadata e
       = [(lit "difficulty", JStr (lit "easy")); (lit "strands", JInt 1)]
    /\ Forall (fun kv =>
                 In kv Samples.knot_record
                 /\ mem (fst kv)
                      (JSONParser.title_fields JSONParser.default_parser)
                    = false
                 /\ is_short_scalar (snd kv) = true)
         (JSONParser.metadata e).
Proof.
  eexists. split; [vm_compute; reflexivity|]. split; [reflexivity|].
  apply (json_parser_metadata ascii_builtins JSONParser.default_parser
           Samples.knot_record (lit "knots.json")).
  vm_compute. reflexivity.
Defined.

(** ** The plant parser *)

Lemma spec_plant_level_cases (rating : option Z) :
  In (spec_plant_level rating) PLANT_LEVELS
  /\ (spec_plant_level rating = lit "lethal" <-> rating = Some 1).
Proof.
  destruct rating as [r|]; unfold spec_plant_level, PLANT_LEVELS.
  - destruct (Z.eqb_spec r 5); [subst|];
      [|destruct (Z.eqb_spec r 4); [subst|];
        [|destruct (Z.eqb_spec r 3); [subst|];
          [|destruct (Z.eqb_spec r 2); [subst|];
            [|destruct (Z.eqb_spec r 1); [subst|]]]]];
      (split; [simpl; tauto|]);
      (split; [intros H; try reflexivity; vm_compute in H; discriminate
              | intros H; try reflexivity; injection H as H; lia]).
  - split; [simpl; tauto|].
    split; [intros H; vm_compute in H; discriminate | discriminate].
Qed.

Lemma contains_app_r (needle a b : str) :
  contains needle b = true -> contains needle (a ++ b) = true.
Proof.
  intros H. induction a as [|c a IH]; [exact H|].
  simpl. rewrite IH. apply orb_true_r.
Qed.

Section PlantParserFacts.

Variable B : Builtins.

(** An entry of [_parse_plant]: its level follows from its rating, it has
    the fixed warning, a description of at least 100 characters and the
    source it was given. *)
Lemma _parse_plant_kept (item : json) (src : str)
      (e : PlantParser.PlantEntry) :
  PlantParser._parse_plant B item src = Ok (Some e) ->
  PlantParser.safety_level e = spec_plant_level (PlantParser.edibility_rating e)
  /\ PlantParser.safety_notes e = PlantParser.PLANT_SAFETY_WARNING
  /\ PlantParser.min_content_length <= len (PlantParser.description e)
  /\ PlantParser.source_file e = src.
Proof using Type.
  destruct item as [| b | z | f | s | l | item]; try discriminate.
  unfold PlantParser._parse_plant.
  destruct (PlantParser.read_rating B item) as [rating|]; [|discriminate].
  cbv beta iota zeta delta [bind].
  match goal with
  | |- (if len ?d <? _ then _ else _) = _ -> _ =>
      destruct (Z.ltb_spec (len d) PlantParser.min_content_length) as [Hl|Hl]
  end; [discriminate|].
  intros H. injection H as <-. cbn.
  repeat split; try assumption.
  destruct rating as [r|]; [apply levels_get_spec | reflexivity].
Qed.

(** [_parse_plant] raises for an infinite rating, and for nothing else. *)
Lemma _parse_plant_raises (item : json) (src : str) :
  match PlantParser._parse_plant B item src with
  | Ok _ => infinite_rating item = false
  | Raise e => e = OverflowError /\ infinite_rating item = true
  end.
Proof using Type.
  destruct item as [| b | z | f | s | l | item]; try reflexivity.
  unfold PlantParser._parse_plant, PlantParser.read_rating, infinite_rating.
  destruct (lookup item (lit "edibility_rating")) as [v|].
  - destruct v as [| b | z | [m x | neg |] | s | l | d];
      cbn [py_int bind];
      try (match goal with
           | |- context [if ?c then Ok None else _] =>
               destruct c; reflexivity
           end);
      try (split; reflexivity).
    destruct (int_of_str B s); cbn [bind];
      match goal with
      | |- context [if ?c then Ok None else _] => destruct c; reflexivity
      end.
  - cbn [bind].
    match goal with
    | |- context [if ?c then Ok None else _] => destruct c; reflexivity
    end.
Qed.

Lemma parse_items_app (a b : list json) (name : str) :
  PlantParser.parse_items B (a ++ b) name
  = bind (PlantParser.parse_items B a name) (fun es =>
    bind (PlantParser.parse_items B b name) (fun es' => Ok (es ++ es'))).
Proof using Type.
  induction a as [|item rest IH]; simpl.
  - destruct (PlantParser.parse_items B b name); reflexivity.
  - destruct (PlantParser._parse_plant B item name) as [entry|];
      [|reflexivity].
    cbn [bind]. rewrite IH.
    destruct (PlantParser.parse_items B rest name) as [es|]; [|reflexivity].
    cbn [bind].
    destruct (PlantParser.parse_items B b name) as [es'|]; [|reflexivity].
    cbn [bind]. destruct entry; reflexivity.
Qed.

Lemma parse_file_records (data : json) (name : str) :
  PlantParser.parse_file B data name
  = PlantParser.parse_items B (plant_records data) name.
Proof using Type.
  destruct data as [| b | z | f | s | l | d]; try reflexivity.
  unfold PlantParser.parse_file, plant_records.
  induction d as [|[key value] rest IH]; [reflexivity|].
  cbn [PlantParser.parse_nested flat_map snd].
  destruct value as [| b | z | f | s | l | d];
    try (cbn [app]; exact IH).
  rewrite parse_items_app, IH. reflexivity.
Qed.

Lemma parse_items_entries (records : list json) (name : str) :
  match PlantParser.parse_items B records name with
  | Ok es =>
      existsb infinite_rating records = false
      /\ (length es <= length records)%nat
      /\ Forall (fun e =>
                   PlantParser.safety_level e
                   = spec_plant_level (PlantParser.edibility_rating e)
                   /\ PlantParser.safety_notes e
                      = PlantParser.PLANT_SAFETY_WARNING
                   /\ PlantParser.min_content_length
                      <= len (PlantParser.description e)
                   /\ PlantParser.source_file e = name) es
  | Raise e => e = OverflowError /\ existsb infinite_rating records = true
  end.
Proof using Type.
  induction records as [|item rest IH]; simpl.
  - repeat split; constructor.
  - pose proof (_parse_plant_raises item name) as Hr.
    pose proof (_parse_plant_kept item name) as Hk.
    destruct (PlantParser._parse_plant B item name) as [entry|e].
    + rewrite Hr. cbn [bind orb].
      destruct (PlantParser.parse_items B rest name) as [es|e];
        [|exact IH].
      cbn [bind]. destruct IH as [Hinf [Hlen Hall]].
      split; [exact Hinf|].
      destruct entry as [e|].
      * split; [simpl; lia|]. constructor; [apply Hk; reflexivity | exact Hall].
      * split; [lia | exact Hall].
    + destruct Hr as [-> ->]. split; reflexivity.
Qed.

End PlantParserFacts.

(** X8. [PlantParser.parse_file] reads the records of a file in order
    (the items of a top-level list, or of every list under a top-level
    object).  It raises exactly when the rating of a record is an
    infinite number, and then [OverflowError], which the handler around
    [int] does not catch; otherwise it yields at most one entry for each
    record. *)
Theorem plant_parser_infinite_rating (B : Builtins) (data : json)
        (name : str) :
  match PlantParser.parse_file B data name with
  | Ok es =>
      existsb infinite_rating (plant_records data) = false
      /\ (length es <= length (plant_records data))%nat
  | Raise e =>
      e = OverflowError
      /\ existsb infinite_rating (plant_records data) = true
  end.
Proof.
  rewrite parse_file_records.
  pose proof (parse_items_entries B (plant_records data) name) as H.
  destruct (PlantParser.parse_items B (plant_records data) name).
  - destruct H as [H1 [H2 _]]. split; assumption.
  - exact H.
Qed.

(** A file whose second record has the rating [Infinity]. *)
Example infinite_rating_raises :
  PlantParser.parse_file ascii_builtins
    (JDict [(lit "plants",
              JList [JDict Samples.nightshade; JDict Samples.infinite_plant])])
    (lit "plants.json")
  = Raise OverflowError.
Proof. vm_compute. reflexivity. Qed.

(** X9. Every entry [PlantParser.parse_file] yields has one of the levels
    caution, warning, danger and lethal, and lethal exactly for the
    rating 1; it has the fixed safety warning, a description of at least
    100 characters and the name of the file as its source. *)
Theorem plant_parser_entries (B : Builtins) (data : json) (name : str)
        (es : list PlantParser.PlantEntry) :
  PlantParser.parse_file B data name = Ok es ->
  Forall (fun e =>
            In (PlantParser.safety_level e) PLANT_LEVELS
            /\ (PlantParser.safety_level e = lit "lethal"
                <-> PlantParser.edibility_rating e = Some 1)
            /\ PlantParser.safety_notes e = PlantParser.PLANT_SAFETY_WARNING
            /\ 100 <= len (PlantParser.description e)
            /\ PlantParser.source_file e = name) es.
Proof.
  rewrite parse_file_records. intros H.
  pose proof (parse_items_entries B (plant_records data) name) as Hes.
  rewrite H in Hes. destruct Hes as [_ [_ Hall]].
  eapply Forall_impl; [|exact Hall]. cbv beta.
  intros e [Hlevel [Hnotes [Hlen Hsrc]]].
  destruct (spec_plant_level_cases (PlantParser.edibility_rating e))
    as [Hin Hlethal].
  rewrite Hlevel. repeat split; try assumption; apply Hlethal.
Qed.

(** The theorem at a file with the record of [test_toxic_plant_is_lethal]
    and a value that is no record. *)
Lemma plant_parser_entries_witness :
  exists es,
    PlantParser.parse_file ascii_builtins
      (JList [JDict Samples.nightshade; JInt 7]) (lit "plants.json") = Ok es
    /\ map PlantParser.safety_level es = [lit "lethal"]
    /\ Forall (fun e =>
                 In (PlantParser.safety_level e) PLANT_LEVELS
                 /\ (PlantParser.safety_level e = lit "lethal"
                     <-> PlantParser.edibility_rating e = Some 1)
                 /\ PlantParser.safety_notes e
                    = PlantParser.PLANT_SAFETY_WARNING
                 /\ 100 <= len (PlantParser.description e)
                 /\ PlantParser.source_file e = lit "plants.json") es.
Proof.
  eexists. split; [vm_compute; reflexivity|]. split; [reflexivity|].
  apply (plant_parser_entries ascii_builtins
           (JList [JDict Samples.nightshade; JInt 7]) (lit "plants.json")).
  vm_compute. reflexivity.
Defined.

Section PlantContentFacts.

Variable B : Builtins.

Lemma rest_metadata_fields (item items : dict) (meta : dict) :
  (forall kv, In kv items -> In kv item) ->
  Forall (fun kv =>
            In kv item
            /\ mem (str_lower B (fst kv)) PlantParser.SKIP_FIELDS = false
            /\ is_scalar (snd kv) = true) meta ->
  Forall (fun kv =>
            In kv item
            /\ mem (str_lower B (fst kv)) PlantParser.SKIP_FIELDS = false
            /\ is_scalar (snd kv) = true)
    (PlantParser.rest_metadata B items meta).
Proof using Type.
  revert meta.
  induction items as [|[key value] rest IH]; intros meta Hsub Hmeta;
    [exact Hmeta|].
  assert (Hrest : forall kv, In kv rest -> In kv item).
  { intros kv Hkv. apply Hsub. right. exact Hkv. }
  assert (Hin : In (key, value) item) by (apply Hsub; left; reflexivity).
  cbn [PlantParser.rest_metadata].
  destruct (mem (str_lower B key) PlantParser.SKIP_FIELDS) eqn:Hkey;
    cbn [negb]; [apply IH; assumption|].
  destruct value as [| b | z | f | s | l | d];
    try (apply IH; assumption);
    (apply IH; [assumption|]; apply set_Forall; [assumption|];
     cbn [fst snd is_scalar]; repeat split; assumption).
Qed.

End PlantContentFacts.

(** X10. The text [PlantParser.to_content] makes of an entry that
    [_parse_plant] returned is a heading with the common name, the
    description, a rule and the fixed safety warning, in this order; so
    the warning is part of the content of every plant entry. *)
Theorem plant_content_carries_warning (B : Builtins) (item : json)
        (src : str) (e : PlantParser.PlantEntry) :
  PlantParser._parse_plant B item src = Ok (Some e) ->
  PlantParser.to_content e
  = lit "# " ++ PlantParser.common_name e ++ [NL; NL]
      ++ PlantParser.description e ++ [NL; NL] ++ lit "---" ++ [NL; NL]
      ++ PlantParser.PLANT_SAFETY_WARNING
  /\ contains (lit "SAFETY WARNING") (PlantParser.to_content e) = true.
Proof.
  intros H.
  destruct (_parse_plant_kept B item src e H) as [_ [Hnotes _]].
  assert (E : PlantParser.to_content e
              = lit "# " ++ PlantParser.common_name e ++ [NL; NL]
                  ++ PlantParser.description e ++ [NL; NL] ++ lit "---"
                  ++ [NL; NL] ++ PlantParser.PLANT_SAFETY_WARNING).
  { unfold PlantParser.to_content. rewrite Hnotes.
    cbn [join]. cbn [app]. rewrite <- !app_assoc. reflexivity. }
  split; [exact E|].
  rewrite E.
  change (lit "# " ++ PlantParser.common_name e ++ [NL; NL]
            ++ PlantParser.description e ++ [NL; NL] ++ lit "---"
            ++ [NL; NL] ++ PlantParser.PLANT_SAFETY_WARNING)
    with (lit "# " ++ PlantParser.common_name e ++ [NL; NL]
            ++ PlantParser.description e
            ++ (([NL; NL] ++ lit "---" ++ [NL; NL])
                  ++ PlantParser.PLANT_SAFETY_WARNING)).
  rewrite !app_assoc. apply contains_app_r. vm_compute. reflexivity.
Qed.

(** The theorem at the record of [test_toxic_plant_is_lethal]. *)
Lemma plant_content_carries_warning_witness :
  exists e,
    PlantParser._parse_plant ascii_builtins (JDict Samples.nightshade)
      (lit "plants.json") = Ok (Some e)
    /\ PlantParser.to_content e
       = lit "# " ++ PlantParser.common_name e ++ [NL; NL]
           ++ PlantParser.description e ++ [NL; NL] ++ lit "---" ++ [NL; NL]
           ++ PlantParser.PLANT_SAFETY_WARNING
    /\ contains (lit "SAFETY WARNING") (PlantParser.to_content e) = true.
Proof.
  eexists. split; [vm_compute; reflexivity|].
  apply (plant_content_carries_warning ascii_builtins
           (JDict Samples.nightshade) (lit "plants.json")).
  vm_compute. reflexivity.
Defined.

(** X11. The metadata of a plant entry holds fields of the record only:
    each item is a field of the record whose key, in lower case, is none
    of the eight fields the entry has a place for, and whose value is a
    string, a number or a truth value. *)
Theorem plant_parser_metadata (B : Builtins) (item : dict) (src : str)
        (e : PlantParser.PlantEntry) :
  PlantParser._parse_plant B (JDict item) src = Ok (Some e) ->
  Forall (fun kv =>
            In kv item
            /\ mem (str_lower B (fst kv)) PlantParser.SKIP_FIELDS = false
            /\ is_scalar (snd kv) = true)
    (PlantParser.metadata e).
Proof.
  unfold PlantParser._parse_plant.
  destruct (PlantParser.read_rating B item) as [rating|]; [|discriminate].
  cbv beta iota zeta delta [bind].
  match goal with
  | |- (if ?c then _ else _) = _ -> _ => destruct c
  end; [discriminate|].
  intros H. injection H as <-. cbn [PlantParser.metadata].
  apply rest_metadata_fields; [auto | constructor].
Qed.

(** The theorem at a record with a field [Family], a height and a list of
    regions: the height alone becomes metadata.  Its rating [true] reads
    as 1. *)
Lemma plant_parser_metadata_witness :
  exists e,
    PlantParser._parse_plant ascii_builtins (JDict Samples.foxglove)
      (lit "plants.json") = Ok (Some e)
    /\ PlantParser.metadata e = [(lit "height_cm", JInt 120)]
    /\ PlantParser.safety_level e = lit "lethal"
    /\ Forall (fun kv =>
                 In kv Samples.foxglove
                 /\ mem (str_lower ascii_builtins (fst kv))
                      PlantParser.SKIP_FIELDS = false
                 /\ is_scalar (snd kv) = true)
         (PlantParser.metadata e).
Proof.
  eexists. split; [vm_compute; reflexivity|]. split; [reflexivity|].
  split; [reflexivity|].
  apply (plant_parser_metadata ascii_builtins Samples.foxglove
           (lit "plants.json")).
  vm_compute. reflexivity.
Defined.

(** ** The categories of the manifest *)

Lemma str_eqb_refl (a : str) : str_eqb a a = true.
Proof. apply str_eqb_eq. reflexivity. Qed.

Lemma str_eqb_false (a b : str) : str_eqb a b = false <-> a <> b.
Proof.
  destruct (str_eqb a b) eqn:E.
  - apply str_eqb_eq in E. split; [discriminate | congruence].
  - split; [|reflexivity]. intros _ H. apply str_eqb_eq in H. congruence.
Qed.

Lemma str_leb_total (a b : str) :
  GenerateManifest.str_leb a b = false -> str_ltb b a = true.
Proof.
  unfold str_ltb. revert b.
  induction a as [|x a IH]; intros [|y b]; simpl; try discriminate.
  - intros _. reflexivity.
  - intros H. apply orb_false_iff in H. destruct H as [Hlt Heq].
    apply N.ltb_ge in Hlt.
    destruct (N.eqb_spec x y) as [->|Hne].
    + simpl in Heq. specialize (IH b Heq).
      apply andb_true_iff in IH. destruct IH as [Hle Hneq].
      rewrite N.eqb_refl, Hle, orb_true_r. simpl.
      apply negb_true_iff, str_eqb_false. apply negb_true_iff in Hneq.
      apply str_eqb_false in Hneq. congruence.
    + assert (Hyx : (y <? x)%N = true) by (apply N.ltb_lt; lia).
      rewrite Hyx. simpl.
      apply negb_true_iff, str_eqb_false. congruence.
Qed.

Lemma str_leb_antisym (a b : str) :
  GenerateManifest.str_leb a b = true ->
  GenerateManifest.str_leb b a = true -> a = b.
Proof.
  revert b. induction a as [|x a IH]; intros [|y b]; simpl;
    try discriminate; [reflexivity|].
  intros H1 H2.
  apply orb_true_iff in H1. apply orb_true_iff in H2.
  destruct H1 as [H1|H1]; destruct H2 as [H2|H2];
    try apply N.ltb_lt in H1; try apply N.ltb_lt in H2;
    try (apply andb_true_iff in H1; destruct H1 as [E1 L1];
         apply N.eqb_eq in E1);
    try (apply andb_true_iff in H2; destruct H2 as [E2 L2];
         apply N.eqb_eq in E2);
    try lia.
  subst y. f_equal. apply IH; assumption.
Qed.

Lemma str_leb_trans (a b c : str) :
  GenerateManifest.str_leb a b = true ->
  GenerateManifest.str_leb b c = true ->
  GenerateManifest.str_leb a c = true.
Proof.
  revert b c. induction a as [|x a IH]; intros [|y b] [|z c]; simpl;
    try discriminate; try reflexivity.
  intros H1 H2.
  apply orb_true_iff in H1. apply orb_true_iff in H2.
  apply orb_true_iff.
  destruct H1 as [H1|H1]; destruct H2 as [H2|H2];
    try apply N.ltb_lt in H1; try apply N.ltb_lt in H2;
    try (apply andb_true_iff in H1; destruct H1 as [E1 L1];
         apply N.eqb_eq in E1);
    try (apply andb_true_iff in H2; destruct H2 as [E2 L2];
         apply N.eqb_eq in E2).
  - left. apply N.ltb_lt. lia.
  - left. apply N.ltb_lt. lia.
  - left. apply N.ltb_lt. lia.
  - right. subst. rewrite N.eqb_refl. simpl. apply (IH b c); assumption.
Qed.

Lemma str_ltb_trans (a b c : str) :
  str_ltb a b = true -> str_ltb b c = true -> str_ltb a c = true.
Proof.
  unfold str_ltb. intros H1 H2.
  apply andb_true_iff in H1. destruct H1 as [L1 N1].
  apply andb_true_iff in H2. destruct H2 as [L2 N2].
  apply andb_true_iff. split; [apply (str_leb_trans a b c); assumption|].
  apply negb_true_iff, str_eqb_false. intros ->.
  apply negb_true_iff, str_eqb_false in N1. apply N1.
  apply str_leb_antisym; assumption.
Qed.

Lemma str_ltb_irrefl (a : str) : str_ltb a a = false.
Proof. unfold str_ltb. rewrite str_eqb_refl. apply andb_false_r. Qed.

Section CategoryCounts.

Variable embedding : Type.
Variable sha256_hexdigest : bytes -> str.

Lemma count_in_sum (cat : str) (counts : list (str * Z)) :
  sum_counts (GenerateManifest.count_in cat counts) = sum_counts counts + 1.
Proof using Type.
  unfold sum_counts.
  induction counts as [|[c n] rest IH];
    cbn [GenerateManifest.count_in map snd fold_right]; [reflexivity|].
  destruct (str_eqb c cat); cbn [map snd fold_right]; [lia|].
  destruct (GenerateManifest.str_leb cat c); cbn [map snd fold_right];
    [lia|].
  rewrite IH. lia.
Qed.

Lemma count_in_positive (cat : str) (counts : list (str * Z)) :
  Forall (fun kv => 1 <= snd kv) counts ->
  Forall (fun kv => 1 <= snd kv) (GenerateManifest.count_in cat counts).
Proof using Type.
  induction counts as [|[c n] rest IH]; intros H; simpl.
  - constructor; [simpl; lia | constructor].
  - inversion H as [|? ? Hn Hrest]; subst. simpl in Hn.
    destruct (str_eqb c cat); [constructor; [simpl; lia | assumption]|].
    destruct (GenerateManifest.str_leb cat c).
    + constructor; [simpl; lia | assumption].
    + constructor; [assumption | apply IH; assumption].
Qed.

Lemma count_in_keys (cat : str) (counts : list (str * Z)) (k : str) :
  In k (map fst (GenerateManifest.count_in cat counts)) ->
  k = cat \/ In k (map fst counts).
Proof using Type.
  induction counts as [|[c n] rest IH];
    cbn [GenerateManifest.count_in map fst In].
  - intros [<- | []]. left. reflexivity.
  - destruct (str_eqb c cat); cbn [map fst In].
    + intros H. right. exact H.
    + destruct (GenerateManifest.str_leb cat c); cbn [map fst In].
      * intros [<- | H]; [left; reflexivity | right; exact H].
      * intros [<- | H]; [right; left; reflexivity|].
        destruct (IH H) as [-> | Hin];
          [left; reflexivity | right; right; exact Hin].
Qed.

Lemma count_in_ascending (cat : str) (counts : list (str * Z)) :
  ascending counts -> ascending (GenerateManifest.count_in cat counts).
Proof using Type.
  unfold ascending.
  induction counts as [|[c n] rest IH]; intros H; simpl.
  - repeat constructor.
  - simpl in H. inversion H as [|? ? Hrest Hc]; subst.
    destruct (str_eqb c cat) eqn:Ec; [exact H|].
    destruct (GenerateManifest.str_leb cat c) eqn:El.
    + assert (Hlt : str_ltb cat c = true).
      { unfold str_ltb. rewrite El. simpl.
        apply negb_true_iff, str_eqb_false. apply str_eqb_false in Ec.
        congruence. }
      simpl. constructor; [exact H|].
      constructor; [exact Hlt|].
      eapply Forall_impl; [|exact Hc]. cbv beta.
      intros k Hk. apply (str_ltb_trans cat c k); assumption.
    + simpl. constructor; [apply IH; exact Hrest|].
      apply Forall_forall. intros k Hk.
      destruct (count_in_keys cat rest k Hk) as [-> | Hin].
      * apply str_leb_total. exact El.
      * exact (proj1 (Forall_forall _ _) Hc k Hin).
Qed.

Lemma lookup_above (counts : list (str * Z)) (cat : str) :
  Forall (fun k => str_ltb cat k = true) (map fst counts) ->
  lookup counts cat = None.
Proof using Type.
  induction counts as [|[c n] rest IH]; intros H; [reflexivity|].
  simpl in H. inversion H as [|? ? Hc Hrest]; subst. simpl.
  destruct (str_eqb c cat) eqn:E; [|apply IH; exact Hrest].
  apply str_eqb_eq in E. subst c. rewrite str_ltb_irrefl in Hc.
  discriminate.
Qed.

Lemma count_in_count_of (cat : str) (counts : list (str * Z)) (c : str) :
  ascending counts ->
  count_of (GenerateManifest.count_in cat counts) c
  = count_of counts c + (if str_eqb cat c then 1 else 0).
Proof using Type.
  unfold ascending, count_of.
  induction counts as [|[c0 n] rest IH]; intros H.
  - simpl. destruct (str_eqb cat c); reflexivity.
  - simpl in H. inversion H as [|? ? Hrest Hc0]; subst.
    cbn [GenerateManifest.count_in].
    destruct (str_eqb c0 cat) eqn:Ec.
    + apply str_eqb_eq in Ec. subst c0. cbn [lookup].
      destruct (str_eqb cat c); lia.
    + destruct (GenerateManifest.str_leb cat c0) eqn:El.
      * cbn [lookup].
        destruct (str_eqb cat c) eqn:E; [|lia].
        apply str_eqb_eq in E. subst c. rewrite Ec.
        rewrite lookup_above; [reflexivity|].
        assert (Hlt : str_ltb cat c0 = true).
        { unfold str_ltb. rewrite El. simpl.
          apply negb_true_iff, str_eqb_false. apply str_eqb_false in Ec.
          congruence. }
        eapply Forall_impl; [|exact Hc0]. cbv beta.
        intros k Hk. apply (str_ltb_trans cat c0 k); assumption.
      * cbn [lookup].
        destruct (str_eqb c0 c) eqn:E0; [|apply IH; exact Hrest].
        apply str_eqb_eq in E0. subst c0.
        apply str_eqb_false in Ec.
        assert (E : str_eqb cat c = false)
          by (apply str_eqb_false; congruence).
        rewrite E. lia.
Qed.

Lemma fold_count_in (rows : Table) (counts : list (str * Z)) (c : str) :
  ascending counts ->
  Forall (fun kv => 1 <= snd kv) counts ->
  let result :=
    fold_left (fun counts r =>
                 GenerateManifest.count_in (category (entry r)) counts)
      rows counts in
  ascending result
  /\ Forall (fun kv => 1 <= snd kv) result
  /\ sum_counts result = sum_counts counts + Z.of_nat (length rows)
  /\ count_of result c = count_of counts c + rows_of_category c rows.
Proof using Type.
  cbv zeta. revert counts.
  induction rows as [|r rows IH]; intros counts Hasc Hpos.
  - simpl. unfold rows_of_category. simpl. repeat split; try assumption; lia.
  - cbn [fold_left].
    destruct (IH (GenerateManifest.count_in (category (entry r)) counts)
                (count_in_ascending _ _ Hasc) (count_in_positive _ _ Hpos))
      as [Ha [Hp [Hs Hc]]].
    repeat split; try assumption.
    + rewrite Hs, count_in_sum. simpl length. lia.
    + rewrite Hc, count_in_count_of by exact Hasc.
      unfold rows_of_category. cbn [filter].
      destruct (str_eqb (category (entry r)) c); simpl length; lia.
Qed.

Lemma lookup_In (V : Type) (d : list (str * V)) (key : str) (v : V) :
  lookup d key = Some v -> In (key, v) d.
Proof using Type.
  induction d as [|[k w] rest IH]; simpl; [discriminate|].
  destruct (str_eqb k key) eqn:E.
  - apply str_eqb_eq in E. subst k. intros H. injection H as ->.
    left. reflexivity.
  - intros H. right. apply IH, H.
Qed.

Lemma category_counts_spec (rows : Table) (c : str) :
  ascending (GenerateManifest.category_counts rows)
  /\ sum_counts (GenerateManifest.category_counts rows) = count_entries rows
  /\ lookup (GenerateManifest.category_counts rows) c
     = (if rows_of_category c rows =? 0 then None
        else Some (rows_of_category c rows)).
Proof using Type.
  unfold GenerateManifest.category_counts.
  assert (Hnil : ascending []) by constructor.
  destruct (fold_count_in rows [] c Hnil (Forall_nil _))
    as [Ha [Hp [Hs Hc]]].
  split; [exact Ha|]. split; [exact Hs|].
  unfold count_of in Hc. simpl in Hc.
  destruct (lookup _ c) as [n|] eqn:El.
  - apply lookup_In in El.
    pose proof (proj1 (Forall_forall _ _) Hp _ El) as Hn. simpl in Hn.
    subst n. destruct (Z.eqb_spec (rows_of_category c rows) 0); [lia|].
    reflexivity.
  - rewrite <- Hc. reflexivity.
Qed.

End CategoryCounts.

(** X12. The categories [get_category_counts] reads for the manifest: the
    keys are in strictly ascending order, so each category of the table
    is there once; the count of a category is the number of its rows, and
    a category without rows is not there; and the counts add up to the
    number [get_total_entries] returns. *)
Theorem manifest_category_counts (embedding : Type)
        (d : GeneratedDir embedding) (db : Database) (rows : Table)
        (c : str) :
  connect d = Ok db ->
  entries db = Some rows ->
  exists counts,
    GenerateManifest.get_category_counts embedding d = Ok counts
    /\ ascending counts
    /\ lookup counts c
       = (if rows_of_category c rows =? 0 then None
          else Some (rows_of_category c rows))
    /\ GenerateManifest.get_total_entries embedding d
       = Ok (sum_counts counts).
Proof.
  intros Hd Hrows.
  destruct (category_counts_spec rows c) as [Ha [Hs Hl]].
  exists (GenerateManifest.category_counts rows).
  unfold GenerateManifest.get_category_counts,
    GenerateManifest.get_total_entries, select_count.
  rewrite Hd. cbn [bind]. rewrite Hrows, Hs. auto.
Qed.

(** The theorem at the sample directory, whose two rows have the
    categories navigation and survival. *)
Lemma manifest_category_counts_witness :
  exists counts,
    GenerateManifest.get_category_counts Z Samples.sample_dir = Ok counts
    /\ ascending counts
    /\ lookup counts (lit "survival")
       = (if rows_of_category (lit "survival")
               [ {| rowid := 1; entry := Samples.map_entry |};
                 {| rowid := 2; entry := Samples.fire_entry |} ] =? 0
          then None
          else Some (rows_of_category (lit "survival")
                       [ {| rowid := 1; entry := Samples.map_entry |};
                         {| rowid := 2; entry := Samples.fire_entry |} ]))
    /\ GenerateManifest.get_total_entries Z Samples.sample_dir
       = Ok (sum_counts counts).
Proof.
  apply (manifest_category_counts Z Samples.sample_dir
           Samples.sample_database
           [ {| rowid := 1; entry := Samples.map_entry |};
             {| rowid := 2; entry := Samples.fire_entry |} ]
           (lit "survival")); reflexivity.
Defined.

Example sample_category_counts :
  GenerateManifest.get_category_counts Z Samples.sample_dir
  = Ok [(lit "navigation", 1); (lit "survival", 1)].
Proof. vm_compute. reflexivity. Qed.

(** ** How the manifest script fails *)

(** X13. [generate_manifest] returns a manifest exactly when both
    artifacts exist and the database has the table of entries, and then
    writes that manifest and nothing else.  Otherwise it leaves the
    directory as it found it and ends with [SystemExit 1] when an
    artifact is missing, with [DatabaseError] when [knowledge.db] is no
    database, and with [OperationalError] when the database has no table
    of entries.  Reading and hashing the files never fails. *)
Theorem generate_manifest_outcome (embedding : Type)
        (sha256_hexdigest : bytes -> str)
        (version source_hash model now : str) (d : GeneratedDir embedding) :
  match snd (GenerateManifest.generate_manifest embedding sha256_hexdigest
               version source_hash model now d) with
  | Ok m =>
      fst (GenerateManifest.generate_manifest embedding sha256_hexdigest
             version source_hash model now d)
      = {| knowledge_db := knowledge_db d;
           vectors_idx := vectors_idx d;
           manifest_json := Some (Some m) |}
      /\ exists db_file db rows vectors_file vectors,
           knowledge_db d = Some (db_file, Some db)
           /\ entries db = Some rows
           /\ vectors_idx d = Some (vectors_file, vectors)
  | Raise e =>
      fst (GenerateManifest.generate_manifest embedding sha256_hexdigest
             version source_hash model now d) = d
      /\ match knowledge_db d, vectors_idx d with
         | Some (_, Some db), Some _ =>
             entries db = None /\ e = OperationalError
         | Some (_, None), Some _ => e = DatabaseError
         | _, _ => e = SystemExit 1
         end
  end.
Proof.
  destruct (knowledge_db d) as [[db_file [db|]]|] eqn:Hdb.
  - destruct (vectors_idx d) as [[vectors_file vectors]|] eqn:Hvec.
    + destruct (entries db) as [rows|] eqn:Hrows.
      * rewrite (generate_manifest_ok embedding sha256_hexdigest version
                   source_hash model now d db_file vectors_file db rows
                   vectors Hdb Hrows Hvec).
        cbn [fst snd]. rewrite Hdb, Hvec. split; [reflexivity|].
        exists db_file, db, rows, vectors_file, vectors. auto.
      * unfold GenerateManifest.generate_manifest,
          GenerateManifest.get_total_entries, select_count, connect.
        rewrite Hdb, Hvec. cbn [bind]. rewrite Hrows. cbn [bind fst snd].
        auto.
    + unfold GenerateManifest.generate_manifest. rewrite Hdb, Hvec.
      cbn [fst snd]. auto.
  - destruct (vectors_idx d) as [[vectors_file vectors]|] eqn:Hvec.
    + unfold GenerateManifest.generate_manifest,
        GenerateManifest.get_total_entries, select_count, connect.
      rewrite Hdb, Hvec. cbn [bind fst snd]. auto.
    + unfold GenerateManifest.generate_manifest. rewrite Hdb, Hvec.
      cbn [fst snd]. auto.
  - unfold GenerateManifest.generate_manifest. rewrite Hdb.
    cbn [fst snd]. auto.
Qed.

(** ** What a passed verification shows *)

Section VerifyPassFacts.

Variable embedding : Type.
Variable model : option (str -> embedding).
Variable knn_query :
  list (Z * embedding) -> embedding -> result (list (list Z)).

(** The lines the loop adds: one for each query, and the loop passes when
    it passed before and none of them reports a failure. *)
Lemma search_loop_lines (encode : str -> embedding) (db : result Database)
      (its : list (Z * embedding)) (queries : list (str * str))
      (passed : bool) (results : list VerifyIndex.search_line)
      (p : bool) (ls : list VerifyIndex.search_line) :
  VerifyIndex.search_loop embedding knn_query encode db its queries passed
    results = Ok (p, ls) ->
  exists added,
    ls = results ++ added
    /\ length added = length queries
    /\ p = passed && forallb (fun l => negb (is_failure l)) added.
Proof using Type.
  revert db passed results.
  induction queries as [|[query expected] rest IH];
    intros db passed results.
  - simpl. intros H. injection H as <- <-. exists [].
    rewrite app_nil_r, andb_true_r. auto.
  - cbn [VerifyIndex.search_loop].
    assert (Hstep : forall db' passed' (line : VerifyIndex.search_line),
               passed' = passed && negb (is_failure line) ->
               VerifyIndex.search_loop embedding knn_query encode db' its
                 rest passed' (results ++ [line]) = Ok (p, ls) ->
               exists added,
                 ls = results ++ added
                 /\ length added = S (length rest)
                 /\ p = passed
                        && forallb (fun l => negb (is_failure l)) added).
    { intros db' passed' line Hp H.
      destruct (IH db' passed' (results ++ [line]) H)
        as [added [Hls [Hlen Hpass]]].
      exists (line :: added). rewrite <- app_assoc in Hls.
      split; [exact Hls|]. split; [simpl; lia|].
      rewrite Hpass, Hp. cbn [forallb]. rewrite andb_assoc. reflexivity. }
    destruct (knn_query its (encode query)) as [labels|e]; cbn [bind];
      [|discriminate].
    destruct labels as [|[|label more] others].
    + apply Hstep. simpl. rewrite andb_false_r. reflexivity.
    + apply Hstep. simpl. rewrite andb_false_r. reflexivity.
    + destruct db as [db|e]; cbn [bind]; [|discriminate].
      destruct (entries db) as [rows|]; [|discriminate].
      destruct (VerifyIndex.select_category rows label) as [actual|].
      * destruct (str_eqb actual expected);
          apply Hstep; simpl; rewrite andb_true_r; reflexivity.
      * apply Hstep. simpl. rewrite andb_false_r. reflexivity.
Qed.

Lemma verify_database_passed (d : GeneratedDir embedding) :
  fst (VerifyIndex.verify_database embedding d) = true ->
  exists db rows,
    connect d = Ok db
    /\ integrity_check db = lit "ok"
    /\ entries db = Some rows
    /\ entries_fts db = true
    /\ rows <> [].
Proof using Type.
  unfold VerifyIndex.verify_database.
  destruct (connect d) as [db|e]; [|discriminate].
  destruct (str_eqb (integrity_check db) (lit "ok")) eqn:Hok;
    cbn [negb]; [|discriminate].
  destruct (entries db) as [rows|] eqn:Hrows; [|discriminate].
  destruct (entries_fts db) eqn:Hfts; cbn [negb]; [|discriminate].
  destruct rows as [|r rows]; [cbn; discriminate|].
  intros _. exists db, (r :: rows). apply str_eqb_eq in Hok.
  split; [reflexivity|]. split; [exact Hok|]. split; [exact Hrows|].
  split; [exact Hfts | discriminate].
Qed.

Lemma first_missing_none (required : list str) (m : json) :
  VerifyIndex.first_missing required m = Ok None ->
  forall field, In field required ->
    VerifyIndex.field_in field m = Ok true.
Proof using Type.
  induction required as [|f rest IH]; intros H field Hin; [destruct Hin|].
  cbn [VerifyIndex.first_missing] in H.
  destruct (VerifyIndex.field_in f m) as [[|]|] eqn:Hf; cbn [bind] in H;
    try discriminate.
  destruct Hin as [<- | Hin]; [exact Hf | apply IH; assumption].
Qed.

Lemma verify_manifest_passed (d : GeneratedDir embedding) :
  fst (VerifyIndex.verify_manifest embedding d) = true ->
  exists m actual,
    manifest_json d = Some (Some (JDict m))
    /\ (forall field,
          In field [lit "version"; lit "total_entries"; lit "categories";
                    lit "files"] ->
          has_key m field = true)
    /\ select_count d = Ok actual
    /\ VerifyIndex.differs_from_int (get m (lit "total_entries")) actual
       = false.
Proof using Type.
  unfold VerifyIndex.verify_manifest.
  destruct (manifest_json d) as [[manifest|]|]; try discriminate.
  destruct (VerifyIndex.first_missing _ manifest) as [[field|]|] eqn:Hreq;
    try discriminate.
  destruct (select_count d) as [actual|] eqn:Hcount; [|discriminate].
  destruct manifest as [| b | z | f | s | l | m]; try discriminate.
  destruct (VerifyIndex.differs_from_int _ actual) eqn:Hdiff;
    [discriminate|].
  intros _. exists m, actual. split; [reflexivity|].
  split; [|split; [reflexivity | exact Hdiff]].
  intros field Hin.
  pose proof (first_missing_none _ _ Hreq field Hin) as Hf.
  simpl in Hf. injection Hf as Hf. exact Hf.
Qed.

End VerifyPassFacts.

(** X14. [verify_search] reports either the single line of an exception
    or one line for each test query, and it passes exactly when none of
    the lines it reports is a failure: a warning for another category
    than the expected one never fails it. *)
Theorem verify_search_lines (embedding : Type)
        (model : option (str -> embedding))
        (knn_query :
          list (Z * embedding) -> embedding -> result (list (list Z)))
        (d : GeneratedDir embedding) :
  (snd (VerifyIndex.verify_search embedding model knn_query d)
   = [VerifyIndex.SearchError]
   \/ length (snd (VerifyIndex.verify_search embedding model knn_query d))
      = length VerifyIndex.TEST_QUERIES)
  /\ fst (VerifyIndex.verify_search embedding model knn_query d)
     = forallb (fun l => negb (is_failure l))
         (snd (VerifyIndex.verify_search embedding model knn_query d)).
Proof.
  unfold VerifyIndex.verify_search.
  destruct (vectors_idx d) as [[file [its|]]|];
    try (split; [left; reflexivity | reflexivity]).
  destruct model as [encode|];
    try (split; [left; reflexivity | reflexivity]).
  destruct (VerifyIndex.search_loop embedding knn_query encode (connect d)
              its VerifyIndex.TEST_QUERIES true []) as [[p ls]|e] eqn:H;
    try (split; [left; reflexivity | reflexivity]).
  destruct (search_loop_lines embedding knn_query encode _ _ _ _ _ _ _ H)
    as [added [Hls [Hlen Hp]]].
  simpl in Hls. subst ls. cbn [fst snd].
  split; [right; exact Hlen | exact Hp].
Qed.

(** X15. What a passed verification shows.  When [verify_index] returns
    true, the database opens and answers [ok] to the integrity check, it
    has the full-text table and a table of entries that is not empty, the
    vector index loads and is not empty, the manifest is an object with
    the four required fields whose [total_entries] equals the number of
    rows, the model loads, and every test query finds a label that names
    a row. *)
Theorem verify_index_passed (embedding : Type)
        (model : option (str -> embedding))
        (knn_query :
          list (Z * embedding) -> embedding -> result (list (list Z)))
        (d : GeneratedDir embedding) :
  VerifyIndex.verify_index embedding model knn_query d = true ->
  exists db rows file its m encode,
    connect d = Ok db
    /\ integrity_check db = lit "ok"
    /\ entries db = Some rows
    /\ entries_fts db = true
    /\ rows <> []
    /\ vectors_idx d = Some (file, Some its)
    /\ its <> []
    /\ manifest_json d = Some (Some (JDict m))
    /\ (forall field,
          In field [lit "version"; lit "total_entries"; lit "categories";
                    lit "files"] ->
          has_key m field = true)
    /\ VerifyIndex.differs_from_int (get m (lit "total_entries"))
         (count_entries rows) = false
    /\ model = Some encode
    /\ forallb (resolves knn_query encode its rows) VerifyIndex.TEST_QUERIES
       = true.
Proof.
  unfold VerifyIndex.verify_index. cbv zeta. cbn [andb].
  intros H.
  apply andb_true_iff in H. destruct H as [H Hsearch].
  apply andb_true_iff in H. destruct H as [H Hmanifest].
  apply andb_true_iff in H. destruct H as [Hdatabase Hvectors].
  destruct (verify_database_passed embedding d Hdatabase)
    as [db [rows [Hdb [Hok [Hrows [Hfts Hne]]]]]].
  destruct (verify_manifest_passed embedding d Hmanifest)
    as [m [actual [Hm [Hfields [Hcount Hdiff]]]]].
  assert (Hactual : actual = count_entries rows).
  { unfold select_count in Hcount. rewrite Hdb in Hcount.
    cbn [bind] in Hcount. rewrite Hrows in Hcount. congruence. }
  subst actual.
  unfold VerifyIndex.verify_vector_index in Hvectors.
  destruct (vectors_idx d) as [[file [its|]]|] eqn:Hidx; try discriminate.
  assert (Hits : its <> []).
  { intros ->. discriminate. }
  unfold VerifyIndex.verify_search in Hsearch. rewrite Hidx in Hsearch.
  destruct model as [encode|] eqn:Hmodel; [|discriminate].
  rewrite Hdb in Hsearch.
  pose proof (search_loop_spec embedding knn_query encode db rows its
                VerifyIndex.TEST_QUERIES true [] Hrows) as Hspec.
  destruct (VerifyIndex.search_loop embedding knn_query encode (Ok db) its
              VerifyIndex.TEST_QUERIES true []) as [r|e];
    [|discriminate].
  destruct Hspec as [_ ->]. cbn [fst andb] in Hsearch.
  exists db, rows, file, its, m, encode.
  repeat split; assumption.
Qed.

(** The theorem at the sample directory with a manifest, which passes
    although the hashes of its manifest are not those of the files. *)
Lemma verify_index_passed_witness :
  exists db rows file its m encode,
    connect Samples.tampered_dir = Ok db
    /\ integrity_check db = lit "ok"
    /\ entries db = Some rows
    /\ entries_fts db = true
    /\ rows <> []
    /\ vectors_idx Samples.tampered_dir = Some (file, Some its)
    /\ its <> []
    /\ manifest_json Samples.tampered_dir = Some (Some (JDict m))
    /\ (forall field,
          In field [lit "version"; lit "total_entries"; lit "categories";
                    lit "files"] ->
          has_key m field = true)
    /\ VerifyIndex.differs_from_int (get m (lit "total_entries"))
         (count_entries rows) = false
    /\ Some Samples.toy_embed = Some encode
    /\ forallb (resolves Samples.toy_knn encode its rows)
         VerifyIndex.TEST_QUERIES = true.
Proof.
  apply (verify_index_passed Z (Some Samples.toy_embed) Samples.toy_knn
           Samples.tampered_dir).
  vm_compute. reflexivity.
Defined.

(** ** The statistics of a build *)

Lemma lookup_set_same (V : Type) (d : list (str * V)) (k : str) (v : V) :
  lookup (set d k v) k = Some v.
Proof.
  induction d as [|[k0 w] rest IH]; simpl.
  - rewrite str_eqb_refl. reflexivity.
  - destruct (str_eqb k0 k) eqn:E; simpl; rewrite E;
      [reflexivity | exact IH].
Qed.

Lemma lookup_set_other (V : Type) (d : list (str * V)) (k k' : str) (v : V) :
  k' <> k -> lookup (set d k v) k' = lookup d k'.
Proof.
  intros Hne. induction d as [|[k0 w] rest IH]; simpl.
  - assert (E : str_eqb k k' = false) by (apply str_eqb_false; congruence).
    rewrite E. reflexivity.
  - destruct (str_eqb k0 k) eqn:E; simpl.
    + apply str_eqb_eq in E. subst k0.
      assert (E : str_eqb k k' = false) by (apply str_eqb_false; congruence).
      rewrite E. reflexivity.
    + destruct (str_eqb k0 k'); [reflexivity | exact IH].
Qed.

Lemma keys_set (V : Type) (d : list (str * V)) (k : str) (v : V) :
  map fst (set d k v)
  = match lookup d k with
    | Some _ => map fst d
    | None => map fst d ++ [k]
    end.
Proof.
  induction d as [|[k0 w] rest IH]; simpl; [reflexivity|].
  destruct (str_eqb k0 k); simpl; [reflexivity|].
  rewrite IH. destruct (lookup rest k); reflexivity.
Qed.

Lemma process_files_stats (cat : str) (files : list (list Entry))
      (conn conn' : Table) (stats stats' : Stats) (c : Z) :
  process_files conn stats cat files = Ok (conn', stats') ->
  lookup (categories stats) cat = Some c ->
  total_entries stats'
  = total_entries stats + Z.of_nat (length (concat files))
  /\ files_processed stats' = files_processed stats + Z.of_nat (length files)
  /\ lookup (categories stats') cat
     = Some (c + Z.of_nat (length (concat files)))
  /\ (forall k, k <> cat ->
        lookup (categories stats') k = lookup (categories stats) k)
  /\ map fst (categories stats') = map fst (categories stats).
Proof.
  revert conn stats c.
  induction files as [|es files IH]; intros conn stats c.
  - simpl. intros H Hc. injection H as _ <-.
    rewrite Hc, !Z.add_0_r. auto.
  - cbn [process_files].
    destruct (insert_all conn es) as [c1|]; cbn [bind]; [|discriminate].
    intros H Hc. rewrite Hc in H.
    apply (IH _ _ (c + Z.of_nat (length es))) in H;
      [|cbn [categories]; apply lookup_set_same].
    cbn [categories total_entries files_processed] in H.
    destruct H as [Ht [Hf [Hl [Ho Hk]]]].
    cbn [concat]. rewrite length_app. cbn [length].
    split; [lia|]. split; [lia|].
    split; [rewrite Hl; f_equal; lia|].
    split.
    + intros k Hne. rewrite (Ho k Hne). apply lookup_set_other. exact Hne.
    + rewrite Hk, keys_set, Hc. reflexivity.
Qed.

Lemma process_categories_stats (sources : Sources)
      (conn conn' : Table) (stats stats' : Stats) :
  process_categories conn stats sources = Ok (conn', stats') ->
  NoDup (map fst sources) ->
  (forall cat, In cat (map fst sources) ->
     lookup (categories stats) cat = None) ->
  total_entries stats'
  = total_entries stats + Z.of_nat (length (all_entries sources))
  /\ files_processed stats'
     = files_processed stats + Z.of_nat (length (flat_map snd sources))
  /\ (forall cat files, In (cat, files) sources ->
        lookup (categories stats') cat
        = Some (Z.of_nat (length (concat files))))
  /\ (forall k, ~ In k (map fst sources) ->
        lookup (categories stats') k = lookup (categories stats) k)
  /\ map fst (categories stats') = map fst (categories stats) ++ map fst sources.
Proof.
  revert conn stats.
  induction sources as [|[cat files] rest IH]; intros conn stats.
  - simpl. intros H _ _. injection H as _ <-.
    rewrite !Z.add_0_r, app_nil_r.
    repeat split; try reflexivity. intros cat files [].
  - cbn [process_categories].
    destruct (process_files conn _ cat files) as [[c1 s1]|] eqn:H1;
      cbn [bind fst snd]; [|discriminate].
    intros H Hnd Hfresh.
    cbn [map fst] in Hnd. inversion Hnd as [|? ? Hnotin Hnd']; subst.
    apply (process_files_stats _ _ _ _ _ _ 0) in H1;
      [|cbn [categories]; apply lookup_set_same].
    cbn [categories total_entries files_processed] in H1.
    destruct H1 as [Ht1 [Hf1 [Hl1 [Ho1 Hk1]]]].
    assert (Hfresh1 : forall c', In c' (map fst rest) ->
                                 lookup (categories s1) c' = None).
    { intros c' Hin.
      assert (Hne : c' <> cat) by (intros ->; contradiction).
      rewrite (Ho1 c' Hne), lookup_set_other by exact Hne.
      apply Hfresh. right. exact Hin. }
    destruct (IH _ _ H Hnd' Hfresh1) as [Ht [Hf [Hl [Ho Hk]]]].
    unfold all_entries in *. cbn [flat_map snd]. rewrite !length_app.
    split; [lia|]. split; [lia|]. split; [|split].
    + intros cat' files' [Heq | Hin].
      * injection Heq as <- <-. rewrite (Ho cat Hnotin), Hl1.
        f_equal.
      * apply Hl. exact Hin.
    + intros k Hk'. cbn [map fst In] in Hk'.
      assert (Hne : k <> cat) by (intros ->; apply Hk'; left; reflexivity).
      assert (Hrest : ~ In k (map fst rest))
        by (intros Hin; apply Hk'; right; exact Hin).
      rewrite (Ho k Hrest), (Ho1 k Hne). apply lookup_set_other. exact Hne.
    + rewrite Hk, Hk1, keys_set.
      rewrite (Hfresh cat) by (left; reflexivity).
      cbn [map fst]. rewrite <- app_assoc. reflexivity.
Qed.

(** X16. The statistics a build returns, for category directories with
    distinct names: [total_entries] is the number of entries of all files
    and the number of rows of the table, [files_processed] the number of
    files, and [categories] has the directories in the order they were
    walked, each with the number of entries of its files. *)
Theorem build_index_stats (embedding : Type) (vec_dim : embedding -> Z)
        (encode : list str -> list embedding) (sources : Sources)
        (out out' : OutputDir embedding) (stats : Stats) :
  build_index embedding vec_dim encode sources out = (out', Ok stats) ->
  NoDup (map fst sources) ->
  total_entries stats = Z.of_nat (length (all_entries sources))
  /\ (exists table,
        BuildIndex.knowledge_db embedding out' = Some table
        /\ total_entries stats = count_entries table)
  /\ files_processed stats = Z.of_nat (length (flat_map snd sources))
  /\ map fst (categories stats) = map fst sources
  /\ (forall cat files, In (cat, files) sources ->
        lookup (categories stats) cat
        = Some (Z.of_nat (length (concat files)))).
Proof.
  intros H Hnd.
  destruct (build_index_returns _ _ _ _ _ _ _ H)
    as [table [ix [Ho [He _]]]].
  unfold build_index in H.
  destruct (process_categories [] _ sources) as [[conn st]|] eqn:H1;
    [|discriminate].
  destruct (build_vector_index _ _ _ conn _) as [o [ix'|]];
    [|discriminate].
  injection H as _ <-.
  destruct (process_categories_stats _ _ _ _ _ H1 Hnd (fun _ _ => eq_refl))
    as [Ht [Hf [Hl [_ Hk]]]].
  cbn [total_entries files_processed categories] in Ht, Hf, Hk.
  split; [lia|]. split.
  - exists table. subst out'. split; [reflexivity|].
    unfold count_entries. rewrite Ht, <- He, length_map. lia.
  - split; [lia|]. split; [exact Hk | exact Hl].
Qed.

(** The theorem at the sample build of two entries in two categories. *)
Lemma build_index_stats_witness :
  exists stats,
    snd (build_index Z Samples.toy_dim Samples.toy_encode
           Samples.two_entry_sources Samples.no_files) = Ok stats
    /\ total_entries stats
       = Z.of_nat (length (all_entries Samples.two_entry_sources))
    /\ (exists table,
          BuildIndex.knowledge_db Z
            (fst (build_index Z Samples.toy_dim Samples.toy_encode
                    Samples.two_entry_sources Samples.no_files)) = Some table
          /\ total_entries stats = count_entries table)
    /\ files_processed stats
       = Z.of_nat (length (flat_map snd Samples.two_entry_sources))
    /\ map fst (categories stats) = map fst Samples.two_entry_sources
    /\ (forall cat files, In (cat, files) Samples.two_entry_sources ->
          lookup (categories stats) cat
          = Some (Z.of_nat (length (concat files)))).
Proof.
  eexists. split; [vm_compute; reflexivity|].
  apply (build_index_stats Z Samples.toy_dim Samples.toy_encode
           Samples.two_entry_sources Samples.no_files).
  - vm_compute. reflexivity.
  - repeat constructor; simpl; intuition discriminate.
Defined.

(** ** Entries with the same identifier *)

Lemma insert_all_app (a b : list Entry) (conn : Table) :
  insert_all conn (a ++ b)
  = bind (insert_all conn a) (fun conn' => insert_all conn' b).
Proof.
  revert conn. induction a as [|e a IH]; intros conn; [reflexivity|].
  cbn [app insert_all].
  destruct (insert_entry conn e) as [[c1 rid]|]; cbn [bind fst];
    [apply IH | reflexivity].
Qed.

(** Phase 1 inserts the entries of all files one after the other: its
    table, or its exception, is that of the inserts in this order. *)
Lemma process_files_flat (cat : str) (files : list (list Entry))
      (conn : Table) (stats : Stats) :
  match process_files conn stats cat files with
  | Ok (conn', _) => insert_all conn (concat files) = Ok conn'
  | Raise e => insert_all conn (concat files) = Raise e
  end.
Proof.
  revert conn stats. induction files as [|es files IH]; intros conn stats.
  - reflexivity.
  - cbn [process_files concat]. rewrite insert_all_app.
    destruct (insert_all conn es) as [c1|e]; cbn [bind]; [|reflexivity].
    apply IH.
Qed.

Lemma process_categories_flat (sources : Sources) (conn : Table)
      (stats : Stats) :
  match process_categories conn stats sources with
  | Ok (conn', _) => insert_all conn (all_entries sources) = Ok conn'
  | Raise e => insert_all conn (all_entries sources) = Raise e
  end.
Proof.
  revert conn stats.
  induction sources as [|[cat files] rest IH]; intros conn stats.
  - reflexivity.
  - cbn [process_categories]. unfold all_entries. cbn [flat_map snd].
    rewrite insert_all_app.
    match goal with
    | |- context [process_files conn ?s cat files] =>
        pose proof (process_files_flat cat files conn s) as H1;
        destruct (process_files conn s cat files) as [[c1 s1]|e];
        cbn [bind fst snd]; rewrite H1; cbn [bind]; [|reflexivity]
    end.
    apply IH.
Qed.

(** Inserts of entries whose values can be bound fail on a repeated
    identifier only, and leave the identifiers of the table distinct. *)
Lemma insert_all_ids (es : list Entry) (conn : Table) :
  forallb storable es = true ->
  match insert_all conn es with
  | Ok conn' =>
      map entry conn' = map entry conn ++ es
      /\ (NoDup (map id (map entry conn)) ->
          NoDup (map id (map entry conn')))
  | Raise e => e = IntegrityError
  end.
Proof.
  revert conn. induction es as [|e es IH]; intros conn Hs; simpl.
  - rewrite app_nil_r. auto.
  - simpl in Hs. apply andb_true_iff in Hs. destruct Hs as [He Hs].
    unfold insert_entry. rewrite (storable_binds e He).
    destruct (existsb _ conn) eqn:Hex; cbn [bind fst]; [reflexivity|].
    match goal with
    | |- match insert_all ?c es with _ => _ end => specialize (IH c Hs)
    end.
    destruct (insert_all _ es) as [conn'|e']; [|exact IH].
    destruct IH as [He' Hd].
    split.
    { rewrite He', map_app. cbn [map entry]. rewrite <- app_assoc.
      reflexivity. }
    intros Hnd. apply Hd. rewrite !map_app. cbn [map entry].
    apply NoDup_app; [exact Hnd | repeat constructor; intros [] |].
    intros x Hx [<- | []].
    apply in_map_iff in Hx. destruct Hx as [e0 [Hid Hx]].
    apply in_map_iff in Hx. destruct Hx as [r [Hr Hin]]. subst e0.
    assert (Hex' : existsb (fun r => str_eqb (id (entry r)) (id e)) conn
                   = true).
    { apply existsb_exists. exists r. split; [exact Hin|].
      apply str_eqb_eq. exact Hid. }
    congruence.
Qed.

(** X17. Two entries with the same [id] anywhere in the sources end the
    build with [IntegrityError] when the values of the entries up to the
    second of them can be bound: the inserts of phase 1 are not
    committed, so the new database is left with an empty table, and no
    vector index is written. *)
Theorem build_index_duplicate_id (embedding : Type) (vec_dim : embedding -> Z)
        (encode : list str -> list embedding) (sources : Sources)
        (out : OutputDir embedding) (a b c : list Entry) (e1 e2 : Entry) :
  all_entries sources = a ++ e1 :: b ++ e2 :: c ->
  id e1 = id e2 ->
  forallb storable (a ++ e1 :: b ++ [e2]) = true ->
  build_index embedding vec_dim encode sources out
  = ({| BuildIndex.knowledge_db := Some [];
        BuildIndex.vectors_idx := None |},
     Raise IntegrityError).
Proof.
  intros Hall Hid Hs.
  assert (Hins : insert_all [] (all_entries sources) = Raise IntegrityError).
  { rewrite Hall.
    replace (a ++ e1 :: b ++ e2 :: c) with ((a ++ e1 :: b ++ [e2]) ++ c)
      by (rewrite <- app_assoc; cbn [app]; rewrite <- app_assoc;
          reflexivity).
    rewrite insert_all_app.
    pose proof (insert_all_ids (a ++ e1 :: b ++ [e2]) [] Hs) as H.
    destruct (insert_all [] (a ++ e1 :: b ++ [e2])) as [conn|e];
      [|subst e; reflexivity].
    exfalso. destruct H as [He Hd].
    specialize (Hd (NoDup_nil _)). cbn [map app] in He.
    rewrite He, map_app in Hd. cbn [map] in Hd.
    apply NoDup_app_remove_l in Hd.
    apply NoDup_cons_iff in Hd. destruct Hd as [Hnot _].
    apply Hnot. rewrite map_app. apply in_or_app. right.
    left. symmetry. exact Hid. }
  unfold build_index.
  pose proof (process_categories_flat sources []
                {| categories := []; total_entries := 0;
                   files_processed := 0 |}) as H.
  destruct (process_categories [] _ sources) as [[conn st]|e];
    rewrite Hins in H; [discriminate|].
  injection H as <-. reflexivity.
Qed.

(** The theorem at two files that yield the same entry. *)
Lemma build_index_duplicate_id_witness :
  build_index Z Samples.toy_dim Samples.toy_encode
    Samples.duplicate_sources Samples.no_files
  = ({| BuildIndex.knowledge_db := Some [];
        BuildIndex.vectors_idx := None |},
     Raise IntegrityError).
Proof.
  apply (build_index_duplicate_id Z Samples.toy_dim Samples.toy_encode
           Samples.duplicate_sources Samples.no_files
           [] [] [] Samples.fire_entry Samples.fire_entry);
    reflexivity.
Defined.

(** An entry whose title holds a lone surrogate, as [json.load] reads it
    from an escape, ends the build before any other check. *)
Example unbindable_entry_ends_build :
  build_index Z Samples.toy_dim Samples.toy_encode
    [(lit "survival", [[Samples.surrogate_entry; Samples.fire_entry]])]
    Samples.no_files
  = ({| BuildIndex.knowledge_db := Some [];
        BuildIndex.vectors_idx := None |},
     Raise UnicodeEncodeError).
Proof. vm_compute. reflexivity. Qed.

(** ** JSON files in the build *)

Lemma category_safety_levels (cat : str) :
  In (category_safety cat) BUILD_LEVELS.
Proof.
  unfold category_safety, CATEGORY_SAFETY. cbn [lookup].
  repeat match goal with
         | |- context [str_eqb ?a cat] => destruct (str_eqb a cat)
         end;
    vm_compute; tauto.
Qed.

Section ParseJsonFacts.

Variable B : Builtins.

Lemma parse_json_item_entry (uid now : str) (item : dict) (cat src : str)
      (e : Entry) :
  In e (parse_json_item B uid now item cat src) ->
  MIN_CHUNK_SIZE <= len (content e)
  /\ category e = cat
  /\ safety_level e = category_safety cat
  /\ safety_notes e
     = (if str_eqb cat (lit "plants") then Some PLANTS_NOTE else None)
  /\ source_file e = Some src
  /\ source_page e = None.
Proof using Type.
  unfold parse_json_item.
  destruct (Z.ltb_spec (len (item_content B item)) MIN_CHUNK_SIZE)
    as [Hlt|Hge]; [intros []|].
  intros [<- | []].
  cbn [content category safety_level safety_notes source_file source_page].
  split; [exact Hge|]. split; [reflexivity|].
  split; [|repeat split].
  destruct (str_eqb cat (lit "plants")) eqn:E; [|reflexivity].
  apply str_eqb_eq in E. subst cat. reflexivity.
Qed.

Lemma json_entries_spec (fresh : nat -> str * str) (items : list json)
      (n : nat) (cat name : str) :
  (length (json_entries B fresh n items cat name) <= length items)%nat
  /\ Forall (fun e =>
               MIN_CHUNK_SIZE <= len (content e)
               /\ category e = cat
               /\ safety_level e = category_safety cat
               /\ safety_notes e
                  = (if str_eqb cat (lit "plants") then Some PLANTS_NOTE
                     else None)
               /\ source_file e = Some name
               /\ source_page e = None)
       (json_entries B fresh n items cat name).
Proof using Type.
  revert n. induction items as [|item rest IH]; intros n.
  - simpl. split; [lia | constructor].
  - destruct item as [| b | z | f | s | l | d];
      cbn [json_entries];
      try (destruct (IH n) as [Hlen Hall]; split;
           [simpl length; lia | exact Hall]).
    set (es := parse_json_item B (fst (fresh n)) (snd (fresh n)) d cat name).
    destruct (IH (n + length es)%nat) as [Hlen Hall].
    split.
    + rewrite length_app. simpl length.
      assert (length es <= 1)%nat; [|lia].
      unfold es, parse_json_item.
      destruct (len (item_content B d) <? MIN_CHUNK_SIZE); simpl; lia.
    + apply Forall_app. split; [|exact Hall].
      apply Forall_forall. intros e He.
      exact (parse_json_item_entry _ _ _ _ _ _ He).
Qed.

Lemma json_nested_spec (fresh : nat -> str * str) (items : dict)
      (n : nat) (cat name : str) :
  Forall (fun e =>
            MIN_CHUNK_SIZE <= len (content e)
            /\ category e = cat
            /\ safety_level e = category_safety cat
            /\ safety_notes e
               = (if str_eqb cat (lit "plants") then Some PLANTS_NOTE
                  else None)
            /\ source_file e = Some name
            /\ source_page e = None)
    (json_nested B fresh n items cat name).
Proof using Type.
  revert n. induction items as [|[key value] rest IH]; intros n.
  - constructor.
  - destruct value as [| b | z | f | s | l | d];
      cbn [json_nested]; try apply IH.
    apply Forall_app. split; [apply json_entries_spec | apply IH].
Qed.

End ParseJsonFacts.

(** X18. Every entry [parse_json] yields for a file has a content of at
    least [MIN_CHUNK_SIZE] characters, the category of its directory and
    the safety level [CATEGORY_SAFETY] gives that category, which is one
    of safe, caution, warning and danger and never lethal; it has the
    short plant warning in the category [plants] and no safety notes in
    any other, the name of the file as its source and no page.  A file
    that cannot be read, and a value that is neither a list nor an
    object, yield nothing; a list yields at most one entry for each of
    its items. *)
Theorem parse_json_entries (B : Builtins) (fresh : nat -> str * str)
        (n : nat) (data : json) (cat name : str) :
  parse_json B fresh n None cat name = []
  /\ (forall l, (length (parse_json B fresh n (Some (JList l)) cat name)
                 <= length l)%nat)
  /\ In (category_safety cat) BUILD_LEVELS
  /\ Forall (fun e =>
               MIN_CHUNK_SIZE <= len (content e)
               /\ category e = cat
               /\ safety_level e = category_safety cat
               /\ safety_notes e
                  = (if str_eqb cat (lit "plants") then Some PLANTS_NOTE
                     else None)
               /\ source_file e = Some name
               /\ source_page e = None)
       (parse_json B fresh n (Some data) cat name).
Proof.
  split; [reflexivity|]. split.
  { intros l. apply json_entries_spec. }
  split; [apply category_safety_levels|].
  destruct data as [| b | z | f | s | l | d]; try constructor.
  - apply json_entries_spec.
  - apply json_nested_spec.
Qed.

(** ** What a build leaves behind *)

(** X19. What [build_index] leaves in the output directory once the
    embedding model is loaded ([encode] is its function).  A build that
    returns has written a table of entries that is not empty and a
    vector index.  A build that ends with an exception has written no
    vector index, so none is left, the old one having been removed.  When
    phase 1 ended with the exception, it is the exception of the build
    and the database holds no row; when phase 1 went through, the
    database holds the table of phase 1, with the entries of all
    files. *)
Theorem build_index_outcome (embedding : Type) (vec_dim : embedding -> Z)
        (encode : list str -> list embedding) (sources : Sources)
        (out : OutputDir embedding) :
  match build_index embedding vec_dim encode sources out with
  | (out', Ok _) =>
      exists table ix,
        out' = {| BuildIndex.knowledge_db := Some table;
                  BuildIndex.vectors_idx := Some ix |}
        /\ table <> []
        /\ map entry table = all_entries sources
  | (out', Raise e) =>
      exists table,
        out' = {| BuildIndex.knowledge_db := Some table;
                  BuildIndex.vectors_idx := None |}
        /\ match process_categories []
                   {| categories := []; total_entries := 0;
                      files_processed := 0 |} sources with
           | Raise e1 => e = e1 /\ table = []
           | Ok (conn, _) =>
               table = conn /\ map entry table = all_entries sources
           end
  end.
Proof.
  unfold build_index.
  destruct (process_categories [] _ sources) as [[conn st]|e] eqn:H1.
  - destruct (process_categories_ok _ _ _ _ _ numbered_nil H1) as [_ He].
    simpl in He. unfold build_vector_index.
    destruct (select_rowid_content conn) as [|r rows] eqn:Hsel.
    + exists conn. split; [reflexivity | split; [reflexivity | exact He]].
    + destruct (batch_loop embedding encode _ _ _ _ _) as [embeddings ids].
      destruct (add_items embedding vec_dim _ embeddings ids) as [ix|e].
      * exists conn, ix. split; [reflexivity|]. split; [|exact He].
        intros ->. discriminate Hsel.
      * exists conn. split; [reflexivity | split; [reflexivity | exact He]].
  - exists []. split; [reflexivity | split; reflexivity].
Qed.
